(** * Protocol adapters of lqg-curve-irm: a shallow embedding

    The development follows three adapter classes of the repository:

    - [Compound]: the abstract [LQGBasePoolAdapter] over the Compound
      optimizer (morphoCompoundV2OptimizerBorrowAdapter.ts, second part),
    - [Aave]: the abstract [LQGBasePoolAdapter] over the Aave optimizer
      (unnamed/part_000),
    - [Vault]: [LQGBlueVaultAdapter] (morphoBlueVaultAdapter.ts).

    The leaf classes only fix [productId], [getProtocolDetails] (hence the
    position type) and wrap [buildMetadata] in the [CacheToFile] decorator.

    Every method is [async] and talks to a JSON-RPC provider.  The provider
    is a record of answers ([Provider]); a method is a function of the
    instance state into an outcome (a value or a thrown error) and the next
    instance state.  bigint is [Z]; a JS object used as a dictionary is an
    insertion-ordered association list of its own properties. *)

From Stdlib Require Import ZArith List String Ascii Bool Lia Permutation.
Import ListNotations.
Open Scope string_scope.
Open Scope list_scope.
Open Scope Z_scope.

Set Implicit Arguments.

(** ** Thrown values and outcomes *)

(** The error objects the adapters throw themselves ([Error],
    [NotImplementedError]), the ones the language raises ([RangeError],
    [TypeError]) and the rejection of a provider call. *)
Inductive JsError : Type :=
| Error (message : string)
| NotImplementedError
| RangeError (message : string)
| TypeError (message : string)
| ProviderError (message : string).

(** Every thrown value above is an object, and objects are truthy. *)
Definition truthy (e : JsError) : bool :=
  match e with
  | Error _ | NotImplementedError | RangeError _ | TypeError _
  | ProviderError _ => true
  end.

Inductive Outcome (A : Type) : Type :=
| Ok (a : A)
| Throw (e : JsError).
Arguments Ok {A} a.
Arguments Throw {A} e.

(** ** JS objects used as dictionaries

    Own enumerable string-keyed properties in insertion order.  Assigning to
    an existing key replaces the value and keeps the key's position.  The keys
    of the metadata objects are token addresses: none is an integer index
    (which an object would enumerate first) and none names a member of
    [Object.prototype]; inherited members are outside the model. *)
Definition JsObject (V : Type) : Type := list (string * V).

Fixpoint obj_get {V} (o : JsObject V) (k : string) : option V :=
  match o with
  | [] => None
  | (k', v) :: o' => if String.eqb k' k then Some v else obj_get o' k
  end.

Fixpoint obj_set {V} (o : JsObject V) (k : string) (v : V) : JsObject V :=
  match o with
  | [] => [(k, v)]
  | (k', v') :: o' =>
      if String.eqb k' k then (k', v) :: o' else (k', v') :: obj_set o' k v
  end.

Definition Object_keys {V} (o : JsObject V) : list string := map fst o.
Definition Object_values {V} (o : JsObject V) : list V := map snd o.

(** ** Addresses as strings *)

Definition lower_ascii (c : ascii) : ascii :=
  let n := nat_of_ascii c in
  if (andb (Nat.leb 65 n) (Nat.leb n 90)) then ascii_of_nat (n + 32) else c.

Fixpoint toLowerCase (s : string) : string :=
  match s with
  | EmptyString => EmptyString
  | String c s' => String (lower_ascii c) (toLowerCase s')
  end.

(** Two spellings of one 20-byte address: equal up to the case of the hex
    digits (a topic filter compares the bytes, not the spelling). *)
Definition same_address (a b : string) : bool :=
  String.eqb (toLowerCase a) (toLowerCase b).

Definition is_hex_digit (c : ascii) : bool :=
  let n := nat_of_ascii c in
  orb (andb (Nat.leb 48 n) (Nat.leb n 57))
      (orb (andb (Nat.leb 65 n) (Nat.leb n 70))
           (andb (Nat.leb 97 n) (Nat.leb n 102))).

Fixpoint all_hex (s : string) : bool :=
  match s with
  | EmptyString => true
  | String c s' => andb (is_hex_digit c) (all_hex s')
  end.

(** The shape of an address: [0x] and forty hex digits. *)
Definition is_address (s : string) : bool :=
  match s with
  | String "0" (String "x" h) => andb (Nat.eqb (String.length h) 40) (all_hex h)
  | _ => false
  end.

Definition ZERO_ADDRESS : string := "0x0000000000000000000000000000000000000000".

(** ** The common schema (types/adapter.ts, types/erc20Metadata.ts) *)

Record Erc20Metadata : Type := {
  address : string;
  name : string;
  symbol : string;
  decimals : Z
}.

Inductive TokenType : Type := Protocol | Underlying.
Inductive PositionType : Type := Supply | Borrow.

(** [{ ...token, balanceRaw, type }]: a token's metadata spread next to a
    balance.  [B] is [Z] for a bigint balance. *)
Record TokenBalanceOf (B : Type) : Type := {
  token : Erc20Metadata;
  balanceRaw : B;
  type : TokenType
}.

Definition UnderlyingBalance : Type := TokenBalanceOf Z.

(** [ProtocolPosition].  [tokenId] is set by the vault adapter only; [balance]
    is the extra property the pool adapters carry over from the spread of
    [protocolTokenBalance]. *)
Record ProtocolPosition : Type := {
  tokenId : option string;
  pos_token : Erc20Metadata;
  balance : option Z;
  pos_balanceRaw : Z;
  pos_type : TokenType;
  tokens : list UnderlyingBalance
}.

Record MovementsByBlockOf (B : Type) : Type := {
  protocolToken : Erc20Metadata;
  mv_tokens : list (TokenBalanceOf B);
  blockNumber : Z;
  transactionHash : string
}.

Definition MovementsByBlock : Type := MovementsByBlockOf Z.

Record ProtocolTokenTvl : Type := {
  tvl_token : Erc20Metadata;
  tvl_type : TokenType;
  totalSupplyRaw : Z
}.

(** One entry of the metadata object. *)
Record PoolMetadata : Type := {
  pm_protocolToken : Erc20Metadata;
  underlyingToken : Erc20Metadata
}.

Definition Metadata : Type := JsObject PoolMetadata.

(** ** The provider

    What the chain answers.  A contract method is keyed by the address the
    contract object was connected to; [blockTag] is the optional block
    number of the call.  [getTokenMetadata] stands for
    core/utils/getTokenMetadata (its chain and provider arguments are those
    of the instance). *)

Inductive PoolEvent : Type := Supplied | Withdrawn | Repaid | Borrowed.

(** The arguments of a log of the optimizer contract.  The leading addresses
    are the indexed ones, in the order the adapters' filters take them: two
    parties and the pool token, or for [Borrowed] the borrower and the pool
    token; [amount] is the event's [_amount]. *)
Inductive PoolEventArgs : Type :=
| SuppliedArgs (from onBehalf poolToken : string) (amount : Z)
| WithdrawnArgs (supplier receiver poolToken : string) (amount : Z)
| RepaidArgs (repayer onBehalf poolToken : string) (amount : Z)
| BorrowedArgs (borrower poolToken : string) (amount : Z).

(** [pl_decoded] tells whether the log came back with its [args]. *)
Record PoolLog : Type := {
  pl_args : PoolEventArgs;
  pl_decoded : bool;
  pl_blockNumber : Z;
  pl_transactionHash : string
}.

Definition pl_event (l : PoolLog) : PoolEvent :=
  match pl_args l with
  | SuppliedArgs _ _ _ _ => Supplied
  | WithdrawnArgs _ _ _ _ => Withdrawn
  | RepaidArgs _ _ _ _ => Repaid
  | BorrowedArgs _ _ _ => Borrowed
  end.

Definition _poolToken (l : PoolLog) : string :=
  match pl_args l with
  | SuppliedArgs _ _ p _ | WithdrawnArgs _ _ p _ | RepaidArgs _ _ p _
  | BorrowedArgs _ p _ => p
  end.

Definition _amount (l : PoolLog) : Z :=
  match pl_args l with
  | SuppliedArgs _ _ _ a | WithdrawnArgs _ _ _ a | RepaidArgs _ _ _ a
  | BorrowedArgs _ _ a => a
  end.

Definition pool_topics (l : PoolLog) : list string :=
  match pl_args l with
  | SuppliedArgs a b p _ | WithdrawnArgs a b p _ | RepaidArgs a b p _ =>
      [a; b; p]
  | BorrowedArgs a p _ => [a; p]
  end.

Inductive VaultEvent : Type := Deposit | Withdraw.

(** The arguments of a log of a vault: [Deposit(sender, owner, assets,
    shares)] or [Withdraw(sender, receiver, owner, assets, shares)], the
    addresses indexed. *)
Inductive VaultEventArgs : Type :=
| DepositArgs (sender owner : string) (assets shares : Z)
| WithdrawArgs (sender receiver owner : string) (assets shares : Z).

Record VaultLog : Type := {
  vl_args : VaultEventArgs;
  vl_decoded : bool;
  vl_blockNumber : Z;
  vl_transactionHash : string
}.

Definition vl_event (l : VaultLog) : VaultEvent :=
  match vl_args l with
  | DepositArgs _ _ _ _ => Deposit
  | WithdrawArgs _ _ _ _ _ => Withdraw
  end.

Definition assets (l : VaultLog) : Z :=
  match vl_args l with
  | DepositArgs _ _ a _ | WithdrawArgs _ _ _ a _ => a
  end.

Definition vault_topics (l : VaultLog) : list string :=
  match vl_args l with
  | DepositArgs a b _ _ => [a; b]
  | WithdrawArgs a b c _ _ => [a; b; c]
  end.

(** A [CreateMetaLQG] log of the factory: the adapter reads [args[0]] (the
    vault) and [args[4]] (its asset). *)
Record CreateMetaLQGLog : Type := {
  args0 : string;
  args4 : string
}.

Record Provider : Type := {
  getTokenMetadata : string -> Outcome Erc20Metadata;
  (* LQGCompound, CToken *)
  getAllMarkets : string -> Outcome (list string);
  underlying : string -> Outcome string;
  exchangeRateStored : string -> option Z -> Outcome Z;
  (* LQGAaveV2, AToken *)
  getMarketsCreated : string -> Outcome (list string);
  UNDERLYING_ASSET_ADDRESS : string -> Outcome string;
  (* the lens of either optimizer: contract, market, user, blockTag *)
  getCurrentSupplyBalanceInOf :
    string -> string -> string -> option Z -> Outcome (Z * Z * Z);
  getCurrentBorrowBalanceInOf :
    string -> string -> string -> option Z -> Outcome (Z * Z * Z);
  getTotalMarketSupply : string -> string -> option Z -> Outcome (Z * Z);
  getTotalMarketBorrow : string -> string -> option Z -> Outcome (Z * Z);
  (* logs of the optimizer contract at an address *)
  poolLogs : string -> Outcome (list PoolLog);
  (* MetaLQGfactory (its CreateMetaLQG logs from block 0 to latest),
     MetaLQG, Erc20 *)
  createMetaLQGLogs : string -> Outcome (list CreateMetaLQGLog);
  balanceOf : string -> string -> option Z -> Outcome Z;
  erc20_decimals : string -> Outcome Z;
  vaultLogs : string -> Outcome (list VaultLog)
}.

(** ** Event filters *)

(** A topic filter: one optional address per indexed argument, [None] for
    [undefined]. *)
Definition TopicFilter : Type := list (option string).

Fixpoint topics_match (f : TopicFilter) (topics : list string) : bool :=
  match f, topics with
  | [], _ => true
  | None :: f', _ :: ts => topics_match f' ts
  | Some a :: f', t :: ts => andb (same_address a t) (topics_match f' ts)
  | _ :: _, [] => false
  end.

Definition in_range (fromBlock toBlock b : Z) : bool :=
  andb (fromBlock <=? b) (b <=? toBlock).

Definition pool_queryFilter (p : Provider) (contract : string)
    (ev : PoolEvent) (f : TopicFilter) (fromBlock toBlock : Z)
    : Outcome (list PoolLog) :=
  match poolLogs p contract with
  | Ok logs =>
      Ok (filter (fun l =>
            andb (match pl_event l, ev with
                  | Supplied, Supplied | Withdrawn, Withdrawn
                  | Repaid, Repaid | Borrowed, Borrowed => true
                  | _, _ => false
                  end)
                 (andb (topics_match f (pool_topics l))
                       (in_range fromBlock toBlock (pl_blockNumber l))))
            logs)
  | Throw e => Throw e
  end.

Definition vault_queryFilter (p : Provider) (contract : string)
    (ev : VaultEvent) (f : TopicFilter) (fromBlock toBlock : Z)
    : Outcome (list VaultLog) :=
  match vaultLogs p contract with
  | Ok logs =>
      Ok (filter (fun l =>
            andb (match vl_event l, ev with
                  | Deposit, Deposit | Withdraw, Withdraw => true
                  | _, _ => false
                  end)
                 (andb (topics_match f (vault_topics l))
                       (in_range fromBlock toBlock (vl_blockNumber l))))
            logs)
  | Throw e => Throw e
  end.

(** ** Instance state and the method monad *)

(** [_metadataCache] is the private field of the Compound base class.  The two
    counters are ghost state: how often a registry was enumerated
    ([getAllMarkets], [getMarketsCreated], the factory's log query) and how
    often [_metadataCache] was assigned. *)
Record AdapterState : Type := {
  _metadataCache : option Metadata;
  registryReads : nat;
  cacheWrites : nat
}.

Definition fresh : AdapterState :=
  {| _metadataCache := None; registryReads := 0; cacheWrites := 0 |}.

Definition M (A : Type) : Type := AdapterState -> Outcome A * AdapterState.

Definition ret {A} (a : A) : M A := fun s => (Ok a, s).

Definition throw {A} (e : JsError) : M A := fun s => (Throw e, s).

Definition bind {A B} (m : M A) (k : A -> M B) : M B :=
  fun s =>
    match m s with
    | (Ok a, s') => k a s'
    | (Throw e, s') => (Throw e, s')
    end.

(** Awaiting a provider call. *)
Definition call {A} (o : Outcome A) : M A := fun s => (o, s).

Notation "x <- m ;; k" := (bind m (fun x => k))
  (at level 61, m at next level, right associativity).
Notation "' pat <- m ;; k" := (bind m (fun x => match x with pat => k end))
  (at level 61, pat pattern, m at next level, right associativity).

(** [Promise.all([a, b])] on two tasks of different types; when both
    reject, the rejection of [a] is the one reported (see [promiseAll]
    below). *)
Definition promiseAll2 {A B} (a : M A) (b : M B) : M (A * B) :=
  fun s =>
    let (ra, s1) := a s in
    let (rb, s2) := b s1 in
    (match ra, rb with
     | Ok x, Ok y => Ok (x, y)
     | Throw e, _ => Throw e
     | Ok _, Throw e => Throw e
     end, s2).

Definition registry_read (s : AdapterState) : AdapterState :=
  {| _metadataCache := _metadataCache s;
     registryReads := S (registryReads s);
     cacheWrites := cacheWrites s |}.

Definition cache_written (metadataObject : Metadata) (s : AdapterState)
    : AdapterState :=
  {| _metadataCache := Some metadataObject;
     registryReads := registryReads s;
     cacheWrites := S (cacheWrites s) |}.

(** Enumerating a registry: the provider call, counted. *)
Definition enumerate {A} (o : Outcome A) : M A :=
  fun s => (o, registry_read s).

(** [this._metadataCache = metadataObject]. *)
Definition set_metadataCache (metadataObject : Metadata) : M unit :=
  fun s => (Ok tt, cache_written metadataObject s).

(** The tasks of a build write [metadataObject[key] = value] as they
    complete. *)
Definition assign_all {V} (entries : list (string * V)) : JsObject V :=
  fold_left (fun o e => obj_set o (fst e) (snd e)) entries [].

(** [promise.catch(handler)]. *)
Definition catch {A} (m : M A) (handler : JsError -> M A) : M A :=
  fun s =>
    match m s with
    | (Ok a, s') => (Ok a, s')
    | (Throw e, s') => handler e s'
    end.

(** [Promise.all] over started tasks.  Every task runs, whether or not
    another one rejects; the values come back in the order of the tasks.
    When several tasks reject, the rejection reported is that of the first of
    them in the order the tasks are run, whereas [Promise.all] itself reports
    the one that happens first in time: a statement that names the error of
    a [Promise.all] is made where every task that can reject rejects with
    that error. *)
Fixpoint promiseAll {A} (tasks : list (M A)) : M (list A) :=
  fun s =>
    match tasks with
    | [] => (Ok [], s)
    | t :: ts =>
        let (r, s1) := t s in
        let (rs, s2) := promiseAll ts s1 in
        (match r, rs with
         | Ok a, Ok l => Ok (a :: l)
         | Throw e, _ => Throw e
         | Ok _, Throw e => Throw e
         end, s2)
    end.

(** The order in which concurrent tasks reach their side effect on a shared
    object is not fixed by the program.  A schedule is a list of picks: each
    pick selects (modulo the number of tasks left) the next task to complete;
    when the picks run out the remaining tasks complete in list order. *)
Fixpoint complete {A} (schedule : list nat) (l : list A) : list A :=
  match schedule with
  | [] => l
  | n :: schedule' =>
      let i := Nat.modulo n (List.length l) in
      match nth_error l i with
      | Some x => x :: complete schedule' (firstn i l ++ skipn (S i) l)
      | None => l
      end
  end.

(** ** Number and BigInt

    [Number(b)] of a bigint is the double nearest to it, ties to the even
    significand, and an infinity past the largest double: only integers and
    the infinities arise.  [BigInt(n)] of an integral number is exact and of
    an infinity a [RangeError]. *)
Inductive JsNumber : Type :=
| NumInt (z : Z)
| NumInf (negative : bool).

Definition round_to_double (a : Z) : Z :=
  if a <? 2 ^ 53 then a
  else
    let e := Z.log2 a - 52 in
    let q := Z.shiftr a e in
    let r := Z.land a (Z.ones e) in
    let half := Z.shiftl 1 (e - 1) in
    let q' := if orb (half <? r) (andb (r =? half) (Z.odd q))
              then q + 1 else q in
    Z.shiftl q' e.

Definition Number (b : Z) : JsNumber :=
  let v := round_to_double (Z.abs b) in
  if 2 ^ 1024 <=? v then NumInf (b <? 0)
  else NumInt (Z.sgn b * v).

Definition BigInt (n : JsNumber) : Outcome Z :=
  match n with
  | NumInt z => Ok z
  | NumInf _ =>
      Throw (RangeError "The number Infinity cannot be converted to a BigInt because it is not an integer")
  end.

(** [base ** exponent] on bigints. *)
Definition bigint_pow (base exponent : Z) : Outcome Z :=
  if exponent <? 0 then Throw (RangeError "Exponent must be non-negative")
  else Ok (base ^ exponent).

(** [a / b] on bigints: truncation toward zero. *)
Definition bigint_div (a b : Z) : Outcome Z :=
  if b =? 0 then Throw (RangeError "Division by zero")
  else Ok (Z.quot a b).

(** ** Inputs shared by the adapters *)

Inductive EventType : Type := supplied | withdrawn | repaid | borrowed.

Record UnwrapInput : Type := {
  protocolTokenAddress : string;
  ui_blockNumber : option Z
}.

(** [TokenBalance]: a token's metadata with a raw balance. *)
Record TokenBalance : Type := {
  tb_token : Erc20Metadata;
  tb_balanceRaw : Z
}.

Definition pool_not_found : JsError := Error "Protocol token pool not found".

(** ** The Compound optimizer base adapter *)
Module Compound.
Section Adapter.

Variable provider : Provider.
(** [this.getProtocolDetails().positionType], supplied by the leaf class. *)
Variable positionType : PositionType.
(** [this.buildMetadata()] as the instance resolves it: the leaf classes
    override the method with the base one under the [CacheToFile]
    decorator. *)
Variable this_buildMetadata : M Metadata.
(** [WadMath.wadDiv] of evm-maths. *)
Variable wadDiv : Z -> Z -> Outcome Z.
Variable UnwrapExchangeRate : Type.

(** The one entry of [LQGCompoundV2ContractAddresses] and [lensAddress];
    ethers' [getAddress] only gives them their checksum spelling. *)
Definition LQGCompoundV2ContractAddress : string :=
  "0x8888882f8f843896699869179fb6e4f7e3b58888".
Definition lensAddress : string :=
  "0x930f1b46e1d081ec1524efd95752be3ece51ef67".

Definition marketTask (marketAddress : string) : M (string * PoolMetadata) :=
  supplyTokenAddress <-
    catch (call (underlying provider marketAddress))
          (fun err => if truthy err then ret ZERO_ADDRESS else throw err) ;;
  ' (protocolToken, underlyingToken) <-
    promiseAll2 (call (getTokenMetadata provider marketAddress))
                (call (getTokenMetadata provider supplyTokenAddress)) ;;
  ret (address protocolToken,
       {| pm_protocolToken := protocolToken;
          underlyingToken := underlyingToken |}).

(** The base class's [buildMetadata]; [schedule] is the order in which
    the per-market tasks complete. *)
Definition buildMetadata (schedule : list nat) : M Metadata :=
  fun s =>
    match _metadataCache s with
    | Some cached => (Ok cached, s)
    | None =>
        (markets <-
           enumerate (getAllMarkets provider LQGCompoundV2ContractAddress) ;;
         entries <- promiseAll (map marketTask (complete schedule markets)) ;;
         let metadataObject := assign_all entries in
         _ <- set_metadataCache metadataObject ;;
         ret metadataObject) s
    end.




Definition getProtocolTokens : M (list Erc20Metadata) :=
  metadata <- this_buildMetadata ;;
  ret (map pm_protocolToken (Object_values metadata)).

Definition _fetchPoolMetadata (protocolTokenAddress : string)
    : M PoolMetadata :=
  metadata <- this_buildMetadata ;;
  match obj_get metadata protocolTokenAddress with
  | None => throw pool_not_found
  | Some poolMetadata => ret poolMetadata
  end.

Definition fetchProtocolTokenMetadata (protocolTokenAddress : string)
    : M Erc20Metadata :=
  poolMetadata <- _fetchPoolMetadata protocolTokenAddress ;;
  ret (pm_protocolToken poolMetadata).

Definition getUnderlyingTokenBalances (userAddress : string)
    (protocolTokenBalance : TokenBalance) (blockNumber : option Z)
    : M (list UnderlyingBalance) :=
  poolMetadata <-
    _fetchPoolMetadata (address (tb_token protocolTokenBalance)) ;;
  let underlyingTokenBalance :=
    {| token := underlyingToken poolMetadata;
       balanceRaw := tb_balanceRaw protocolTokenBalance;
       type := Underlying |} in
  ret [underlyingTokenBalance].

Definition fetchUnderlyingTokensMetadata (protocolTokenAddress : string)
    : M (list Erc20Metadata) :=
  poolMetadata <- _fetchPoolMetadata protocolTokenAddress ;;
  ret [underlyingToken poolMetadata].

Definition getBalance (market : Erc20Metadata) (userAddress : string)
    (blockNumber : option Z) : M Z :=
  match positionType with
  | Supply =>
      ' (_, _, balanceRaw) <-
        call (getCurrentSupplyBalanceInOf provider lensAddress
                (address market) userAddress blockNumber) ;;
      ret balanceRaw
  | _ =>
      ' (_, _, balanceRaw) <-
        call (getCurrentBorrowBalanceInOf provider lensAddress
                (address market) userAddress blockNumber) ;;
      ret balanceRaw
  end.

Definition positionTask (userAddress : string) (blockNumber : option Z)
    (protocolTokenBalance : string * Z) : M ProtocolPosition :=
  tokenMetadata <- fetchProtocolTokenMetadata (fst protocolTokenBalance) ;;
  let completeTokenBalance :=
    {| tb_token := {| address := fst protocolTokenBalance;
                      name := name tokenMetadata;
                      symbol := symbol tokenMetadata;
                      decimals := decimals tokenMetadata |};
       tb_balanceRaw := snd protocolTokenBalance |} in
  underlyingTokenBalances <-
    getUnderlyingTokenBalances userAddress completeTokenBalance blockNumber ;;
  ret {| tokenId := None;
         pos_token := {| address := fst protocolTokenBalance;
                         name := name tokenMetadata;
                         symbol := symbol tokenMetadata;
                         decimals := decimals tokenMetadata |};
         balance := Some (snd protocolTokenBalance);
         pos_balanceRaw := snd protocolTokenBalance;
         pos_type := Protocol;
         tokens := underlyingTokenBalances |}.

Definition getPositions (userAddress : string) (blockNumber : option Z)
    : M (list ProtocolPosition) :=
  tokens <- getProtocolTokens ;;
  protocolTokensBalances <-
    promiseAll
      (map (fun market =>
              amount <- getBalance market userAddress blockNumber ;;
              ret (address market, amount))
           tokens) ;;
  promiseAll
    (map (positionTask userAddress blockNumber)
         (filter (fun protocolTokenBalance =>
                    negb (snd protocolTokenBalance =? 0))
                 protocolTokensBalances)).

Definition tvlTask (blockNumber : option Z) (tokenMetadata : Erc20Metadata)
    : M ProtocolTokenTvl :=
  totalValueRaw <-
    match positionType with
    | Supply =>
        ' (p2pSupply, poolSupply) <-
          call (getTotalMarketSupply provider lensAddress
                  (address tokenMetadata) blockNumber) ;;
        ret (poolSupply + p2pSupply)
    | _ =>
        ' (p2pBorrow, poolBorrow) <-
          call (getTotalMarketBorrow provider lensAddress
                  (address tokenMetadata) blockNumber) ;;
        ret (poolBorrow + p2pBorrow)
    end ;;
  exchangeRate <-
    call (exchangeRateStored provider (address tokenMetadata) blockNumber) ;;
  totalValueRaw <- call (wadDiv totalValueRaw exchangeRate) ;;
  ret {| tvl_token := tokenMetadata;
         tvl_type := Protocol;
         totalSupplyRaw := totalValueRaw |}.

Definition getTotalValueLocked (blockNumber : option Z)
    : M (list ProtocolTokenTvl) :=
  tokens <- getProtocolTokens ;;
  promiseAll (map (tvlTask blockNumber) tokens).

Definition unwrap (_input : UnwrapInput) : M UnwrapExchangeRate :=
  throw NotImplementedError.

Definition movementFilter (eventType : EventType)
    (userAddress protocolTokenAddress : string) : PoolEvent * TopicFilter :=
  match eventType with
  | supplied =>
      (Supplied, [None; Some userAddress; Some protocolTokenAddress])
  | withdrawn =>
      (Withdrawn, [Some userAddress; None; Some protocolTokenAddress])
  | repaid =>
      (Repaid, [None; Some userAddress; Some protocolTokenAddress])
  | borrowed =>
      (Borrowed, [Some userAddress; Some protocolTokenAddress])
  end.

Definition movementTask (protocolToken underlyingToken : Erc20Metadata)
    (event : PoolLog) : M MovementsByBlock :=
  if pl_decoded event then
    ret {| protocolToken := protocolToken;
           mv_tokens := [ {| token := underlyingToken;
                             balanceRaw := _amount event;
                             type := Underlying |} ];
           blockNumber := pl_blockNumber event;
           transactionHash := pl_transactionHash event |}
  else
    throw (TypeError "Cannot read properties of undefined (reading '_amount')").

Definition _getMovements (userAddress protocolTokenAddress : string)
    (fromBlock toBlock : Z) (eventType : EventType)
    : M (list MovementsByBlock) :=
  protocolToken <- fetchProtocolTokenMetadata protocolTokenAddress ;;
  underlyingTokens <- fetchUnderlyingTokensMetadata protocolTokenAddress ;;
  match underlyingTokens with
  | underlyingToken :: _ =>
      let (event, filter) :=
        movementFilter eventType userAddress protocolTokenAddress in
      eventResults <-
        call (pool_queryFilter provider LQGCompoundV2ContractAddress
                event filter fromBlock toBlock) ;;
      promiseAll (map (movementTask protocolToken underlyingToken)
                      eventResults)
  | [] =>
      (* not reached: [fetchUnderlyingTokensMetadata] returns one element *)
      throw (TypeError "underlyingToken is undefined")
  end.

Definition getWithdrawals (userAddress protocolTokenAddress : string)
    (fromBlock toBlock : Z) : M (list MovementsByBlock) :=
  _getMovements userAddress protocolTokenAddress fromBlock toBlock withdrawn.

Definition getDeposits (userAddress protocolTokenAddress : string)
    (fromBlock toBlock : Z) : M (list MovementsByBlock) :=
  _getMovements userAddress protocolTokenAddress fromBlock toBlock supplied.

Definition getBorrows (userAddress protocolTokenAddress : string)
    (fromBlock toBlock : Z) : M (list MovementsByBlock) :=
  _getMovements userAddress protocolTokenAddress fromBlock toBlock borrowed.

Definition getRepays (userAddress protocolTokenAddress : string)
    (fromBlock toBlock : Z) : M (list MovementsByBlock) :=
  _getMovements userAddress protocolTokenAddress fromBlock toBlock repaid.

End Adapter.
End Compound.

(** ** The Aave optimizer base adapter *)
Module Aave.
Section Adapter.

Variable provider : Provider.
Variable positionType : PositionType.
Variable this_buildMetadata : M Metadata.
Variable UnwrapExchangeRate : Type.

(** The one entry of [LQGAaveV2ContractAddresses] and [lensAddress]. *)
Definition LQGAaveV2ContractAddress : string :=
  "0x777777c9898d384f785ee44acfe945efdff5f3e0".
Definition lensAddress : string :=
  "0x507fa343d0a90786d86c7cd885f5c49263a91ff4".

Definition marketTask (marketAddress : string) : M (string * PoolMetadata) :=
  supplyTokenAddress <-
    catch (call (UNDERLYING_ASSET_ADDRESS provider marketAddress))
          (fun err => if truthy err then ret ZERO_ADDRESS else throw err) ;;
  ' (protocolToken, underlyingToken) <-
    promiseAll2 (call (getTokenMetadata provider marketAddress))
                (call (getTokenMetadata provider supplyTokenAddress)) ;;
  ret (address protocolToken,
       {| pm_protocolToken := protocolToken;
          underlyingToken := underlyingToken |}).

(** The base class's [buildMetadata]: no field of the instance is read or
    written. *)
Definition buildMetadata (schedule : list nat) : M Metadata :=
  markets <- enumerate (getMarketsCreated provider LQGAaveV2ContractAddress) ;;
  entries <- promiseAll (map marketTask (complete schedule markets)) ;;
  ret (assign_all entries).

Definition getProtocolTokens : M (list Erc20Metadata) :=
  metadata <- this_buildMetadata ;;
  ret (map pm_protocolToken (Object_values metadata)).

Definition fetchPoolMetadata (protocolTokenAddress : string)
    : M PoolMetadata :=
  metadata <- this_buildMetadata ;;
  match obj_get metadata protocolTokenAddress with
  | None => throw pool_not_found
  | Some poolMetadata => ret poolMetadata
  end.

Definition fetchProtocolTokenMetadata (protocolTokenAddress : string)
    : M Erc20Metadata :=
  poolMetadata <- fetchPoolMetadata protocolTokenAddress ;;
  ret (pm_protocolToken poolMetadata).

Definition getUnderlyingTokenBalances (userAddress : string)
    (protocolTokenBalance : TokenBalance) (blockNumber : option Z)
    : M (list UnderlyingBalance) :=
  poolMetadata <-
    fetchPoolMetadata (address (tb_token protocolTokenBalance)) ;;
  let underlyingTokenBalance :=
    {| token := underlyingToken poolMetadata;
       balanceRaw := tb_balanceRaw protocolTokenBalance;
       type := Underlying |} in
  ret [underlyingTokenBalance].

Definition fetchUnderlyingTokensMetadata (protocolTokenAddress : string)
    : M (list Erc20Metadata) :=
  poolMetadata <- fetchPoolMetadata protocolTokenAddress ;;
  ret [underlyingToken poolMetadata].

Definition getBalance (market : Erc20Metadata) (userAddress : string)
    (blockNumber : option Z) : M Z :=
  match positionType with
  | Supply =>
      ' (_, _, balanceRaw) <-
        call (getCurrentSupplyBalanceInOf provider lensAddress
                (address market) userAddress blockNumber) ;;
      ret balanceRaw
  | _ =>
      ' (_, _, balanceRaw) <-
        call (getCurrentBorrowBalanceInOf provider lensAddress
                (address market) userAddress blockNumber) ;;
      ret balanceRaw
  end.

Definition positionTask (userAddress : string) (blockNumber : option Z)
    (protocolTokenBalance : string * Z) : M ProtocolPosition :=
  tokenMetadata <- fetchProtocolTokenMetadata (fst protocolTokenBalance) ;;
  let completeTokenBalance :=
    {| tb_token := {| address := fst protocolTokenBalance;
                      name := name tokenMetadata;
                      symbol := symbol tokenMetadata;
                      decimals := decimals tokenMetadata |};
       tb_balanceRaw := snd protocolTokenBalance |} in
  underlyingTokenBalances <-
    getUnderlyingTokenBalances userAddress completeTokenBalance blockNumber ;;
  ret {| tokenId := None;
         pos_token := {| address := fst protocolTokenBalance;
                         name := name tokenMetadata;
                         symbol := symbol tokenMetadata;
                         decimals := decimals tokenMetadata |};
         balance := Some (snd protocolTokenBalance);
         pos_balanceRaw := snd protocolTokenBalance;
         pos_type := Protocol;
         tokens := underlyingTokenBalances |}.

Definition getPositions (userAddress : string) (blockNumber : option Z)
    : M (list ProtocolPosition) :=
  tokens <- getProtocolTokens ;;
  protocolTokensBalances <-
    promiseAll
      (map (fun market =>
              amount <- getBalance market userAddress blockNumber ;;
              ret (address market, amount))
           tokens) ;;
  promiseAll
    (map (positionTask userAddress blockNumber)
         (filter (fun protocolTokenBalance =>
                    negb (snd protocolTokenBalance =? 0))
                 protocolTokensBalances)).

Definition tvlTask (blockNumber : option Z) (tokenMetadata : Erc20Metadata)
    : M ProtocolTokenTvl :=
  totalValueRaw <-
    match positionType with
    | Supply =>
        ' (poolSupply, p2pSupply) <-
          call (getTotalMarketSupply provider lensAddress
                  (address tokenMetadata) blockNumber) ;;
        ret (poolSupply + p2pSupply)
    | _ =>
        ' (poolBorrow, p2pBorrow) <-
          call (getTotalMarketBorrow provider lensAddress
                  (address tokenMetadata) blockNumber) ;;
        ret (poolBorrow + p2pBorrow)
    end ;;
  ret {| tvl_token := tokenMetadata;
         tvl_type := Protocol;
         totalSupplyRaw := totalValueRaw |}.

Definition getTotalValueLocked (blockNumber : option Z)
    : M (list ProtocolTokenTvl) :=
  tokens <- getProtocolTokens ;;
  promiseAll (map (tvlTask blockNumber) tokens).

Definition unwrap (_input : UnwrapInput) : M UnwrapExchangeRate :=
  throw NotImplementedError.

Definition movementFilter (eventType : EventType)
    (userAddress protocolTokenAddress : string) : PoolEvent * TopicFilter :=
  match eventType with
  | supplied =>
      (Supplied, [None; Some userAddress; Some protocolTokenAddress])
  | withdrawn =>
      (Withdrawn, [None; Some userAddress; Some protocolTokenAddress])
  | repaid =>
      (Repaid, [None; Some userAddress; Some protocolTokenAddress])
  | borrowed =>
      (Borrowed, [Some userAddress; Some protocolTokenAddress])
  end.

(** One log to one movement, or [null] for a log without [args]. *)
Definition movementTask (event : PoolLog) : M (option MovementsByBlock) :=
  if negb (pl_decoded event) then ret None
  else
    protocolToken <- fetchProtocolTokenMetadata (_poolToken event) ;;
    underlyingTokens <- fetchUnderlyingTokensMetadata (_poolToken event) ;;
    let tokens :=
      map (fun underlyingToken =>
             {| token := underlyingToken;
                balanceRaw := _amount event;
                type := Underlying |})
          underlyingTokens in
    ret (Some {| protocolToken := protocolToken;
                 mv_tokens := tokens;
                 blockNumber := pl_blockNumber event;
                 transactionHash := pl_transactionHash event |}).

(** [movements.filter((movement) => movement !== null)]. *)
Fixpoint not_null {A} (l : list (option A)) : list A :=
  match l with
  | [] => []
  | Some a :: l' => a :: not_null l'
  | None :: l' => not_null l'
  end.

Definition getMovements (userAddress protocolTokenAddress : string)
    (fromBlock toBlock : Z) (eventType : EventType)
    : M (list MovementsByBlock) :=
  let (event, filter) :=
    movementFilter eventType userAddress protocolTokenAddress in
  eventResults <-
    call (pool_queryFilter provider LQGAaveV2ContractAddress
            event filter fromBlock toBlock) ;;
  movements <- promiseAll (map movementTask eventResults) ;;
  ret (not_null movements).

Definition getWithdrawals (userAddress protocolTokenAddress : string)
    (fromBlock toBlock : Z) : M (list MovementsByBlock) :=
  getMovements userAddress protocolTokenAddress fromBlock toBlock withdrawn.

Definition getDeposits (userAddress protocolTokenAddress : string)
    (fromBlock toBlock : Z) : M (list MovementsByBlock) :=
  getMovements userAddress protocolTokenAddress fromBlock toBlock supplied.

Definition getBorrows (userAddress protocolTokenAddress : string)
    (fromBlock toBlock : Z) : M (list MovementsByBlock) :=
  getMovements userAddress protocolTokenAddress fromBlock toBlock borrowed.

Definition getRepays (userAddress protocolTokenAddress : string)
    (fromBlock toBlock : Z) : M (list MovementsByBlock) :=
  getMovements userAddress protocolTokenAddress fromBlock toBlock repaid.

End Adapter.
End Aave.

(** A synchronous [array.map] whose callback may throw: the first throw in
    array order ends it. *)
Fixpoint traverse {A B} (f : A -> Outcome B) (l : list A) : Outcome (list B) :=
  match l with
  | [] => Ok []
  | a :: l' =>
      match f a with
      | Throw e => Throw e
      | Ok b =>
          match traverse f l' with
          | Throw e => Throw e
          | Ok bs => Ok (b :: bs)
          end
      end
  end.

(** ** The vault adapter *)
Module Vault.
Section Adapter.

Variable provider : Provider.
(** [this.buildMetadata()]: the method below under its [CacheToFile]
    decorator. *)
Variable this_buildMetadata : M Metadata.
Variable UnwrapExchangeRate : Type.
(** [this.helpers.unwrapOneToOne] of scripts/helpers. *)
Variable unwrapOneToOne :
  Erc20Metadata -> list Erc20Metadata -> Outcome UnwrapExchangeRate.

(** [metaLQGFactoryContractAddresses]: the same address on both chains. *)
Definition metaLQGFactoryContractAddress : string :=
  "0xA9c3D3a366466Fa809d1Ae982Fb2c46E5fC41101".

Definition vaultTask (v : string * string) : M (string * PoolMetadata) :=
  let (vault, underlyingAsset) := v in
  ' (vaultData, underlyingTokenData) <-
    promiseAll2 (call (getTokenMetadata provider vault))
                (call (getTokenMetadata provider underlyingAsset)) ;;
  ret (vault,
       {| pm_protocolToken := vaultData;
          underlyingToken := underlyingTokenData |}).

(** The body of [buildMetadata]. *)
Definition buildMetadata (schedule : list nat) : M Metadata :=
  events <-
    enumerate (createMetaLQGLogs provider metaLQGFactoryContractAddress) ;;
  let metaLQGVaults := map (fun event => (args0 event, args4 event)) events in
  entries <- promiseAll (map vaultTask (complete schedule metaLQGVaults)) ;;
  ret (assign_all entries).

Definition getProtocolTokens : M (list Erc20Metadata) :=
  metadata <- this_buildMetadata ;;
  ret (map pm_protocolToken (Object_values metadata)).

Definition fetchPoolMetadata (protocolTokenAddress : string)
    : M PoolMetadata :=
  metadata <- this_buildMetadata ;;
  match obj_get metadata protocolTokenAddress with
  | None => throw pool_not_found
  | Some poolMetadata => ret poolMetadata
  end.

Definition getProtocolToken (protocolTokenAddress : string)
    : M Erc20Metadata :=
  poolMetadata <- fetchPoolMetadata protocolTokenAddress ;;
  ret (pm_protocolToken poolMetadata).

Definition getUnderlyingToken (protocolTokenAddress : string)
    : M Erc20Metadata :=
  poolMetadata <- fetchPoolMetadata protocolTokenAddress ;;
  ret (underlyingToken poolMetadata).

(** [balanceRaw / 10n ** (vaultDecimal - assetDecimals)]. *)
Definition shareBalance (balanceRaw vaultDecimal assetDecimals : Z)
    : Outcome Z :=
  match bigint_pow 10 (vaultDecimal - assetDecimals) with
  | Ok scale => bigint_div balanceRaw scale
  | Throw e => Throw e
  end.

(** [filteredTokens] of [getPositions]. *)
Definition filterTokens (protocolTokenAddresses : option (list string))
    (protocolTokens : list Erc20Metadata) : list Erc20Metadata :=
  match protocolTokenAddresses with
  | Some addresses =>
      filter (fun token =>
                existsb (String.eqb (toLowerCase (address token)))
                        (map toLowerCase addresses))
             protocolTokens
  | None => protocolTokens
  end.

(** One vault of [getPositions]: the positions it pushes. *)
Definition positionTask (userAddress : string) (blockNumber : option Z)
    (protocolToken : Erc20Metadata) : M (list ProtocolPosition) :=
  underlyingToken <- getUnderlyingToken (address protocolToken) ;;
  ' (balanceRaw, (vaultDecimal, assetDecimals)) <-
    promiseAll2
      (call (balanceOf provider (address protocolToken) userAddress
               blockNumber))
      (promiseAll2
         (call (erc20_decimals provider (address protocolToken)))
         (call (erc20_decimals provider (address underlyingToken)))) ;;
  if 0 <? balanceRaw then
    underlyingToken <- getUnderlyingToken (address protocolToken) ;;
    underlyingBalanceRaw <-
      call (shareBalance balanceRaw vaultDecimal assetDecimals) ;;
    ret [ {| tokenId := Some (address protocolToken);
             pos_token := protocolToken;
             balance := None;
             pos_balanceRaw := balanceRaw;
             pos_type := Protocol;
             tokens := [ {| token := underlyingToken;
                            balanceRaw := underlyingBalanceRaw;
                            type := Underlying |} ] |} ]
  else ret [].

(** [schedule] is the order in which the per-vault tasks reach
    [positions.push]. *)
Definition getPositions (userAddress : string) (blockNumber : option Z)
    (protocolTokenAddresses : option (list string)) (schedule : list nat)
    : M (list ProtocolPosition) :=
  protocolTokens <- getProtocolTokens ;;
  let filteredTokens := filterTokens protocolTokenAddresses protocolTokens in
  pushed <-
    promiseAll (map (positionTask userAddress blockNumber)
                    (complete schedule filteredTokens)) ;;
  ret (List.concat pushed).

Definition movementFilter (eventType : VaultEvent) (userAddress : string)
    : TopicFilter :=
  match eventType with
  | Deposit => [None; Some userAddress]
  | Withdraw => [None; None; Some userAddress]
  end.

Definition movementTask (protocolToken underlyingToken : Erc20Metadata)
    (event : VaultLog) : M (MovementsByBlockOf JsNumber) :=
  if vl_decoded event then
    let balanceRaw := assets event in
    ret {| protocolToken := protocolToken;
           mv_tokens := [ {| token := underlyingToken;
                             balanceRaw := Number balanceRaw;
                             type := Underlying |} ];
           blockNumber := vl_blockNumber event;
           transactionHash := vl_transactionHash event |}
  else
    throw (TypeError "Cannot read properties of undefined (reading 'assets')").

(** The closing [movements.map]: every token balance back to a bigint. *)
Definition toBigIntBalances (movement : MovementsByBlockOf JsNumber)
    : Outcome MovementsByBlock :=
  match traverse (fun t =>
                    match BigInt (balanceRaw t) with
                    | Ok b => Ok {| token := token t;
                                    balanceRaw := b;
                                    type := type t |}
                    | Throw e => Throw e
                    end)
                 (mv_tokens movement) with
  | Ok ts => Ok {| protocolToken := protocolToken movement;
                   mv_tokens := ts;
                   blockNumber := blockNumber movement;
                   transactionHash := transactionHash movement |}
  | Throw e => Throw e
  end.

Definition getMovements (userAddress : string) (fromBlock toBlock : Z)
    (eventType : VaultEvent) (metaLQGVault : string)
    : M (list MovementsByBlock) :=
  ' (protocolToken, underlyingToken) <-
    promiseAll2 (getProtocolToken metaLQGVault)
                (getUnderlyingToken metaLQGVault) ;;
  let filter := movementFilter eventType userAddress in
  eventResults <-
    call (vault_queryFilter provider metaLQGVault eventType filter
            fromBlock toBlock) ;;
  movements <-
    promiseAll (map (movementTask protocolToken underlyingToken)
                    eventResults) ;;
  call (traverse toBigIntBalances movements).

Definition getWithdrawals (userAddress : string) (fromBlock toBlock : Z)
    (protocolTokenAddress : string) : M (list MovementsByBlock) :=
  results <-
    promiseAll [getMovements userAddress fromBlock toBlock Withdraw
                  protocolTokenAddress] ;;
  ret (List.concat results).

Definition getDeposits (userAddress : string) (fromBlock toBlock : Z)
    (protocolTokenAddress : string) : M (list MovementsByBlock) :=
  results <-
    promiseAll [getMovements userAddress fromBlock toBlock Deposit
                  protocolTokenAddress] ;;
  ret (List.concat results).

Definition unwrap (input : UnwrapInput) : M UnwrapExchangeRate :=
  protocolToken <- getProtocolToken (protocolTokenAddress input) ;;
  underlyingToken <- getUnderlyingToken (protocolTokenAddress input) ;;
  call (unwrapOneToOne protocolToken [underlyingToken]).

End Adapter.
End Vault.

(** ** Notions used in the statements *)






(** A method call that resolved with a value, from some state of the
    instance. *)
Definition resolved {A} (t : M A) (a : A) : Prop :=
  exists s1 s2, t s1 = (Ok a, s2).

(** The lens totals a TVL figure is made of, by position type. *)
Definition marketTotals (p : Provider) (positionType : PositionType)
    (lens market : string) (blockNumber : option Z) : Outcome (Z * Z) :=
  match positionType with
  | Supply => getTotalMarketSupply p lens market blockNumber
  | Borrow => getTotalMarketBorrow p lens market blockNumber
  end.

(** ** A sample chain

    Two markets on either optimizer, the second without an underlying asset
    (its [underlying()] call reverts), and one vault whose shares have 18
    decimals over an asset with 6. *)
Module Sample.

Definition marketA : string := "0x00000000000000000000000000000000000000a1".
Definition marketB : string := "0x00000000000000000000000000000000000000b2".
Definition assetA : string := "0x00000000000000000000000000000000000000c3".
Definition user : string := "0x00000000000000000000000000000000000000e5".
Definition stranger : string := "0x00000000000000000000000000000000000000ff".

(** [marketA] in another spelling of its hex digits. *)
Definition marketA_upper : string :=
  "0x00000000000000000000000000000000000000A1".

Definition metadataOf (a : string) : Erc20Metadata :=
  {| address := a;
     name := "Token";
     symbol := "TKN";
     decimals := if String.eqb a assetA then 6 else 18 |}.

Definition supplied1 : PoolLog :=
  {| pl_args := SuppliedArgs user user marketA (2 ^ 53 + 1);
     pl_decoded := true;
     pl_blockNumber := 10;
     pl_transactionHash := "0x01" |}.

Definition deposit1 : VaultLog :=
  {| vl_args := DepositArgs user user (2 ^ 53 + 1) (2 ^ 65);
     vl_decoded := true;
     vl_blockNumber := 10;
     vl_transactionHash := "0x02" |}.

(** The metadata of the vault adapter on this chain, as a cache would serve
    it. *)
Definition vaultMetadata : Metadata :=
  [ (marketA, {| pm_protocolToken := metadataOf marketA;
                 underlyingToken := metadataOf assetA |}) ].

Definition provider : Provider :=
  {| getTokenMetadata := fun a => Ok (metadataOf a);
     getAllMarkets := fun _ => Ok [marketA; marketB];
     underlying := fun a =>
       if String.eqb a marketA then Ok assetA
       else Throw (ProviderError "execution reverted");
     exchangeRateStored := fun _ _ => Ok (2 * 10 ^ 17);
     getMarketsCreated := fun _ => Ok [marketA; marketB];
     UNDERLYING_ASSET_ADDRESS := fun a =>
       if String.eqb a marketA then Ok assetA
       else Throw (ProviderError "execution reverted");
     getCurrentSupplyBalanceInOf := fun _ market _ _ =>
       if String.eqb market marketA then Ok (2, 3, 5) else Ok (0, 0, 0);
     getCurrentBorrowBalanceInOf := fun _ market _ _ =>
       if String.eqb market marketA then Ok (1, 3, 4) else Ok (0, 0, 0);
     getTotalMarketSupply := fun _ _ _ => Ok (30, 70);
     getTotalMarketBorrow := fun _ _ _ => Ok (10, 40);
     poolLogs := fun _ => Ok [supplied1];
     createMetaLQGLogs := fun _ =>
       Ok [ {| args0 := marketA; args4 := assetA |} ];
     balanceOf := fun _ _ _ => Ok (5 * 10 ^ 18);
     erc20_decimals := fun a => Ok (decimals (metadataOf a));
     vaultLogs := fun _ => Ok [deposit1] |}.

(** The same chain, the vault's shares having fewer decimals than its
    asset. *)
Definition provider_few_decimals : Provider :=
  {| getTokenMetadata := getTokenMetadata provider;
     getAllMarkets := getAllMarkets provider;
     underlying := underlying provider;
     exchangeRateStored := exchangeRateStored provider;
     getMarketsCreated := getMarketsCreated provider;
     UNDERLYING_ASSET_ADDRESS := UNDERLYING_ASSET_ADDRESS provider;
     getCurrentSupplyBalanceInOf := getCurrentSupplyBalanceInOf provider;
     getCurrentBorrowBalanceInOf := getCurrentBorrowBalanceInOf provider;
     getTotalMarketSupply := getTotalMarketSupply provider;
     getTotalMarketBorrow := getTotalMarketBorrow provider;
     poolLogs := poolLogs provider;
     createMetaLQGLogs := createMetaLQGLogs provider;
     balanceOf := balanceOf provider;
     erc20_decimals := fun a => if String.eqb a assetA then Ok 18 else Ok 6;
     vaultLogs := vaultLogs provider |}.

(** That chain seen by a user without shares. *)
Definition provider_no_shares : Provider :=
  {| getTokenMetadata := getTokenMetadata provider;
     getAllMarkets := getAllMarkets provider;
     underlying := underlying provider;
     exchangeRateStored := exchangeRateStored provider;
     getMarketsCreated := getMarketsCreated provider;
     UNDERLYING_ASSET_ADDRESS := UNDERLYING_ASSET_ADDRESS provider;
     getCurrentSupplyBalanceInOf := getCurrentSupplyBalanceInOf provider;
     getCurrentBorrowBalanceInOf := getCurrentBorrowBalanceInOf provider;
     getTotalMarketSupply := getTotalMarketSupply provider;
     getTotalMarketBorrow := getTotalMarketBorrow provider;
     poolLogs := poolLogs provider;
     createMetaLQGLogs := createMetaLQGLogs provider;
     balanceOf := fun _ _ _ => Ok 0;
     erc20_decimals := fun a => if String.eqb a assetA then Ok 18 else Ok 6;
     vaultLogs := vaultLogs provider |}.

(** [mulDivHalfUp(x, WAD, y)], the rounding [wadDiv] of evm-maths performs
    (zero for a zero [x], a [RangeError] for a zero divisor otherwise); used
    on the sample chain only. *)
Definition wadDiv (x y : Z) : Outcome Z :=
  if x =? 0 then Ok 0
  else bigint_div (x * 10 ^ 18 + Z.quot y 2) y.

(** A one-to-one rate, used on the sample chain only: the protocol token
    and, per underlying token, its rate. *)
Definition UnwrapExchangeRate : Type :=
  (Erc20Metadata * list (Erc20Metadata * Z))%type.

Definition unwrapOneToOne (protocolToken : Erc20Metadata)
    (underlyingTokens : list Erc20Metadata) : Outcome UnwrapExchangeRate :=
  match underlyingTokens with
  | [underlyingToken] =>
      Ok (protocolToken, [(underlyingToken, 10 ^ decimals protocolToken)])
  | _ => Throw (Error "Cannot map underlying token")
  end.

End Sample.

(** ** The vault adapter's total value locked

    [getTotalValueLocked] of [LQGBlueVaultAdapter].  [totalAssets] is the
    [MetaLQG] contract's method (keyed by the vault address);
    [filterMapAsync] is core/utils/filters, which receives the protocol
    tokens and the callback below. *)
Module VaultTvl.
Section Adapter.

Variable this_buildMetadata : M Metadata.
Variable totalAssets : string -> option Z -> Outcome Z.
Variable filterMapAsync :
  list Erc20Metadata -> (Erc20Metadata -> M (option ProtocolTokenTvl)) ->
  M (list ProtocolTokenTvl).

(** [protocolTokenAddresses && !protocolTokenAddresses.includes(address)]:
    an array, even an empty one, is truthy; [includes] compares strings. *)
Definition excluded (protocolTokenAddresses : option (list string))
    (protocolToken : Erc20Metadata) : bool :=
  match protocolTokenAddresses with
  | Some addresses =>
      negb (existsb (String.eqb (address protocolToken)) addresses)
  | None => false
  end.

(** The callback: [None] is [undefined]. *)
Definition tvlTask (protocolTokenAddresses : option (list string))
    (blockNumber : option Z) (protocolToken : Erc20Metadata)
    : M (option ProtocolTokenTvl) :=
  if excluded protocolTokenAddresses protocolToken then ret None
  else
    underlyingToken <-
      Vault.getUnderlyingToken this_buildMetadata (address protocolToken) ;;
    protocolTokenTotalAsset <-
      call (totalAssets (address protocolToken) blockNumber) ;;
    ret (Some {| tvl_token := {| address := address protocolToken;
                                 name := name protocolToken;
                                 symbol := symbol underlyingToken;
                                 decimals := decimals underlyingToken |};
                 tvl_type := Protocol;
                 totalSupplyRaw := protocolTokenTotalAsset |}).

Definition getTotalValueLocked (protocolTokenAddresses : option (list string))
    (blockNumber : option Z) : M (list ProtocolTokenTvl) :=
  protocolTokens <- Vault.getProtocolTokens this_buildMetadata ;;
  filterMapAsync protocolTokens (tvlTask protocolTokenAddresses blockNumber).

End Adapter.
End VaultTvl.

(** ** Further notions used in the statements *)

(** A method call that leaves the instance in the state it found. *)
Definition keeps {A} (s : AdapterState) (m : M A) : Prop := snd (m s) = s.

(** The lens balance a position is made of, by position type. *)
Definition userBalance (p : Provider) (positionType : PositionType)
    (lens market userAddress : string) (blockNumber : option Z)
    : Outcome (Z * Z * Z) :=
  match positionType with
  | Supply => getCurrentSupplyBalanceInOf p lens market userAddress blockNumber
  | Borrow => getCurrentBorrowBalanceInOf p lens market userAddress blockNumber
  end.

(** The address whose metadata a market's task fetches as the underlying
    token: the answer of the underlying-asset call, or the zero address. *)
Definition address_or_zero (o : Outcome string) : string :=
  match o with
  | Ok a => a
  | Throw _ => ZERO_ADDRESS
  end.

(** The indexed addresses of a pool log before its pool token. *)
Definition first_party (l : PoolLog) : string :=
  match pl_args l with
  | SuppliedArgs a _ _ _ | WithdrawnArgs a _ _ _ | RepaidArgs a _ _ _
  | BorrowedArgs a _ _ => a
  end.

Definition second_party (l : PoolLog) : option string :=
  match pl_args l with
  | SuppliedArgs _ b _ _ | WithdrawnArgs _ b _ _ | RepaidArgs _ b _ _ => Some b
  | BorrowedArgs _ _ _ => None
  end.

(** The indexed address at which a movement query of the Compound base
    puts the user in its filter, by event type; and that of the Aave base. *)
Definition compound_user (eventType : EventType) (l : PoolLog)
    : option string :=
  match eventType with
  | withdrawn | borrowed => Some (first_party l)
  | supplied | repaid => second_party l
  end.

Definition aave_user (eventType : EventType) (l : PoolLog) : option string :=
  match eventType with
  | borrowed => Some (first_party l)
  | supplied | withdrawn | repaid => second_party l
  end.

(** The [owner] of a vault log. *)
Definition vault_owner (l : VaultLog) : string :=
  match vl_args l with
  | DepositArgs _ owner _ _ | WithdrawArgs _ _ owner _ _ => owner
  end.

(** The contract event a movement query asks for. *)
Definition queried_event (eventType : EventType) : PoolEvent :=
  match eventType with
  | supplied => Supplied
  | withdrawn => Withdrawn
  | repaid => Repaid
  | borrowed => Borrowed
  end.

(** Further sample chains. *)
Module Sample2.

(** The sample chain with other answers of [getTokenMetadata], of the two
    balance methods of the lens, of the logs of the optimizer contract, of
    the factory's logs and of the logs of a vault. *)
Definition variant
    (metadata : string -> Outcome Erc20Metadata)
    (supplyBalance borrowBalance :
       string -> string -> string -> option Z -> Outcome (Z * Z * Z))
    (logs : list PoolLog) (created : list CreateMetaLQGLog)
    (deposits : list VaultLog) : Provider :=
  {| getTokenMetadata := metadata;
     getAllMarkets := getAllMarkets Sample.provider;
     underlying := underlying Sample.provider;
     exchangeRateStored := exchangeRateStored Sample.provider;
     getMarketsCreated := getMarketsCreated Sample.provider;
     UNDERLYING_ASSET_ADDRESS := UNDERLYING_ASSET_ADDRESS Sample.provider;
     getCurrentSupplyBalanceInOf := supplyBalance;
     getCurrentBorrowBalanceInOf := borrowBalance;
     getTotalMarketSupply := getTotalMarketSupply Sample.provider;
     getTotalMarketBorrow := getTotalMarketBorrow Sample.provider;
     poolLogs := fun _ => Ok logs;
     createMetaLQGLogs := fun _ => Ok created;
     balanceOf := balanceOf Sample.provider;
     erc20_decimals := erc20_decimals Sample.provider;
     vaultLogs := fun _ => Ok deposits |}.

(** The lens does not answer for [marketB]. *)
Definition provider_lens_down : Provider :=
  variant (getTokenMetadata Sample.provider)
    (fun lens market user blockNumber =>
       if String.eqb market Sample.marketB
       then Throw (ProviderError "timeout")
       else getCurrentSupplyBalanceInOf Sample.provider lens market user
              blockNumber)
    (getCurrentBorrowBalanceInOf Sample.provider)
    [Sample.supplied1]
    [ {| args0 := Sample.marketA; args4 := Sample.assetA |} ]
    [Sample.deposit1].

(** [getTokenMetadata] answers with the lower-case spelling of the address;
    the factory's log spells the vault otherwise. *)
Definition provider_respelled : Provider :=
  variant (fun a => Ok (Sample.metadataOf (toLowerCase a)))
    (getCurrentSupplyBalanceInOf Sample.provider)
    (getCurrentBorrowBalanceInOf Sample.provider)
    [Sample.supplied1]
    [ {| args0 := Sample.marketA_upper; args4 := Sample.assetA |} ]
    [Sample.deposit1].

Definition respelledMetadata : Metadata :=
  [ (Sample.marketA_upper,
     {| pm_protocolToken := Sample.metadataOf Sample.marketA;
        underlyingToken := Sample.metadataOf Sample.assetA |}) ].

(** That mapping with a second vault, stored under the address its token
    metadata carries. *)
Definition twoVaultsMetadata : Metadata :=
  respelledMetadata ++
  [ (Sample.marketB,
     {| pm_protocolToken := Sample.metadataOf Sample.marketB;
        underlyingToken := Sample.metadataOf Sample.assetA |}) ].

(** A log that came back without its arguments, after one that came with
    them. *)
Definition supplied_undecoded : PoolLog :=
  {| pl_args := SuppliedArgs Sample.user Sample.user Sample.marketA 7;
     pl_decoded := false;
     pl_blockNumber := 11;
     pl_transactionHash := "0x03" |}.

Definition provider_undecoded : Provider :=
  variant (getTokenMetadata Sample.provider)
    (getCurrentSupplyBalanceInOf Sample.provider)
    (getCurrentBorrowBalanceInOf Sample.provider)
    [Sample.supplied1; supplied_undecoded]
    [ {| args0 := Sample.marketA; args4 := Sample.assetA |} ]
    [Sample.deposit1].

(** A log of a pool token that is not a market of the registry. *)
Definition supplied_unlisted : PoolLog :=
  {| pl_args := SuppliedArgs Sample.user Sample.user Sample.stranger 5;
     pl_decoded := true;
     pl_blockNumber := 13;
     pl_transactionHash := "0x05" |}.

Definition provider_unlisted_log : Provider :=
  variant (getTokenMetadata Sample.provider)
    (getCurrentSupplyBalanceInOf Sample.provider)
    (getCurrentBorrowBalanceInOf Sample.provider)
    [Sample.supplied1; supplied_unlisted]
    [ {| args0 := Sample.marketA; args4 := Sample.assetA |} ]
    [Sample.deposit1].

(** The metadata of either optimizer base on the sample chain, as a cache
    serves it. *)
Definition poolMetadata : Metadata :=
  [ (Sample.marketA,
     {| pm_protocolToken := Sample.metadataOf Sample.marketA;
        underlyingToken := Sample.metadataOf Sample.assetA |});
    (Sample.marketB,
     {| pm_protocolToken := Sample.metadataOf Sample.marketB;
        underlyingToken := Sample.metadataOf ZERO_ADDRESS |}) ].

(** A deposit of a small amount, and a withdrawal by another owner. *)
Definition deposit_small : VaultLog :=
  {| vl_args := DepositArgs Sample.stranger Sample.user 1000000 (10 ^ 18);
     vl_decoded := true;
     vl_blockNumber := 12;
     vl_transactionHash := "0x04" |}.

Definition provider_small_deposit : Provider :=
  variant (getTokenMetadata Sample.provider)
    (getCurrentSupplyBalanceInOf Sample.provider)
    (getCurrentBorrowBalanceInOf Sample.provider)
    [Sample.supplied1]
    [ {| args0 := Sample.marketA; args4 := Sample.assetA |} ]
    [deposit_small].

Definition totalAssets (vault : string) (blockNumber : option Z) : Outcome Z :=
  Ok (7 * 10 ^ 6).

End Sample2.

(** * Properties *)

(** ** Outcomes of the sample chain *)

Example sample_compound_metadata :
  fst (Compound.buildMetadata Sample.provider [] fresh)
  = Ok [ (Sample.marketA,
          {| pm_protocolToken := Sample.metadataOf Sample.marketA;
             underlyingToken := Sample.metadataOf Sample.assetA |});
         (Sample.marketB,
          {| pm_protocolToken := Sample.metadataOf Sample.marketB;
             underlyingToken := Sample.metadataOf ZERO_ADDRESS |}) ].
Proof. reflexivity. Qed.

Example sample_compound_positions :
  fst (Compound.getPositions Sample.provider Supply
         (Compound.buildMetadata Sample.provider [])
         Sample.user (Some 100) fresh)
  = Ok [ {| tokenId := None;
            pos_token := Sample.metadataOf Sample.marketA;
            balance := Some 5;
            pos_balanceRaw := 5;
            pos_type := Protocol;
            tokens := [ {| token := Sample.metadataOf Sample.assetA;
                           balanceRaw := 5;
                           type := Underlying |} ] |} ].
Proof. reflexivity. Qed.

Example sample_number_rounds :
  Number (2 ^ 53 + 1) = NumInt (2 ^ 53) /\
  Number (2 ^ 53 + 3) = NumInt (2 ^ 53 + 4) /\
  Number (- (2 ^ 53 + 1)) = NumInt (- 2 ^ 53) /\
  Number (2 ^ 53 - 1) = NumInt (2 ^ 53 - 1) /\
  Number (2 ^ 1024) = NumInf false /\
  Number (2 ^ 1024 - 2 ^ 970) = NumInf false /\
  Number (2 ^ 1024 - 2 ^ 970 - 1) = NumInt (2 ^ 1024 - 2 ^ 971).
Proof. repeat split; vm_compute; reflexivity. Qed.

(** ** The method monad *)

Lemma bind_Ok A B (m : M A) (k : A -> M B) s b s' :
  bind m k s = (Ok b, s') ->
  exists a s1, m s = (Ok a, s1) /\ k a s1 = (Ok b, s').
Proof.
  unfold bind. destruct (m s) as [[a | e] s1]; intros H.
  - exists a, s1. split; [reflexivity | exact H].
  - discriminate H.
Qed.

Lemma bind_Throw A B (m : M A) (k : A -> M B) s e s' :
  m s = (Throw e, s') -> bind m k s = (Throw e, s').
Proof. unfold bind. intros ->. reflexivity. Qed.

Lemma bind_step A B (m : M A) (k : A -> M B) s a s1 :
  m s = (Ok a, s1) -> bind m k s = k a s1.
Proof. unfold bind. intros ->. reflexivity. Qed.

Lemma call_Ok A (o : Outcome A) s a s' :
  call o s = (Ok a, s') -> o = Ok a /\ s' = s.
Proof. unfold call. intros H. inversion H. split; reflexivity. Qed.

Lemma ret_Ok A (a b : A) s s' :
  ret a s = (Ok b, s') -> b = a /\ s' = s.
Proof. unfold ret. intros H. inversion H. split; reflexivity. Qed.

Lemma promiseAll2_Ok A B (a : M A) (b : M B) s r s' :
  promiseAll2 a b s = (Ok r, s') ->
  exists s1, a s = (Ok (fst r), s1) /\ b s1 = (Ok (snd r), s').
Proof.
  unfold promiseAll2.
  destruct (a s) as [[x | e] s1] eqn:Ea;
    destruct (b s1) as [[y | e'] s2] eqn:Eb;
    intros H; inversion H; subst.
  exists s1. split; [reflexivity | exact Eb].
Qed.

Lemma promiseAll_Ok A (tasks : list (M A)) :
  forall s l s', promiseAll tasks s = (Ok l, s') -> Forall2 resolved tasks l.
Proof.
  induction tasks as [| t ts IH]; simpl; intros s l s' H.
  - inversion H. constructor.
  - destruct (t s) as [r s1] eqn:Et.
    destruct (promiseAll ts s1) as [rs s2] eqn:Ets.
    destruct r as [a | e]; destruct rs as [l' | e']; inversion H; subst.
    constructor.
    + exists s, s1. exact Et.
    + eapply IH. exact Ets.
Qed.

Lemma promiseAll_map_Ok A B (f : A -> M B) (xs : list A) s l s' :
  promiseAll (map f xs) s = (Ok l, s') ->
  Forall2 (fun x b => resolved (f x) b) xs l.
Proof.
  intros H. apply promiseAll_Ok in H.
  remember (map f xs) as ts eqn:E. revert xs E.
  induction H as [| t b ts l Hr _ IH]; intros xs E.
  - destruct xs; [constructor | discriminate E].
  - destruct xs as [| x xs]; [discriminate E |].
    simpl in E. inversion E; subst. constructor; [exact Hr | apply IH; reflexivity].
Qed.

(** A task that rejects from every state makes [Promise.all] reject. *)
Lemma promiseAll_map_resolves X A (f : X -> M A) (R : X -> A -> Prop)
    (xs : list X) s :
  (forall x, In x xs -> exists a, f x s = (Ok a, s) /\ R x a) ->
  exists l, promiseAll (map f xs) s = (Ok l, s) /\ Forall2 R xs l.
Proof.
  induction xs as [| x xs IH]; intros H; simpl.
  - exists []. split; [reflexivity | constructor].
  - destruct (H x (or_introl eq_refl)) as (a & Ha & Hr).
    destruct IH as (l & Hl & Hrel);
      [intros x' Hin; apply H; right; exact Hin |].
    exists (a :: l). rewrite Ha, Hl. split; [reflexivity |].
    constructor; assumption.
Qed.

Lemma promiseAll_rejects A (tasks : list (M A)) (t : M A) :
  In t tasks ->
  (forall s, exists e s', t s = (Throw e, s')) ->
  forall s, exists e s', promiseAll tasks s = (Throw e, s').
Proof.
  intros Hin Ht. induction tasks as [| t0 ts IH]; [contradiction |].
  intros s. simpl.
  destruct Hin as [-> | Hin].
  - destruct (Ht s) as (e & s1 & ->).
    destruct (promiseAll ts s1) as [rs s2]. exists e, s2. reflexivity.
  - destruct (t0 s) as [r s1].
    destruct (IH Hin s1) as (e & s2 & ->).
    destruct r as [a | e0]; eexists; eexists; reflexivity.
Qed.

Lemma traverse_Ok A B (f : A -> Outcome B) (l : list A) :
  forall bs, traverse f l = Ok bs -> Forall2 (fun a b => f a = Ok b) l bs.
Proof.
  induction l as [| a l IH]; simpl; intros bs H.
  - inversion H. constructor.
  - destruct (f a) as [b | e] eqn:Ef; [| discriminate H].
    destruct (traverse f l) as [bs' | e]; [| discriminate H].
    inversion H; subst. constructor; [exact Ef | apply IH; reflexivity].
Qed.

(** Taking one [await] off a method call that resolved. *)
Tactic Notation "await" hyp(H) :=
  let a := fresh "v" in
  let s1 := fresh "s" in
  let H1 := fresh "Hawait" in
  apply bind_Ok in H; destruct H as (a & s1 & H1 & H).

Tactic Notation "await" hyp(H) "as" ident(a) ident(s1) ident(H1) :=
  apply bind_Ok in H; destruct H as (a & s1 & H1 & H).

Ltac returned H :=
  apply ret_Ok in H; destruct H as [? ?]; subst.

(** ** Objects *)

Lemma obj_set_keys V (o : JsObject V) k v :
  Object_keys (obj_set o k v)
  = if existsb (String.eqb k) (Object_keys o) then Object_keys o
    else Object_keys o ++ [k].
Proof.
  unfold Object_keys.
  induction o as [| [k' v'] o IH]; simpl; [reflexivity |].
  rewrite (String.eqb_sym k k').
  destruct (String.eqb k' k) eqn:E; simpl; [reflexivity |].
  rewrite IH.
  destruct (existsb (String.eqb k) (map fst o)); reflexivity.
Qed.



(** ** Lists *)

Lemma Forall2_transfer A B (P : A -> Prop) (R : A -> B -> Prop)
    (Q : B -> Prop) (xs : list A) (ys : list B) :
  (forall x y, P x -> R x y -> Q y) ->
  Forall P xs -> Forall2 R xs ys -> Forall Q ys.
Proof.
  intros HPQ HP HR. induction HR as [| x y xs ys Hxy _ IH].
  - constructor.
  - inversion HP; subst. constructor; [eapply HPQ; eassumption | apply IH; assumption].
Qed.

Lemma Forall_filter_true A (f : A -> bool) (l : list A) :
  Forall (fun x => f x = true) (filter f l).
Proof.
  apply Forall_forall. intros x Hx. apply filter_In in Hx. apply Hx.
Qed.

Lemma Forall_all A (P : A -> Prop) (l : list A) :
  (forall x, P x) -> Forall P l.
Proof. intros H. apply Forall_forall. intros x _. apply H. Qed.

(** ** Positions *)

Section Positions.

Variable provider : Provider.
Variable positionType : PositionType.
Variable this_buildMetadata : M Metadata.

(** A pool position carries the balance read from the lens, and its one
    underlying entry carries the same balance. *)
Lemma compound_positionTask_Ok userAddress blockNumber ptb s1 p s2 :
  Compound.positionTask this_buildMetadata userAddress blockNumber ptb s1
  = (Ok p, s2) ->
  pos_balanceRaw p = snd ptb /\
  exists u, tokens p = [u] /\ balanceRaw u = pos_balanceRaw p.
Proof.
  unfold Compound.positionTask. intros H.
  await H. cbv zeta in H. await H. returned H. simpl.
  split; [reflexivity |].
  unfold Compound.getUnderlyingTokenBalances in Hawait0.
  await Hawait0. returned Hawait0. simpl.
  eexists. split; reflexivity.
Qed.

Lemma aave_positionTask_Ok userAddress blockNumber ptb s1 p s2 :
  Aave.positionTask this_buildMetadata userAddress blockNumber ptb s1
  = (Ok p, s2) ->
  pos_balanceRaw p = snd ptb /\
  exists u, tokens p = [u] /\ balanceRaw u = pos_balanceRaw p.
Proof.
  unfold Aave.positionTask. intros H.
  await H. cbv zeta in H. await H. returned H. simpl.
  split; [reflexivity |].
  unfold Aave.getUnderlyingTokenBalances in Hawait0.
  await Hawait0. returned Hawait0. simpl.
  eexists. split; reflexivity.
Qed.

(** The positions of a pool adapter are those of the balances that are not
    [0n]. *)
Lemma compound_getPositions_Ok userAddress blockNumber s l s' :
  Compound.getPositions provider positionType this_buildMetadata
    userAddress blockNumber s = (Ok l, s') ->
  Forall (fun p => pos_balanceRaw p <> 0 /\
                   exists u, tokens p = [u] /\ balanceRaw u = pos_balanceRaw p)
         l.
Proof.
  unfold Compound.getPositions. intros H.
  await H. await H. apply promiseAll_map_Ok in H.
  eapply Forall2_transfer; [| apply Forall_filter_true | exact H].
  intros ptb p Hnz (t1 & t2 & Hp). simpl in Hnz.
  apply compound_positionTask_Ok in Hp. destruct Hp as [Hb Hu].
  split; [| exact Hu].
  rewrite Hb. intros C. rewrite C in Hnz. discriminate Hnz.
Qed.

Lemma aave_getPositions_Ok userAddress blockNumber s l s' :
  Aave.getPositions provider positionType this_buildMetadata
    userAddress blockNumber s = (Ok l, s') ->
  Forall (fun p => pos_balanceRaw p <> 0 /\
                   exists u, tokens p = [u] /\ balanceRaw u = pos_balanceRaw p)
         l.
Proof.
  unfold Aave.getPositions. intros H.
  await H. await H. apply promiseAll_map_Ok in H.
  eapply Forall2_transfer; [| apply Forall_filter_true | exact H].
  intros ptb p Hnz (t1 & t2 & Hp). simpl in Hnz.
  apply aave_positionTask_Ok in Hp. destruct Hp as [Hb Hu].
  split; [| exact Hu].
  rewrite Hb. intros C. rewrite C in Hnz. discriminate Hnz.
Qed.

End Positions.

(** ** The share division of the vault adapter *)

Lemma shareBalance_negative balanceRaw vaultDecimal assetDecimals :
  vaultDecimal < assetDecimals ->
  Vault.shareBalance balanceRaw vaultDecimal assetDecimals
  = Throw (RangeError "Exponent must be non-negative").
Proof.
  intros H. unfold Vault.shareBalance, bigint_pow.
  destruct (Z.ltb_spec (vaultDecimal - assetDecimals) 0); [reflexivity | lia].
Qed.

Lemma shareBalance_total balanceRaw vaultDecimal assetDecimals :
  assetDecimals <= vaultDecimal ->
  Vault.shareBalance balanceRaw vaultDecimal assetDecimals
  = Ok (Z.quot balanceRaw (10 ^ (vaultDecimal - assetDecimals))).
Proof.
  intros H. unfold Vault.shareBalance, bigint_pow, bigint_div.
  destruct (Z.ltb_spec (vaultDecimal - assetDecimals) 0); [lia |].
  assert (0 < 10 ^ (vaultDecimal - assetDecimals)) as Hpos
    by (apply Z.pow_pos_nonneg; lia).
  destruct (Z.eqb_spec (10 ^ (vaultDecimal - assetDecimals)) 0); [lia |].
  reflexivity.
Qed.

Lemma shareBalance_Ok balanceRaw vaultDecimal assetDecimals q :
  Vault.shareBalance balanceRaw vaultDecimal assetDecimals = Ok q ->
  assetDecimals <= vaultDecimal /\
  q = Z.quot balanceRaw (10 ^ (vaultDecimal - assetDecimals)).
Proof.
  intros H.
  destruct (Z.lt_ge_cases vaultDecimal assetDecimals) as [Hlt | Hge].
  - rewrite (shareBalance_negative _ Hlt) in H. discriminate H.
  - rewrite (shareBalance_total _ Hge) in H. inversion H. split; [exact Hge | reflexivity].
Qed.

Section VaultPositions.

Variable provider : Provider.
Variable this_buildMetadata : M Metadata.

(** What a vault's task pushes: nothing, or one position with a positive
    share balance whose underlying entry is the share balance divided by ten
    to the difference of the two [decimals()] answers. *)
Lemma vault_positionTask_Ok userAddress blockNumber pt s1 ps s2 :
  Vault.positionTask provider this_buildMetadata userAddress blockNumber pt s1
  = (Ok ps, s2) ->
  Forall (fun p =>
            0 < pos_balanceRaw p /\
            pos_token p = pt /\
            balanceOf provider (address pt) userAddress blockNumber
            = Ok (pos_balanceRaw p) /\
            exists u vaultDecimal assetDecimals asset,
              tokens p = [u] /\
              resolved (Vault.getUnderlyingToken this_buildMetadata
                          (address pt)) asset /\
              erc20_decimals provider (address pt) = Ok vaultDecimal /\
              erc20_decimals provider (address asset) = Ok assetDecimals /\
              assetDecimals <= vaultDecimal /\
              balanceRaw u
              = Z.quot (pos_balanceRaw p) (10 ^ (vaultDecimal - assetDecimals)))
         ps.
Proof.
  unfold Vault.positionTask. intros H.
  await H. await H. destruct v0 as [b [vd ad]].
  apply promiseAll2_Ok in Hawait0. destruct Hawait0 as (s3 & Hb & Hd).
  apply promiseAll2_Ok in Hd. destruct Hd as (s4 & Hvd & Had).
  apply call_Ok in Hb. apply call_Ok in Hvd. apply call_Ok in Had.
  simpl in Hb, Hvd, Had. destruct Hb as [Hb _], Hvd as [Hvd _], Had as [Had _].
  destruct (Z.ltb_spec 0 b) as [Hpos | Hle].
  - await H. await H. returned H.
    apply call_Ok in Hawait1. destruct Hawait1 as [Hq _].
    apply shareBalance_Ok in Hq. destruct Hq as [Hle Hq].
    constructor; [| constructor]. simpl.
    repeat split; try assumption.
    eexists _, vd, ad, v. simpl.
    repeat split; try assumption.
    exists s1, s. exact Hawait.
  - returned H. constructor.
Qed.

Lemma vault_getPositions_Ok userAddress blockNumber addresses schedule s l s' :
  Vault.getPositions provider this_buildMetadata userAddress blockNumber
    addresses schedule s = (Ok l, s') ->
  Forall (fun p =>
            0 < pos_balanceRaw p /\
            balanceOf provider (address (pos_token p)) userAddress blockNumber
            = Ok (pos_balanceRaw p) /\
            exists u vaultDecimal assetDecimals asset,
              tokens p = [u] /\
              resolved (Vault.getUnderlyingToken this_buildMetadata
                          (address (pos_token p))) asset /\
              erc20_decimals provider (address (pos_token p)) = Ok vaultDecimal /\
              erc20_decimals provider (address asset) = Ok assetDecimals /\
              assetDecimals <= vaultDecimal /\
              balanceRaw u
              = Z.quot (pos_balanceRaw p) (10 ^ (vaultDecimal - assetDecimals)))
         l.
Proof.
  unfold Vault.getPositions. intros H.
  await H. cbv zeta in H. await H. returned H.
  apply promiseAll_map_Ok in Hawait0.
  apply Forall_concat.
  eapply Forall2_transfer;
    [| apply (Forall_all (fun _ => True)); exact (fun _ => I) | exact Hawait0].
  intros pt ps _ (t1 & t2 & Hp). simpl in Hp.
  apply vault_positionTask_Ok in Hp.
  eapply Forall_impl; [| exact Hp].
  intros p (Hpos & Htok & Hbal & Hrest). subst pt.
  repeat split; assumption.
Qed.

End VaultPositions.

(** C4.  For every user address and block, a list returned by [getPositions]
    holds no position whose protocol-token balance is zero, on the Compound
    optimizer base, the Aave optimizer base and the vault adapter alike. *)
Theorem getPositions_discards_zero_balances
    (provider : Provider) (positionType : PositionType)
    (this_buildMetadata : M Metadata)
    (userAddress : string) (blockNumber : option Z)
    (protocolTokenAddresses : option (list string)) (schedule : list nat)
    (s : AdapterState) (l : list ProtocolPosition) (s' : AdapterState) :
  Compound.getPositions provider positionType this_buildMetadata
    userAddress blockNumber s = (Ok l, s') \/
  Aave.getPositions provider positionType this_buildMetadata
    userAddress blockNumber s = (Ok l, s') \/
  Vault.getPositions provider this_buildMetadata userAddress blockNumber
    protocolTokenAddresses schedule s = (Ok l, s') ->
  Forall (fun p => pos_balanceRaw p <> 0) l.
Proof.
  intros [H | [H | H]].
  - apply compound_getPositions_Ok in H.
    eapply Forall_impl; [| exact H]. intros p [Hnz _]. exact Hnz.
  - apply aave_getPositions_Ok in H.
    eapply Forall_impl; [| exact H]. intros p [Hnz _]. exact Hnz.
  - apply vault_getPositions_Ok in H.
    eapply Forall_impl; [| exact H]. intros p [Hpos _]. lia.
Qed.

Lemma getPositions_discards_zero_balances_witness :
  (exists l s',
     Compound.getPositions Sample.provider Supply
       (Compound.buildMetadata Sample.provider [])
       Sample.user (Some 100) fresh = (Ok l, s') /\
     l <> [] /\ Forall (fun p => pos_balanceRaw p <> 0) l) /\
  (exists l s',
     Aave.getPositions Sample.provider Borrow
       (Aave.buildMetadata Sample.provider [])
       Sample.user (Some 100) fresh = (Ok l, s') /\
     l <> [] /\ Forall (fun p => pos_balanceRaw p <> 0) l) /\
  (exists l s',
     Vault.getPositions Sample.provider
       (Vault.buildMetadata Sample.provider [])
       Sample.user (Some 100) None [] fresh = (Ok l, s') /\
     l <> [] /\ Forall (fun p => pos_balanceRaw p <> 0) l).
Proof.
  split; [| split].
  - eexists. eexists. split; [lazy; reflexivity |]. split; [discriminate |].
    eapply (getPositions_discards_zero_balances
             Sample.provider Supply
             (Compound.buildMetadata Sample.provider [])
             Sample.user (Some 100) None [] fresh).
    left. vm_compute. reflexivity.
  - eexists. eexists. split; [lazy; reflexivity |]. split; [discriminate |].
    eapply (getPositions_discards_zero_balances
             Sample.provider Borrow
             (Aave.buildMetadata Sample.provider [])
             Sample.user (Some 100) None [] fresh).
    right. left. vm_compute. reflexivity.
  - eexists. eexists. split; [lazy; reflexivity |]. split; [discriminate |].
    eapply (getPositions_discards_zero_balances
             Sample.provider Supply
             (Vault.buildMetadata Sample.provider [])
             Sample.user (Some 100) None [] fresh).
    right. right. vm_compute. reflexivity.
Defined.

(** C5.  For every position returned by [getPositions]: on the two pool
    (optimizer) adapters the single underlying entry has exactly the
    protocol-token balance; on the vault adapter it has the protocol-token
    balance divided (bigint division) by ten to the power
    vaultDecimals - assetDecimals, the two being what [decimals()] answers
    on the vault and on its underlying asset. *)
Theorem getPositions_decomposition
    (provider : Provider) (positionType : PositionType)
    (this_buildMetadata : M Metadata)
    (userAddress : string) (blockNumber : option Z)
    (protocolTokenAddresses : option (list string)) (schedule : list nat)
    (s : AdapterState) (l : list ProtocolPosition) (s' : AdapterState) :
  (Compound.getPositions provider positionType this_buildMetadata
     userAddress blockNumber s = (Ok l, s') \/
   Aave.getPositions provider positionType this_buildMetadata
     userAddress blockNumber s = (Ok l, s') ->
   Forall (fun p => exists u,
             tokens p = [u] /\ balanceRaw u = pos_balanceRaw p) l) /\
  (Vault.getPositions provider this_buildMetadata userAddress blockNumber
     protocolTokenAddresses schedule s = (Ok l, s') ->
   Forall (fun p => exists u vaultDecimals assetDecimals asset,
             tokens p = [u] /\
             resolved (Vault.getUnderlyingToken this_buildMetadata
                         (address (pos_token p))) asset /\
             erc20_decimals provider (address (pos_token p))
             = Ok vaultDecimals /\
             erc20_decimals provider (address asset) = Ok assetDecimals /\
             balanceRaw u
             = Z.quot (pos_balanceRaw p)
                      (10 ^ (vaultDecimals - assetDecimals))) l).
Proof.
  split.
  - intros [H | H].
    + apply compound_getPositions_Ok in H.
      eapply Forall_impl; [| exact H]. intros p [_ Hu]. exact Hu.
    + apply aave_getPositions_Ok in H.
      eapply Forall_impl; [| exact H]. intros p [_ Hu]. exact Hu.
  - intros H. apply vault_getPositions_Ok in H.
    eapply Forall_impl; [| exact H].
    intros p (_ & _ & u & vd & ad & asset & Ht & Hr & Hvd & Had & _ & Hq).
    exists u, vd, ad, asset. repeat split; assumption.
Qed.

Lemma getPositions_decomposition_witness :
  (exists l s',
     Compound.getPositions Sample.provider Supply
       (Compound.buildMetadata Sample.provider [])
       Sample.user (Some 100) fresh = (Ok l, s') /\
     l <> [] /\
     Forall (fun p => exists u,
               tokens p = [u] /\ balanceRaw u = pos_balanceRaw p) l) /\
  (exists l s',
     Vault.getPositions Sample.provider
       (Vault.buildMetadata Sample.provider [])
       Sample.user (Some 100) None [] fresh = (Ok l, s') /\
     map (fun p => (pos_balanceRaw p, map (@balanceRaw Z) (tokens p))) l
     = [(5 * 10 ^ 18, [5 * 10 ^ 6])] /\
     Forall (fun p => exists u vaultDecimals assetDecimals asset,
               tokens p = [u] /\
               resolved (Vault.getUnderlyingToken
                           (Vault.buildMetadata Sample.provider [])
                           (address (pos_token p))) asset /\
               erc20_decimals Sample.provider (address (pos_token p))
               = Ok vaultDecimals /\
               erc20_decimals Sample.provider (address asset)
               = Ok assetDecimals /\
               balanceRaw u
               = Z.quot (pos_balanceRaw p)
                        (10 ^ (vaultDecimals - assetDecimals))) l).
Proof.
  split.
  - eexists. eexists. split; [lazy; reflexivity |]. split; [discriminate |].
    eapply (getPositions_decomposition
             Sample.provider Supply
             (Compound.buildMetadata Sample.provider [])
             Sample.user (Some 100) None [] fresh).
    left. vm_compute. reflexivity.
  - eexists. eexists. split; [lazy; reflexivity |]. split; [reflexivity |].
    eapply (getPositions_decomposition
             Sample.provider Supply
             (Vault.buildMetadata Sample.provider [])
             Sample.user (Some 100) None [] fresh).
    vm_compute. reflexivity.
Defined.

(** ** Total value locked *)

Section TotalValueLocked.

Variable provider : Provider.
Variable positionType : PositionType.
Variable this_buildMetadata : M Metadata.
Variable wadDiv : Z -> Z -> Outcome Z.

Lemma compound_tvlTask_Ok blockNumber t s1 r s2 :
  Compound.tvlTask provider positionType wadDiv blockNumber t s1 = (Ok r, s2) ->
  tvl_token r = t /\
  exists p2p pool exchangeRate,
    marketTotals provider positionType Compound.lensAddress (address t)
      blockNumber = Ok (p2p, pool) /\
    exchangeRateStored provider (address t) blockNumber = Ok exchangeRate /\
    wadDiv (pool + p2p) exchangeRate = Ok (totalSupplyRaw r).
Proof.
  unfold Compound.tvlTask, marketTotals. intros H.
  await H. await H. await H. returned H. simpl.
  apply call_Ok in Hawait0. destruct Hawait0 as [Hrate ->].
  apply call_Ok in Hawait1. destruct Hawait1 as [Hdiv _].
  split; [reflexivity |].
  destruct positionType; await Hawait; destruct v2 as [p2p pool];
    returned Hawait; apply call_Ok in Hawait0; destruct Hawait0 as [Hlens _];
    exists p2p, pool, v0; repeat split; assumption.
Qed.

Lemma aave_tvlTask_Ok blockNumber t s1 r s2 :
  Aave.tvlTask provider positionType blockNumber t s1 = (Ok r, s2) ->
  tvl_token r = t /\
  exists pool p2p,
    marketTotals provider positionType Aave.lensAddress (address t)
      blockNumber = Ok (pool, p2p) /\
    totalSupplyRaw r = pool + p2p.
Proof.
  unfold Aave.tvlTask, marketTotals. intros H.
  await H. returned H. simpl.
  split; [reflexivity |].
  destruct positionType; await Hawait; destruct v0 as [pool p2p];
    returned Hawait; apply call_Ok in Hawait0; destruct Hawait0 as [Hlens _];
    exists pool, p2p; (split; [assumption | reflexivity]).
Qed.

End TotalValueLocked.

(** C2.  For every block, [getTotalValueLocked] returns one figure per
    market token of the metadata, in order; on the Aave optimizer base its
    [totalSupplyRaw] is the sum of the two totals the lens reports (pool side
    and peer-to-peer side), and on the Compound optimizer base it is that sum
    wad-divided by the cToken's [exchangeRateStored]. *)
Theorem getTotalValueLocked_sums_pool_and_p2p
    (provider : Provider) (positionType : PositionType)
    (this_buildMetadata : M Metadata) (wadDiv : Z -> Z -> Outcome Z)
    (blockNumber : option Z)
    (s : AdapterState) (tvls : list ProtocolTokenTvl) (s' : AdapterState) :
  (Compound.getTotalValueLocked provider positionType this_buildMetadata
     wadDiv blockNumber s = (Ok tvls, s') ->
   exists metadata s0,
     this_buildMetadata s = (Ok metadata, s0) /\
     Forall2 (fun market tvl =>
                tvl_token tvl = market /\
                exists p2p pool exchangeRate,
                  marketTotals provider positionType Compound.lensAddress
                    (address market) blockNumber = Ok (p2p, pool) /\
                  exchangeRateStored provider (address market) blockNumber
                  = Ok exchangeRate /\
                  wadDiv (pool + p2p) exchangeRate = Ok (totalSupplyRaw tvl))
             (map pm_protocolToken (Object_values metadata)) tvls) /\
  (Aave.getTotalValueLocked provider positionType this_buildMetadata
     blockNumber s = (Ok tvls, s') ->
   exists metadata s0,
     this_buildMetadata s = (Ok metadata, s0) /\
     Forall2 (fun market tvl =>
                tvl_token tvl = market /\
                exists pool p2p,
                  marketTotals provider positionType Aave.lensAddress
                    (address market) blockNumber = Ok (pool, p2p) /\
                  totalSupplyRaw tvl = pool + p2p)
             (map pm_protocolToken (Object_values metadata)) tvls).
Proof.
  split.
  - unfold Compound.getTotalValueLocked, Compound.getProtocolTokens.
    intros H. await H as tokens s1 Htokens.
    await Htokens as metadata s0 Hbuild. returned Htokens.
    exists metadata, s0. split; [exact Hbuild |].
    apply promiseAll_map_Ok in H.
    eapply Forall2_impl; [| exact H].
    intros market tvl (t1 & t2 & Ht).
    eapply compound_tvlTask_Ok. exact Ht.
  - unfold Aave.getTotalValueLocked, Aave.getProtocolTokens.
    intros H. await H as tokens s1 Htokens.
    await Htokens as metadata s0 Hbuild. returned Htokens.
    exists metadata, s0. split; [exact Hbuild |].
    apply promiseAll_map_Ok in H.
    eapply Forall2_impl; [| exact H].
    intros market tvl (t1 & t2 & Ht).
    eapply aave_tvlTask_Ok. exact Ht.
Qed.

Lemma getTotalValueLocked_sums_pool_and_p2p_witness :
  (exists tvls s',
     Compound.getTotalValueLocked Sample.provider Supply
       (Compound.buildMetadata Sample.provider []) Sample.wadDiv
       (Some 100) fresh = (Ok tvls, s') /\
     map totalSupplyRaw tvls = [500; 500] /\
     exists metadata s0,
       Compound.buildMetadata Sample.provider [] fresh = (Ok metadata, s0) /\
       Forall2 (fun market tvl =>
                  tvl_token tvl = market /\
                  exists p2p pool exchangeRate,
                    marketTotals Sample.provider Supply Compound.lensAddress
                      (address market) (Some 100) = Ok (p2p, pool) /\
                    exchangeRateStored Sample.provider (address market)
                      (Some 100) = Ok exchangeRate /\
                    Sample.wadDiv (pool + p2p) exchangeRate
                    = Ok (totalSupplyRaw tvl))
               (map pm_protocolToken (Object_values metadata)) tvls) /\
  (exists tvls s',
     Aave.getTotalValueLocked Sample.provider Borrow
       (Aave.buildMetadata Sample.provider [])
       (Some 100) fresh = (Ok tvls, s') /\
     map totalSupplyRaw tvls = [50; 50] /\
     exists metadata s0,
       Aave.buildMetadata Sample.provider [] fresh = (Ok metadata, s0) /\
       Forall2 (fun market tvl =>
                  tvl_token tvl = market /\
                  exists pool p2p,
                    marketTotals Sample.provider Borrow Aave.lensAddress
                      (address market) (Some 100) = Ok (pool, p2p) /\
                    totalSupplyRaw tvl = pool + p2p)
               (map pm_protocolToken (Object_values metadata)) tvls).
Proof.
  split.
  - eexists. eexists. split; [lazy; reflexivity |]. split; [reflexivity |].
    eapply (getTotalValueLocked_sums_pool_and_p2p
              Sample.provider Supply
              (Compound.buildMetadata Sample.provider []) Sample.wadDiv
              (Some 100) fresh).
    vm_compute. reflexivity.
  - eexists. eexists. split; [lazy; reflexivity |]. split; [reflexivity |].
    eapply (getTotalValueLocked_sums_pool_and_p2p
              Sample.provider Borrow
              (Aave.buildMetadata Sample.provider []) Sample.wadDiv
              (Some 100) fresh).
    vm_compute. reflexivity.
Defined.

(** ** Unwrap *)

(** C10.  On both optimizer base adapters [unwrap] throws
    [NotImplementedError] for every input and from every state; the vault
    adapter's [unwrap] resolves the two tokens of the queried address and
    hands them to the one-to-one helper, whose outcome it returns. *)
Theorem unwrap_is_implemented_by_the_vault_only
    (this_buildMetadata : M Metadata) (UnwrapExchangeRate : Type)
    (unwrapOneToOne :
       Erc20Metadata -> list Erc20Metadata -> Outcome UnwrapExchangeRate)
    (input : UnwrapInput) (s : AdapterState) :
  Compound.unwrap UnwrapExchangeRate input s = (Throw NotImplementedError, s) /\
  Aave.unwrap UnwrapExchangeRate input s = (Throw NotImplementedError, s) /\
  (forall metadata s1 pool metadata' s2 pool',
     this_buildMetadata s = (Ok metadata, s1) ->
     obj_get metadata (protocolTokenAddress input) = Some pool ->
     this_buildMetadata s1 = (Ok metadata', s2) ->
     obj_get metadata' (protocolTokenAddress input) = Some pool' ->
     Vault.unwrap this_buildMetadata unwrapOneToOne input s
     = (unwrapOneToOne (pm_protocolToken pool) [underlyingToken pool'], s2)).
Proof.
  split; [reflexivity |]. split; [reflexivity |].
  intros metadata s1 pool metadata' s2 pool' Hb Hg Hb' Hg'.
  unfold Vault.unwrap, Vault.getProtocolToken, Vault.getUnderlyingToken,
    Vault.fetchPoolMetadata, bind, ret, call.
  rewrite Hb, Hg, Hb', Hg'. reflexivity.
Qed.

Lemma unwrap_is_implemented_by_the_vault_only_witness :
  Compound.unwrap Sample.UnwrapExchangeRate
    {| protocolTokenAddress := Sample.marketA; ui_blockNumber := None |} fresh
  = (Throw NotImplementedError, fresh) /\
  Aave.unwrap Sample.UnwrapExchangeRate
    {| protocolTokenAddress := Sample.marketA; ui_blockNumber := None |} fresh
  = (Throw NotImplementedError, fresh) /\
  fst (Vault.unwrap (Vault.buildMetadata Sample.provider [])
         Sample.unwrapOneToOne
         {| protocolTokenAddress := Sample.marketA; ui_blockNumber := None |}
         fresh)
  = Ok (Sample.metadataOf Sample.marketA,
        [(Sample.metadataOf Sample.assetA, 10 ^ 18)]).
Proof.
  pose proof (unwrap_is_implemented_by_the_vault_only
                (Vault.buildMetadata Sample.provider [])
                Sample.unwrapOneToOne
                {| protocolTokenAddress := Sample.marketA;
                   ui_blockNumber := None |} fresh)
    as (Hc & Ha & Hv).
  split; [exact Hc |]. split; [exact Ha |].
  erewrite Hv; cycle 1.
  - lazy. reflexivity.
  - lazy. reflexivity.
  - lazy. reflexivity.
  - lazy. reflexivity.
  - reflexivity.
Defined.

(** ** Metadata construction *)






(** ** Lookups in the metadata *)

Section Lookups.

Variable provider : Provider.
Variable this_buildMetadata : M Metadata.

Lemma compound_fetchPoolMetadata_absent a s metadata s' :
  this_buildMetadata s = (Ok metadata, s') ->
  obj_get metadata a = None ->
  Compound._fetchPoolMetadata this_buildMetadata a s
  = (Throw pool_not_found, s').
Proof.
  intros Hb Hg. unfold Compound._fetchPoolMetadata, bind.
  rewrite Hb, Hg. reflexivity.
Qed.

Lemma aave_fetchPoolMetadata_absent a s metadata s' :
  this_buildMetadata s = (Ok metadata, s') ->
  obj_get metadata a = None ->
  Aave.fetchPoolMetadata this_buildMetadata a s = (Throw pool_not_found, s').
Proof.
  intros Hb Hg. unfold Aave.fetchPoolMetadata, bind.
  rewrite Hb, Hg. reflexivity.
Qed.

Lemma vault_fetchPoolMetadata_absent a s metadata s' :
  this_buildMetadata s = (Ok metadata, s') ->
  obj_get metadata a = None ->
  Vault.fetchPoolMetadata this_buildMetadata a s = (Throw pool_not_found, s').
Proof.
  intros Hb Hg. unfold Vault.fetchPoolMetadata, bind.
  rewrite Hb, Hg. reflexivity.
Qed.

(** A lookup that resolved read the entry of the address in a mapping that
    [this.buildMetadata()] returned. *)
Lemma compound_fetchPoolMetadata_Ok a s pool s' :
  Compound._fetchPoolMetadata this_buildMetadata a s = (Ok pool, s') ->
  exists metadata,
    this_buildMetadata s = (Ok metadata, s') /\ obj_get metadata a = Some pool.
Proof.
  unfold Compound._fetchPoolMetadata. intros H.
  await H as metadata s1 Hb. exists metadata.
  destruct (obj_get metadata a) as [pool' |]; [| discriminate H].
  returned H. split; [exact Hb | reflexivity].
Qed.

Lemma aave_fetchPoolMetadata_Ok a s pool s' :
  Aave.fetchPoolMetadata this_buildMetadata a s = (Ok pool, s') ->
  exists metadata,
    this_buildMetadata s = (Ok metadata, s') /\ obj_get metadata a = Some pool.
Proof.
  unfold Aave.fetchPoolMetadata. intros H.
  await H as metadata s1 Hb. exists metadata.
  destruct (obj_get metadata a) as [pool' |]; [| discriminate H].
  returned H. split; [exact Hb | reflexivity].
Qed.

Lemma vault_fetchPoolMetadata_Ok a s pool s' :
  Vault.fetchPoolMetadata this_buildMetadata a s = (Ok pool, s') ->
  exists metadata,
    this_buildMetadata s = (Ok metadata, s') /\ obj_get metadata a = Some pool.
Proof.
  unfold Vault.fetchPoolMetadata. intros H.
  await H as metadata s1 Hb. exists metadata.
  destruct (obj_get metadata a) as [pool' |]; [| discriminate H].
  returned H. split; [exact Hb | reflexivity].
Qed.

End Lookups.

(** ** Event filters *)

(** A log that passes a filter of either optimizer adapter has the queried
    address, up to its spelling, as its pool token. *)
Lemma compound_filter_pool_token eventType userAddress a l :
  pl_event l = fst (Compound.movementFilter eventType userAddress a) ->
  topics_match (snd (Compound.movementFilter eventType userAddress a))
    (pool_topics l) = true ->
  same_address a (_poolToken l) = true.
Proof.
  unfold pl_event, pool_topics, _poolToken.
  destruct eventType, (pl_args l); simpl; intros He Hm;
    try discriminate He;
    repeat (apply andb_prop in Hm; destruct Hm as [? Hm]); assumption.
Qed.

Lemma aave_filter_pool_token eventType userAddress a l :
  pl_event l = fst (Aave.movementFilter eventType userAddress a) ->
  topics_match (snd (Aave.movementFilter eventType userAddress a))
    (pool_topics l) = true ->
  same_address a (_poolToken l) = true.
Proof.
  unfold pl_event, pool_topics, _poolToken.
  destruct eventType, (pl_args l); simpl; intros He Hm;
    try discriminate He;
    repeat (apply andb_prop in Hm; destruct Hm as [? Hm]); assumption.
Qed.

Lemma pool_queryFilter_sound provider contract ev f fromBlock toBlock logs l :
  pool_queryFilter provider contract ev f fromBlock toBlock = Ok logs ->
  In l logs ->
  pl_event l = ev /\ topics_match f (pool_topics l) = true /\
  fromBlock <= pl_blockNumber l <= toBlock.
Proof.
  unfold pool_queryFilter.
  destruct (poolLogs provider contract) as [all | e]; [| discriminate].
  intros H Hin. inversion H; subst. apply filter_In in Hin.
  destruct Hin as [_ Hf].
  apply andb_prop in Hf. destruct Hf as [He Hf].
  apply andb_prop in Hf. destruct Hf as [Ht Hr].
  unfold in_range in Hr. apply andb_prop in Hr. destruct Hr as [H1 H2].
  split; [| split; [exact Ht | lia]].
  destruct (pl_event l), ev; try discriminate He; reflexivity.
Qed.

(** ** Movements *)

Lemma Forall2_not_null A B (R : A -> B -> Prop) (keep : A -> bool)
    (xs : list A) (os : list (option B)) :
  Forall2 (fun x o => match o with
                      | Some b => keep x = true /\ R x b
                      | None => keep x = false
                      end) xs os ->
  Forall2 R (filter keep xs) (Aave.not_null os).
Proof.
  induction 1 as [| x o xs os Hxo _ IH]; simpl; [constructor |].
  destruct o as [b |].
  - destruct Hxo as [-> Hr]. constructor; assumption.
  - rewrite Hxo. exact IH.
Qed.

Section Movements.

Variable provider : Provider.
Variable this_buildMetadata : M Metadata.

(** What a movement of a pool log is on the Compound base: the protocol
    token of the queried address and one underlying entry with the log's
    [_amount]. *)
Lemma compound_getMovements_Ok userAddress a fromBlock toBlock eventType
    s l s' :
  Compound._getMovements provider this_buildMetadata userAddress a
    fromBlock toBlock eventType s = (Ok l, s') ->
  exists metadata s1 pool logs,
    this_buildMetadata s = (Ok metadata, s1) /\
    obj_get metadata a = Some pool /\
    pool_queryFilter provider Compound.LQGCompoundV2ContractAddress
      (fst (Compound.movementFilter eventType userAddress a))
      (snd (Compound.movementFilter eventType userAddress a))
      fromBlock toBlock = Ok logs /\
    Forall2 (fun log m =>
               protocolToken m = pm_protocolToken pool /\
               blockNumber m = pl_blockNumber log /\
               transactionHash m = pl_transactionHash log /\
               exists u, mv_tokens m = [u] /\ balanceRaw u = _amount log)
            logs l.
Proof.
  unfold Compound._getMovements, Compound.fetchProtocolTokenMetadata,
    Compound.fetchUnderlyingTokensMetadata.
  intros H.
  await H as protocolToken s1 Hp. await Hp as pool s2 Hpool. returned Hp.
  await H as underlyingTokens s3 Hu. await Hu as pool' s4 Hpool'. returned Hu.
  apply compound_fetchPoolMetadata_Ok in Hpool.
  destruct Hpool as (metadata & Hb & Hg).
  destruct (Compound.movementFilter eventType userAddress a)
    as [event filter] eqn:Ef.
  await H as logs s5 Hq. apply call_Ok in Hq. destruct Hq as [Hq ->].
  exists metadata, s2, pool, logs. simpl.
  repeat split; try assumption.
  apply promiseAll_map_Ok in H.
  eapply Forall2_impl; [| exact H].
  intros log m (t1 & t2 & Hm). unfold Compound.movementTask in Hm.
  destruct (pl_decoded log); [| discriminate Hm].
  returned Hm. simpl. repeat split. eexists. split; reflexivity.
Qed.

(** On the Aave base: one movement per log that came with its arguments,
    with the protocol token stored under the log's own pool token. *)
Lemma aave_getMovements_Ok userAddress a fromBlock toBlock eventType s l s' :
  Aave.getMovements provider this_buildMetadata userAddress a
    fromBlock toBlock eventType s = (Ok l, s') ->
  exists logs,
    pool_queryFilter provider Aave.LQGAaveV2ContractAddress
      (fst (Aave.movementFilter eventType userAddress a))
      (snd (Aave.movementFilter eventType userAddress a))
      fromBlock toBlock = Ok logs /\
    Forall2 (fun log m =>
               (exists metadata s0 s1 pool,
                  this_buildMetadata s0 = (Ok metadata, s1) /\
                  obj_get metadata (_poolToken log) = Some pool /\
                  protocolToken m = pm_protocolToken pool) /\
               blockNumber m = pl_blockNumber log /\
               transactionHash m = pl_transactionHash log /\
               exists u, mv_tokens m = [u] /\ balanceRaw u = _amount log)
            (filter pl_decoded logs) l.
Proof.
  unfold Aave.getMovements. intros H.
  destruct (Aave.movementFilter eventType userAddress a)
    as [event filter] eqn:Ef.
  await H as logs s1 Hq. apply call_Ok in Hq. destruct Hq as [Hq ->].
  await H as movements s2 Hm. returned H.
  exists logs. split; [exact Hq |].
  apply promiseAll_map_Ok in Hm.
  apply Forall2_not_null.
  eapply Forall2_impl; [| exact Hm].
  intros log o (t1 & t2 & Ho). unfold Aave.movementTask in Ho.
  destruct (pl_decoded log); simpl in Ho.
  - unfold Aave.fetchProtocolTokenMetadata,
      Aave.fetchUnderlyingTokensMetadata in Ho.
    await Ho as protocolToken s3 Hp. await Hp as pool s4 Hpool. returned Hp.
    await Ho as underlyingTokens s5 Hu. await Hu as pool' s6 Hpool'.
    returned Hu. returned Ho.
    apply aave_fetchPoolMetadata_Ok in Hpool.
    destruct Hpool as (metadata & Hb & Hg).
    split; [reflexivity |]. simpl. split.
    + exists metadata, t1, s4, pool. repeat split; assumption.
    + repeat split. eexists. split; reflexivity.
  - returned Ho. reflexivity.
Qed.

(** On the vault adapter: the protocol token of the queried vault and one
    underlying entry with the log's [assets] taken through [Number] and
    back through [BigInt]. *)
Lemma vault_getMovements_Ok userAddress fromBlock toBlock eventType a s l s' :
  Vault.getMovements provider this_buildMetadata userAddress
    fromBlock toBlock eventType a s = (Ok l, s') ->
  exists metadata s1 pool logs,
    this_buildMetadata s = (Ok metadata, s1) /\
    obj_get metadata a = Some pool /\
    vault_queryFilter provider a eventType
      (Vault.movementFilter eventType userAddress) fromBlock toBlock
    = Ok logs /\
    Forall2 (fun log m =>
               protocolToken m = pm_protocolToken pool /\
               blockNumber m = vl_blockNumber log /\
               transactionHash m = vl_transactionHash log /\
               exists u, mv_tokens m = [u] /\
                         BigInt (Number (assets log)) = Ok (balanceRaw u))
            logs l.
Proof.
  unfold Vault.getMovements, Vault.getProtocolToken, Vault.getUnderlyingToken.
  intros H.
  await H as both s1 Hboth. destruct both as [protocolToken underlyingToken].
  apply promiseAll2_Ok in Hboth. destruct Hboth as (s2 & Hp & Hu).
  simpl in Hp, Hu.
  await Hp as pool s3 Hpool. returned Hp.
  await Hu as pool' s4 Hpool'. returned Hu.
  apply vault_fetchPoolMetadata_Ok in Hpool.
  destruct Hpool as (metadata & Hb & Hg).
  cbv zeta in H.
  await H as logs s5 Hq. apply call_Ok in Hq. destruct Hq as [Hq ->].
  await H as movements s6 Hm. apply call_Ok in H. destruct H as [Ht ->].
  exists metadata, s3, pool, logs.
  repeat split; try assumption.
  apply promiseAll_map_Ok in Hm. apply traverse_Ok in Ht.
  clear - Hm Ht. revert l Ht.
  induction Hm as [| log n logs ns Hn _ IH]; intros l Ht.
  - inversion Ht. constructor.
  - inversion Ht as [| n' m ns' l' Hnm Hrest]; subst.
    constructor; [| apply IH; exact Hrest].
    destruct Hn as (t1 & t2 & Hn). unfold Vault.movementTask in Hn.
    destruct (vl_decoded log); [| discriminate Hn].
    returned Hn. unfold Vault.toBigIntBalances in Hnm. simpl in Hnm.
    destruct (BigInt (Number (assets log))) as [b | e] eqn:Eb;
      [| discriminate Hnm].
    inversion Hnm; subst. simpl. repeat split.
    eexists. split; reflexivity.
Qed.

End Movements.

(** ** Keys of the metadata of the optimizer bases *)

Lemma obj_get_set V (o : JsObject V) k v k' :
  obj_get (obj_set o k v) k'
  = if String.eqb k k' then Some v else obj_get o k'.
Proof.
  induction o as [| [k0 v0] o IH]; simpl.
  - reflexivity.
  - destruct (String.eqb k0 k) eqn:E0; simpl.
    + apply String.eqb_eq in E0. subst k0.
      destruct (String.eqb k k'); reflexivity.
    + rewrite IH. destruct (String.eqb k0 k') eqn:E1; [| reflexivity].
      apply String.eqb_eq in E1. subst k0. rewrite String.eqb_sym, E0.
      reflexivity.
Qed.

Lemma assign_all_get V (P : string -> V -> Prop) (entries : list (string * V)) :
  Forall (fun e => P (fst e) (snd e)) entries ->
  forall k v, obj_get (assign_all entries) k = Some v -> P k v.
Proof.
  unfold assign_all. intros H.
  assert (forall o : JsObject V,
            (forall k v, obj_get o k = Some v -> P k v) ->
            forall k v,
              obj_get (fold_left (fun o e => obj_set o (fst e) (snd e))
                                 entries o) k = Some v -> P k v) as G.
  { induction H as [| e es He _ IH]; simpl; intros o Ho; [exact Ho |].
    apply IH. intros k v. rewrite obj_get_set.
    destruct (String.eqb (fst e) k) eqn:E.
    - apply String.eqb_eq in E. intros Hv. inversion Hv; subst. exact He.
    - apply Ho. }
  apply G. intros k v Hv. discriminate Hv.
Qed.

Lemma compound_marketTask_key provider market s e s' :
  Compound.marketTask provider market s = (Ok e, s') ->
  address (pm_protocolToken (snd e)) = fst e.
Proof.
  unfold Compound.marketTask. intros H.
  await H as supplyTokenAddress s1 Hs. await H as both s2 Hb.
  destruct both as [protocolToken underlyingToken]. returned H. reflexivity.
Qed.

Lemma aave_marketTask_key provider market s e s' :
  Aave.marketTask provider market s = (Ok e, s') ->
  address (pm_protocolToken (snd e)) = fst e.
Proof.
  unfold Aave.marketTask. intros H.
  await H as supplyTokenAddress s1 Hs. await H as both s2 Hb.
  destruct both as [protocolToken underlyingToken]. returned H. reflexivity.
Qed.

(** In the mapping either optimizer base builds, an entry is stored under the
    address of its protocol token. *)
Lemma optimizer_metadata_keys provider schedule s metadata s' k pool :
  Aave.buildMetadata provider schedule s = (Ok metadata, s') \/
  (_metadataCache s = None /\
   Compound.buildMetadata provider schedule s = (Ok metadata, s')) ->
  obj_get metadata k = Some pool ->
  address (pm_protocolToken pool) = k.
Proof.
  intros [H | [Hc H]].
  - unfold Aave.buildMetadata in H.
    await H as markets s1 Hm. await H as entries s2 He. returned H.
    intros Hg.
    eapply (assign_all_get (fun k v => address (pm_protocolToken v) = k));
      [| exact Hg].
    apply promiseAll_map_Ok in He.
    eapply Forall2_transfer;
      [| apply (Forall_all (fun _ => True)); exact (fun _ => I) | exact He].
    intros market e _ (t1 & t2 & Ht).
    eapply aave_marketTask_key. exact Ht.
  - unfold Compound.buildMetadata in H. rewrite Hc in H.
    await H as markets s1 Hm. await H as entries s2 He.
    cbv zeta in H. await H as u s3 Hset. returned H.
    intros Hg.
    eapply (assign_all_get (fun k v => address (pm_protocolToken v) = k));
      [| exact Hg].
    apply promiseAll_map_Ok in He.
    eapply Forall2_transfer;
      [| apply (Forall_all (fun _ => True)); exact (fun _ => I) | exact He].
    intros market e _ (t1 & t2 & Ht).
    eapply compound_marketTask_key. exact Ht.
Qed.

(** The public movement queries are the internal one at an event type. *)
Lemma vault_public_queries provider this_buildMetadata userAddress
    fromBlock toBlock a s :
  Vault.getDeposits provider this_buildMetadata userAddress fromBlock toBlock
    a s
  = Vault.getMovements provider this_buildMetadata userAddress fromBlock
      toBlock Deposit a s /\
  Vault.getWithdrawals provider this_buildMetadata userAddress fromBlock
    toBlock a s
  = Vault.getMovements provider this_buildMetadata userAddress fromBlock
      toBlock Withdraw a s.
Proof.
  unfold Vault.getDeposits, Vault.getWithdrawals, bind, ret, promiseAll.
  split.
  - destruct (Vault.getMovements provider this_buildMetadata userAddress
                fromBlock toBlock Deposit a s) as [[l | e] s1];
      simpl; rewrite ?app_nil_r; reflexivity.
  - destruct (Vault.getMovements provider this_buildMetadata userAddress
                fromBlock toBlock Withdraw a s) as [[l | e] s1];
      simpl; rewrite ?app_nil_r; reflexivity.
Qed.

(** C8.  For every movement query issued against a protocol-token address,
    every movement of the result has as its [protocolToken] the one stored
    in the metadata for the queried address: on the Compound base and the
    vault adapter the entry read under the queried address itself, on the Aave
    base the entry read under the pool token of the movement's own log, which
    the topic filter makes the queried address (up to the spelling of its hex
    digits).  In a mapping built by an optimizer base the entry under a key
    has that key as its protocol token's address. *)
Theorem movements_carry_the_queried_protocol_token
    (provider : Provider) (this_buildMetadata : M Metadata)
    (userAddress a : string) (fromBlock toBlock : Z)
    (eventType : EventType) (vaultEvent : VaultEvent)
    (s : AdapterState) (l : list MovementsByBlock) (s' : AdapterState) :
  (Compound._getMovements provider this_buildMetadata userAddress a
     fromBlock toBlock eventType s = (Ok l, s') \/
   Vault.getMovements provider this_buildMetadata userAddress
     fromBlock toBlock vaultEvent a s = (Ok l, s') ->
   exists metadata s1 pool,
     this_buildMetadata s = (Ok metadata, s1) /\
     obj_get metadata a = Some pool /\
     Forall (fun m => protocolToken m = pm_protocolToken pool) l) /\
  (Aave.getMovements provider this_buildMetadata userAddress a
     fromBlock toBlock eventType s = (Ok l, s') ->
   Forall (fun m => exists metadata s0 s1 k pool,
             this_buildMetadata s0 = (Ok metadata, s1) /\
             same_address a k = true /\
             obj_get metadata k = Some pool /\
             protocolToken m = pm_protocolToken pool) l) /\
  (forall schedule s0 metadata s1 k pool,
     Aave.buildMetadata provider schedule s0 = (Ok metadata, s1) \/
     (_metadataCache s0 = None /\
      Compound.buildMetadata provider schedule s0 = (Ok metadata, s1)) ->
     obj_get metadata k = Some pool ->
     address (pm_protocolToken pool) = k).
Proof.
  split; [| split].
  - intros [H | H].
    + apply compound_getMovements_Ok in H.
      destruct H as (metadata & s1 & pool & logs & Hb & Hg & _ & Hl).
      exists metadata, s1, pool. repeat split; try assumption.
      eapply Forall2_transfer;
        [| apply (Forall_all (fun _ => True)); exact (fun _ => I) | exact Hl].
      intros log m _ [Hp _]. exact Hp.
    + apply vault_getMovements_Ok in H.
      destruct H as (metadata & s1 & pool & logs & Hb & Hg & _ & Hl).
      exists metadata, s1, pool. repeat split; try assumption.
      eapply Forall2_transfer;
        [| apply (Forall_all (fun _ => True)); exact (fun _ => I) | exact Hl].
      intros log m _ [Hp _]. exact Hp.
  - intros H. apply aave_getMovements_Ok in H.
    destruct H as (logs & Hq & Hl).
    eapply (Forall2_transfer (P := fun log => In log logs));
      [| | exact Hl].
    + intros log m Hin [(metadata & s0 & s1 & pool & Hb & Hg & Hp) _].
      exists metadata, s0, s1, (_poolToken log), pool.
      repeat split; try assumption.
      eapply pool_queryFilter_sound in Hin; [| exact Hq].
      destruct Hin as (He & Ht & _).
      eapply aave_filter_pool_token; eassumption.
    + apply Forall_forall. intros log Hin. apply filter_In in Hin. apply Hin.
  - intros schedule s0 metadata s1 k pool. apply optimizer_metadata_keys.
Qed.

Lemma movements_carry_the_queried_protocol_token_witness :
  (exists l s',
     Compound._getMovements Sample.provider
       (Compound.buildMetadata Sample.provider [])
       Sample.user Sample.marketA 0 100 supplied fresh = (Ok l, s') /\
     l <> [] /\
     exists metadata s1 pool,
       Compound.buildMetadata Sample.provider [] fresh = (Ok metadata, s1) /\
       obj_get metadata Sample.marketA = Some pool /\
       Forall (fun m => protocolToken m = pm_protocolToken pool) l) /\
  (exists l s',
     Aave.getMovements Sample.provider (Aave.buildMetadata Sample.provider [])
       Sample.user Sample.marketA_upper 0 100 supplied fresh = (Ok l, s') /\
     map (fun m => address (protocolToken m)) l = [Sample.marketA] /\
     Forall (fun m => exists metadata s0 s1 k pool,
               Aave.buildMetadata Sample.provider [] s0 = (Ok metadata, s1) /\
               same_address Sample.marketA_upper k = true /\
               obj_get metadata k = Some pool /\
               protocolToken m = pm_protocolToken pool) l).
Proof.
  split.
  - eexists. eexists. split; [lazy; reflexivity |]. split; [discriminate |].
    eapply (movements_carry_the_queried_protocol_token
              Sample.provider (Compound.buildMetadata Sample.provider [])
              Sample.user Sample.marketA 0 100 supplied Deposit fresh).
    left. vm_compute. reflexivity.
  - eexists. eexists. split; [lazy; reflexivity |]. split; [reflexivity |].
    eapply (movements_carry_the_queried_protocol_token
              Sample.provider (Aave.buildMetadata Sample.provider [])
              Sample.user Sample.marketA_upper 0 100 supplied Deposit fresh).
    vm_compute. reflexivity.
Defined.

(** ** Amounts of movements *)

Lemma Number_exact b : Z.abs b < 2 ^ 53 -> Number b = NumInt b.
Proof.
  intros H. unfold Number, round_to_double.
  destruct (Z.ltb_spec (Z.abs b) (2 ^ 53)) as [_ | C]; [| lia].
  destruct (Z.leb_spec (2 ^ 1024) (Z.abs b)) as [C | _].
  - assert (2 ^ 53 < 2 ^ 1024) by (apply Z.pow_lt_mono_r; lia). lia.
  - rewrite Z.mul_comm, Z.abs_sgn. reflexivity.
Qed.

(** X15.  On the two optimizer bases a movement carries the [_amount] of its
    log unchanged, whatever its size. *)
Lemma pool_movements_carry_log_amounts
    (provider : Provider) (this_buildMetadata : M Metadata)
    (userAddress a : string) (fromBlock toBlock : Z) (eventType : EventType)
    (s : AdapterState) (l : list MovementsByBlock) (s' : AdapterState) :
  (Compound._getMovements provider this_buildMetadata userAddress a
     fromBlock toBlock eventType s = (Ok l, s') ->
   exists logs,
     pool_queryFilter provider Compound.LQGCompoundV2ContractAddress
       (fst (Compound.movementFilter eventType userAddress a))
       (snd (Compound.movementFilter eventType userAddress a))
       fromBlock toBlock = Ok logs /\
     Forall2 (fun log m => exists u,
                mv_tokens m = [u] /\ balanceRaw u = _amount log) logs l) /\
  (Aave.getMovements provider this_buildMetadata userAddress a
     fromBlock toBlock eventType s = (Ok l, s') ->
   exists logs,
     pool_queryFilter provider Aave.LQGAaveV2ContractAddress
       (fst (Aave.movementFilter eventType userAddress a))
       (snd (Aave.movementFilter eventType userAddress a))
       fromBlock toBlock = Ok logs /\
     Forall2 (fun log m => exists u,
                mv_tokens m = [u] /\ balanceRaw u = _amount log)
             (filter pl_decoded logs) l).
Proof.
  split; intros H.
  - apply compound_getMovements_Ok in H.
    destruct H as (metadata & s1 & pool & logs & _ & _ & Hq & Hl).
    exists logs. split; [exact Hq |].
    eapply Forall2_impl; [| exact Hl]. intros log m (_ & _ & _ & Hu). exact Hu.
  - apply aave_getMovements_Ok in H.
    destruct H as (logs & Hq & Hl).
    exists logs. split; [exact Hq |].
    eapply Forall2_impl; [| exact Hl]. intros log m (_ & _ & _ & Hu). exact Hu.
Qed.

(** On the vault adapter a movement carries the [assets] of its log when
    they are below 2^53 in absolute value. *)
Lemma vault_movements_carry_small_amounts
    (provider : Provider) (this_buildMetadata : M Metadata)
    (userAddress a : string) (fromBlock toBlock : Z) (eventType : VaultEvent)
    (s : AdapterState) (l : list MovementsByBlock) (s' : AdapterState) :
  Vault.getMovements provider this_buildMetadata userAddress
    fromBlock toBlock eventType a s = (Ok l, s') ->
  exists logs,
    vault_queryFilter provider a eventType
      (Vault.movementFilter eventType userAddress) fromBlock toBlock
    = Ok logs /\
    Forall2 (fun log m => exists u,
               mv_tokens m = [u] /\
               (Z.abs (assets log) < 2 ^ 53 -> balanceRaw u = assets log))
            logs l.
Proof.
  intros H. apply vault_getMovements_Ok in H.
  destruct H as (metadata & s1 & pool & logs & _ & _ & Hq & Hl).
  exists logs. split; [exact Hq |].
  eapply Forall2_impl; [| exact Hl].
  intros log m (_ & _ & _ & u & Hu & Hb). exists u. split; [exact Hu |].
  intros Hsmall. rewrite (Number_exact _ Hsmall) in Hb. simpl in Hb.
  inversion Hb. reflexivity.
Qed.

(** C1 (where the code departs from it).  The vault adapter's [getDeposits]
    on a [Deposit] log whose [assets] are 2^53 + 1 returns a movement whose
    [balanceRaw] is 2^53: the amount went through [Number]. *)
Theorem vault_getDeposits_rounds_the_amount :
  vault_queryFilter Sample.provider Sample.marketA Deposit
    (Vault.movementFilter Deposit Sample.user) 0 100
  = Ok [Sample.deposit1] /\
  assets Sample.deposit1 = 9007199254740993 /\
  exists l s',
    Vault.getDeposits Sample.provider (Vault.buildMetadata Sample.provider [])
      Sample.user 0 100 Sample.marketA fresh = (Ok l, s') /\
    map (fun m => map (@balanceRaw Z) (mv_tokens m)) l = [[9007199254740992]].
Proof.
  split; [vm_compute; reflexivity |]. split; [reflexivity |].
  eexists. eexists. split; [lazy; reflexivity | reflexivity].
Qed.

(** ** Looking up an address the metadata does not have *)

(** C3 as stated fails on the Aave base: a movement query against an address
    that is not a key of the metadata, for which the chain has no log,
    returns the empty list and throws nothing. *)
Lemma aave_movement_query_of_absent_address_returns_empty :
  is_address Sample.stranger = true /\
  (exists metadata s',
     Aave.buildMetadata Sample.provider [] fresh = (Ok metadata, s') /\
     obj_get metadata Sample.stranger = None) /\
  Aave.getDeposits Sample.provider (Aave.buildMetadata Sample.provider [])
    Sample.user Sample.stranger 0 100 fresh = (Ok [], fresh) /\
  forall s',
    Aave.getDeposits Sample.provider (Aave.buildMetadata Sample.provider [])
      Sample.user Sample.stranger 0 100 fresh
    <> (Throw pool_not_found, s').
Proof.
  split; [reflexivity |].
  split; [eexists; eexists; split; [lazy; reflexivity | reflexivity] |].
  split; [vm_compute; reflexivity |].
  intros s' H. vm_compute in H. discriminate H.
Qed.

(** Which rejection a [Promise.all] can report. *)
Lemma promiseAll_Throw A (tasks : list (M A)) :
  forall s e s',
    promiseAll tasks s = (Throw e, s') ->
    exists t s0 s1, In t tasks /\ t s0 = (Throw e, s1).
Proof.
  induction tasks as [| t ts IH]; simpl; intros s e s' H.
  - discriminate H.
  - destruct (t s) as [r s1] eqn:Et.
    destruct (promiseAll ts s1) as [rs s2] eqn:Ets.
    destruct r as [a | e0].
    + destruct rs as [l | e1]; inversion H; subst.
      destruct (IH _ _ _ Ets) as (t' & s0 & s3 & Hin & Ht).
      exists t', s0, s3. split; [right; exact Hin | exact Ht].
    + inversion H; subst. exists t, s, s1.
      split; [left; reflexivity | exact Et].
Qed.

(** When one task rejects with [e] and no task can reject otherwise, the
    [Promise.all] rejects with [e], whichever rejection comes first. *)
Lemma promiseAll_map_rejects_with X A (f : X -> M A) (xs : list X) x e :
  In x xs ->
  (forall s0, exists s1, f x s0 = (Throw e, s1)) ->
  (forall y s0 e' s1, In y xs -> f y s0 = (Throw e', s1) -> e' = e) ->
  forall s, exists s', promiseAll (map f xs) s = (Throw e, s').
Proof.
  intros Hin Hx Hall s.
  destruct (@promiseAll_rejects A (map f xs) (f x)) with (s := s)
    as (e' & s' & H).
  - apply in_map. exact Hin.
  - intros s0. destruct (Hx s0) as [s1 H1]. exists e, s1. exact H1.
  - exists s'. rewrite H.
    destruct (promiseAll_Throw _ _ H) as (t & s0 & s1 & Hint & Ht).
    apply in_map_iff in Hint. destruct Hint as (y & <- & Hy).
    rewrite (Hall y s0 e' s1 Hy Ht). reflexivity.
Qed.

Lemma bind_Throw_inv A B (m : M A) (k : A -> M B) s e s' :
  bind m k s = (Throw e, s') ->
  m s = (Throw e, s') \/
  exists a s1, m s = (Ok a, s1) /\ k a s1 = (Throw e, s').
Proof.
  unfold bind. destruct (m s) as [[a | e0] s1]; intros H.
  - right. exists a, s1. split; [reflexivity | exact H].
  - left. inversion H. reflexivity.
Qed.

(** With the mapping available to every lookup, a lookup can only fail for
    want of the entry. *)
Section ServedLookups.

Variable this_buildMetadata : M Metadata.
Variable metadata : Metadata.
Hypothesis served :
  forall s0, exists s1, this_buildMetadata s0 = (Ok metadata, s1).

Lemma aave_fetchPoolMetadata_fails a s0 e s1 :
  Aave.fetchPoolMetadata this_buildMetadata a s0 = (Throw e, s1) ->
  e = pool_not_found.
Proof.
  unfold Aave.fetchPoolMetadata, bind.
  destruct (served s0) as [s2 ->].
  destruct (obj_get metadata a); intros H; inversion H; reflexivity.
Qed.

Lemma aave_movementTask_fails log s0 e s1 :
  Aave.movementTask this_buildMetadata log s0 = (Throw e, s1) ->
  e = pool_not_found.
Proof.
  unfold Aave.movementTask.
  destruct (negb (pl_decoded log)); [discriminate |].
  unfold Aave.fetchProtocolTokenMetadata, Aave.fetchUnderlyingTokensMetadata.
  intros H.
  apply bind_Throw_inv in H. destruct H as [H | (pt & s2 & _ & H)].
  - apply bind_Throw_inv in H. destruct H as [H | (pool & s2 & _ & H)].
    + eapply aave_fetchPoolMetadata_fails. exact H.
    + discriminate H.
  - apply bind_Throw_inv in H. destruct H as [H | (ut & s3 & _ & H)].
    + apply bind_Throw_inv in H. destruct H as [H | (pool & s3 & _ & H)].
      * eapply aave_fetchPoolMetadata_fails. exact H.
      * discriminate H.
    + discriminate H.
Qed.

Lemma vault_lookups_of_absent_address a s0 :
  obj_get metadata a = None ->
  fst (Vault.getProtocolToken this_buildMetadata a s0) = Throw pool_not_found /\
  fst (Vault.getUnderlyingToken this_buildMetadata a s0)
  = Throw pool_not_found.
Proof.
  intros Hg. destruct (served s0) as [s1 Hb].
  pose proof (@vault_fetchPoolMetadata_absent this_buildMetadata a s0
                metadata s1 Hb Hg) as Hv.
  unfold Vault.getProtocolToken, Vault.getUnderlyingToken.
  split; erewrite bind_Throw by exact Hv; reflexivity.
Qed.

End ServedLookups.

(** C3, amended.  For an address that is not a key of the mapping
    [buildMetadata] returns: the lookup ([_fetchPoolMetadata],
    [fetchPoolMetadata]) and the per-token fetches built on it throw
    [Error('Protocol token pool not found')] on the three adapters; so do
    the movement queries of the Compound base and the vault adapter's
    [unwrap], which make that lookup first and by itself.  The vault
    adapter's movement query makes its two lookups at once, and a movement
    query of the Aave base looks up, per log it got back, the pool token of
    the log instead of the queried address.  With the mapping available to
    every lookup, each of the vault's two lookups rejects with that error and
    so does the query; on the Aave base no task of a log can reject
    otherwise, so the query throws that error when a log that came with its
    arguments carries the absent address; it returns the empty list when the
    query has no log.  (The address has the shape of an address, so that
    reading it off the mapping cannot find a member every object
    inherits.) *)
Theorem absent_address_throws_pool_not_found
    (provider : Provider) (this_buildMetadata : M Metadata)
    (UnwrapExchangeRate : Type)
    (unwrapOneToOne :
       Erc20Metadata -> list Erc20Metadata -> Outcome UnwrapExchangeRate)
    (a : string) (s : AdapterState) (metadata : Metadata) (s' : AdapterState) :
  is_address a = true ->
  this_buildMetadata s = (Ok metadata, s') ->
  obj_get metadata a = None ->
  (Compound._fetchPoolMetadata this_buildMetadata a s
   = (Throw pool_not_found, s') /\
   Aave.fetchPoolMetadata this_buildMetadata a s
   = (Throw pool_not_found, s') /\
   Vault.fetchPoolMetadata this_buildMetadata a s
   = (Throw pool_not_found, s')) /\
  (Compound.fetchProtocolTokenMetadata this_buildMetadata a s
   = (Throw pool_not_found, s') /\
   Compound.fetchUnderlyingTokensMetadata this_buildMetadata a s
   = (Throw pool_not_found, s') /\
   Aave.fetchProtocolTokenMetadata this_buildMetadata a s
   = (Throw pool_not_found, s') /\
   Aave.fetchUnderlyingTokensMetadata this_buildMetadata a s
   = (Throw pool_not_found, s') /\
   Vault.getProtocolToken this_buildMetadata a s
   = (Throw pool_not_found, s') /\
   Vault.getUnderlyingToken this_buildMetadata a s
   = (Throw pool_not_found, s')) /\
  (forall userAddress fromBlock toBlock eventType,
     Compound._getMovements provider this_buildMetadata userAddress a
       fromBlock toBlock eventType s = (Throw pool_not_found, s')) /\
  (forall userAddress fromBlock toBlock eventType,
     (forall s0, exists s1, this_buildMetadata s0 = (Ok metadata, s1)) ->
     (forall s0,
        fst (Vault.getProtocolToken this_buildMetadata a s0)
        = Throw pool_not_found /\
        fst (Vault.getUnderlyingToken this_buildMetadata a s0)
        = Throw pool_not_found) /\
     exists s2,
       Vault.getMovements provider this_buildMetadata userAddress
         fromBlock toBlock eventType a s = (Throw pool_not_found, s2)) /\
  (forall blockNumber,
     Vault.unwrap this_buildMetadata unwrapOneToOne
       {| protocolTokenAddress := a; ui_blockNumber := blockNumber |} s
     = (Throw pool_not_found, s')) /\
  (forall userAddress fromBlock toBlock eventType log logs,
     (forall s0, exists s1, this_buildMetadata s0 = (Ok metadata, s1)) ->
     pool_queryFilter provider Aave.LQGAaveV2ContractAddress
       (fst (Aave.movementFilter eventType userAddress a))
       (snd (Aave.movementFilter eventType userAddress a))
       fromBlock toBlock = Ok logs ->
     In log logs ->
     pl_decoded log = true ->
     _poolToken log = a ->
     (forall log' s0 e s1,
        Aave.movementTask this_buildMetadata log' s0 = (Throw e, s1) ->
        e = pool_not_found) /\
     exists s2,
       Aave.getMovements provider this_buildMetadata userAddress a
         fromBlock toBlock eventType s = (Throw pool_not_found, s2)) /\
  (forall userAddress fromBlock toBlock eventType,
     pool_queryFilter provider Aave.LQGAaveV2ContractAddress
       (fst (Aave.movementFilter eventType userAddress a))
       (snd (Aave.movementFilter eventType userAddress a))
       fromBlock toBlock = Ok [] ->
     Aave.getMovements provider this_buildMetadata userAddress a
       fromBlock toBlock eventType s = (Ok [], s)).
Proof.
  intros _ Hb Hg.
  pose proof (compound_fetchPoolMetadata_absent _ _ _ Hb Hg) as Hc.
  pose proof (aave_fetchPoolMetadata_absent _ _ _ Hb Hg) as Ha.
  pose proof (vault_fetchPoolMetadata_absent _ _ _ Hb Hg) as Hv.
  assert (Compound.fetchProtocolTokenMetadata this_buildMetadata a s
          = (Throw pool_not_found, s')) as Hcp
    by (apply bind_Throw; exact Hc).
  assert (Vault.getProtocolToken this_buildMetadata a s
          = (Throw pool_not_found, s')) as Hvp
    by (apply bind_Throw; exact Hv).
  assert (Aave.fetchProtocolTokenMetadata this_buildMetadata a s
          = (Throw pool_not_found, s')) as Hap
    by (apply bind_Throw; exact Ha).
  split; [repeat split; assumption |].
  split.
  { repeat split; try assumption; apply bind_Throw; assumption. }
  split.
  { intros. apply bind_Throw. exact Hcp. }
  split.
  { intros userAddress fromBlock toBlock eventType Hserved.
    split.
    - intros s0. eapply vault_lookups_of_absent_address; eassumption.
    - unfold Vault.getMovements, bind, promiseAll2. rewrite Hvp.
      destruct (Vault.getUnderlyingToken this_buildMetadata a s') as [r s2].
      exists s2. reflexivity. }
  split.
  { intros blockNumber. apply bind_Throw. exact Hvp. }
  split.
  - intros userAddress fromBlock toBlock eventType log logs Hserved Hq Hin
      Hd Hp.
    split.
    { intros log' s0 e s1 Ht.
      eapply aave_movementTask_fails; eassumption. }
    unfold Aave.getMovements.
    destruct (Aave.movementFilter eventType userAddress a) as [event filter].
    simpl in Hq. unfold bind at 1. unfold call. rewrite Hq.
    destruct (@promiseAll_map_rejects_with _ _
                (Aave.movementTask this_buildMetadata) logs log
                pool_not_found Hin) with (s := s) as (s2 & Hall).
    + intros s0. destruct (Hserved s0) as [s1 Hb0].
      exists s1. unfold Aave.movementTask. rewrite Hd. simpl.
      apply bind_Throw. apply bind_Throw. rewrite Hp.
      eapply aave_fetchPoolMetadata_absent; eassumption.
    + intros y s0 e' s1 _ Ht.
      eapply aave_movementTask_fails; eassumption.
    + exists s2. apply bind_Throw. exact Hall.
  - intros userAddress fromBlock toBlock eventType Hq.
    unfold Aave.getMovements.
    destruct (Aave.movementFilter eventType userAddress a) as [event filter].
    simpl in Hq. unfold bind, call. rewrite Hq. reflexivity.
Qed.

Lemma absent_address_throws_pool_not_found_witness :
  is_address Sample.stranger = true /\
  (exists metadata s',
     Compound.buildMetadata Sample.provider [] fresh = (Ok metadata, s') /\
     obj_get metadata Sample.stranger = None /\
     Compound._fetchPoolMetadata (Compound.buildMetadata Sample.provider [])
       Sample.stranger fresh = (Throw pool_not_found, s') /\
     Compound._getMovements Sample.provider
       (Compound.buildMetadata Sample.provider [])
       Sample.user Sample.stranger 0 100 supplied fresh
     = (Throw pool_not_found, s')) /\
  (exists s2,
     Vault.getMovements Sample.provider
       (Vault.buildMetadata Sample.provider [])
       Sample.user 0 100 Deposit Sample.stranger fresh
     = (Throw pool_not_found, s2)) /\
  (exists s2,
     Aave.getMovements Sample2.provider_unlisted_log
       (Aave.buildMetadata Sample2.provider_unlisted_log [])
       Sample.user Sample.stranger 0 100 supplied fresh
     = (Throw pool_not_found, s2)).
Proof.
  split; [reflexivity |].
  split; [| split].
  - eexists. eexists.
    split; [lazy; reflexivity |]. split; [reflexivity |].
    edestruct (@absent_address_throws_pool_not_found
                 Sample.provider (Compound.buildMetadata Sample.provider [])
                 _ Sample.unwrapOneToOne Sample.stranger fresh)
      as ((Hc & _) & _ & Hm & _).
    + reflexivity.
    + lazy. reflexivity.
    + reflexivity.
    + split; [exact Hc | apply Hm].
  - edestruct (@absent_address_throws_pool_not_found
                 Sample.provider (Vault.buildMetadata Sample.provider [])
                 _ Sample.unwrapOneToOne Sample.stranger fresh)
      as (_ & _ & _ & Hv & _).
    + reflexivity.
    + lazy. reflexivity.
    + reflexivity.
    + edestruct (Hv Sample.user 0 100 Deposit) as [_ Hq].
      * intros s0. eexists. lazy. reflexivity.
      * exact Hq.
  - edestruct (@absent_address_throws_pool_not_found
                 Sample2.provider_unlisted_log
                 (Aave.buildMetadata Sample2.provider_unlisted_log [])
                 _ Sample.unwrapOneToOne Sample.stranger fresh)
      as (_ & _ & _ & _ & _ & Ha & _).
    + reflexivity.
    + lazy. reflexivity.
    + reflexivity.
    + edestruct (Ha Sample.user 0 100 supplied Sample2.supplied_unlisted
                   [Sample2.supplied_unlisted]) as [_ Hq].
      * intros s0. eexists. lazy. reflexivity.
      * vm_compute. reflexivity.
      * left. reflexivity.
      * reflexivity.
      * reflexivity.
      * exact Hq.
Defined.

(** ** Building the metadata twice *)

(** The tasks of a build only await provider calls: their outcome does not
    depend on the state of the instance, which they leave as it is. *)
Lemma promiseAll_stateless X A (f : X -> M A) (xs : list X) :
  (forall x, exists o, forall s, f x s = (o, s)) ->
  exists o, forall s, promiseAll (map f xs) s = (o, s).
Proof.
  intros Hf. induction xs as [| x xs IH]; simpl.
  - exists (Ok []). reflexivity.
  - destruct (Hf x) as [o Ho]. destruct IH as [os Hos].
    exists (match o, os with
            | Ok a, Ok l => Ok (a :: l)
            | Throw e, _ => Throw e
            | Ok _, Throw e => Throw e
            end).
    intros s. rewrite Ho, Hos. reflexivity.
Qed.

Ltac settle_metadata_calls :=
  repeat match goal with
         | |- context [getTokenMetadata ?p ?a] =>
             destruct (getTokenMetadata p a)
         end;
  eexists; intros ?; reflexivity.

Lemma compound_marketTask_stateless provider market :
  exists o, forall s, Compound.marketTask provider market s = (o, s).
Proof.
  unfold Compound.marketTask, bind, catch, call, ret, throw, promiseAll2.
  destruct (underlying provider market) as [u | e]; [| destruct e]; simpl;
    settle_metadata_calls.
Qed.





Lemma compound_buildMetadata_cached provider schedule s metadata :
  _metadataCache s = Some metadata ->
  Compound.buildMetadata provider schedule s = (Ok metadata, s).
Proof. unfold Compound.buildMetadata. intros ->. reflexivity. Qed.

Lemma compound_buildMetadata_uncached provider schedule :
  exists o : Outcome (list (string * PoolMetadata)), forall s,
    _metadataCache s = None ->
    Compound.buildMetadata provider schedule s
    = match o with
      | Ok entries =>
          (Ok (assign_all entries),
           cache_written (assign_all entries) (registry_read s))
      | Throw e => (Throw e, registry_read s)
      end.
Proof.
  unfold Compound.buildMetadata, bind, enumerate, set_metadataCache, ret.
  destruct (getAllMarkets provider Compound.LQGCompoundV2ContractAddress)
    as [markets | e].
  - destruct (promiseAll_stateless (Compound.marketTask provider)
                (complete schedule markets)
                (compound_marketTask_stateless provider)) as [[entries | e] Ho].
    + exists (Ok entries). intros s ->. rewrite Ho. reflexivity.
    + exists (Throw e). intros s ->. rewrite Ho. reflexivity.
  - exists (Throw e). intros s ->. reflexivity.
Qed.



Lemma compound_buildMetadata_sets_cache provider schedule s metadata s1 :
  Compound.buildMetadata provider schedule s = (Ok metadata, s1) ->
  _metadataCache s1 = Some metadata.
Proof.
  intros H. destruct (_metadataCache s) as [cached |] eqn:Ec.
  - rewrite (compound_buildMetadata_cached provider schedule _ Ec) in H.
    inversion H; subst. exact Ec.
  - destruct (compound_buildMetadata_uncached provider schedule) as [o Ho].
    rewrite (Ho s Ec) in H. destruct o as [entries | e]; inversion H.
    reflexivity.
Qed.






(** ** Completion orders *)

Lemma nth_error_extract A (l : list A) :
  forall i x, nth_error l i = Some x ->
  Permutation (x :: (firstn i l ++ skipn (S i) l)) l.
Proof.
  induction l as [| y l IH]; intros [| i] x H; simpl in H; try discriminate H.
  - inversion H; subst. simpl. apply Permutation_refl.
  - simpl. eapply perm_trans; [apply perm_swap |].
    apply perm_skip. apply IH. exact H.
Qed.

Lemma complete_Permutation A (schedule : list nat) :
  forall l : list A, Permutation (complete schedule l) l.
Proof.
  induction schedule as [| n schedule IH]; intros l; simpl.
  - apply Permutation_refl.
  - destruct (nth_error l (Nat.modulo n (List.length l))) as [x |] eqn:E.
    + eapply perm_trans; [apply perm_skip; apply IH |].
      apply nth_error_extract. exact E.
    + apply Permutation_refl.
Qed.

Lemma complete_In A (schedule : list nat) (l : list A) x :
  In x l -> In x (complete schedule l).
Proof.
  intros H. eapply Permutation_in; [| exact H].
  apply Permutation_sym. apply complete_Permutation.
Qed.

(** ** The vault's share division on unequal decimals *)

Section ShareDivision.

Variable provider : Provider.
Variable this_buildMetadata : M Metadata.

Lemma vault_getUnderlyingToken_served metadata a pool :
  (forall s, this_buildMetadata s = (Ok metadata, s)) ->
  obj_get metadata a = Some pool ->
  forall s,
    Vault.getUnderlyingToken this_buildMetadata a s
    = (Ok (underlyingToken pool), s).
Proof.
  intros Hb Hg s.
  unfold Vault.getUnderlyingToken, Vault.fetchPoolMetadata, bind.
  rewrite Hb, Hg. reflexivity.
Qed.

Lemma vault_positionTask_negative_exponent metadata userAddress blockNumber
    pt pool b vaultDecimals assetDecimals :
  (forall s, this_buildMetadata s = (Ok metadata, s)) ->
  obj_get metadata (address pt) = Some pool ->
  balanceOf provider (address pt) userAddress blockNumber = Ok b ->
  erc20_decimals provider (address pt) = Ok vaultDecimals ->
  erc20_decimals provider (address (underlyingToken pool)) = Ok assetDecimals ->
  0 < b ->
  vaultDecimals < assetDecimals ->
  forall s,
    Vault.positionTask provider this_buildMetadata userAddress blockNumber pt s
    = (Throw (RangeError "Exponent must be non-negative"), s).
Proof.
  intros Hb Hg Hbal Hvd Had Hpos Hlt s.
  unfold Vault.positionTask.
  erewrite bind_step;
    [| eapply vault_getUnderlyingToken_served; eassumption].
  unfold bind at 1. unfold promiseAll2, call. rewrite Hbal, Hvd, Had.
  destruct (Z.ltb_spec 0 b) as [_ | C]; [| lia].
  erewrite bind_step;
    [| eapply vault_getUnderlyingToken_served; eassumption].
  unfold bind. rewrite (shareBalance_negative _ Hlt). reflexivity.
Qed.

Lemma vault_positionTask_skips metadata userAddress blockNumber
    pt pool b vaultDecimals assetDecimals :
  (forall s, this_buildMetadata s = (Ok metadata, s)) ->
  obj_get metadata (address pt) = Some pool ->
  balanceOf provider (address pt) userAddress blockNumber = Ok b ->
  erc20_decimals provider (address pt) = Ok vaultDecimals ->
  erc20_decimals provider (address (underlyingToken pool)) = Ok assetDecimals ->
  b <= 0 ->
  forall s,
    Vault.positionTask provider this_buildMetadata userAddress blockNumber pt s
    = (Ok [], s).
Proof.
  intros Hb Hg Hbal Hvd Had Hle s.
  unfold Vault.positionTask.
  erewrite bind_step;
    [| eapply vault_getUnderlyingToken_served; eassumption].
  unfold bind at 1. unfold promiseAll2, call. rewrite Hbal, Hvd, Had.
  destruct (Z.ltb_spec 0 b) as [C | _]; [lia | reflexivity].
Qed.

End ShareDivision.

(** C9 as stated fails: with assetDecimals above vaultDecimals and a share
    balance of zero [getPositions] does not fail; it returns the empty
    list. *)
Lemma vault_getPositions_without_shares_does_not_fail :
  erc20_decimals Sample.provider_no_shares Sample.marketA = Ok 6 /\
  erc20_decimals Sample.provider_no_shares Sample.assetA = Ok 18 /\
  balanceOf Sample.provider_no_shares Sample.marketA Sample.user (Some 100)
  = Ok 0 /\
  fst (Vault.getPositions Sample.provider_no_shares
         (Vault.buildMetadata Sample.provider_no_shares [])
         Sample.user (Some 100) None [] fresh)
  = Ok [].
Proof. repeat split; vm_compute; reflexivity. Qed.

(** C9, amended.  The expression
    [balanceRaw / 10n ** (vaultDecimal - assetDecimals)] raises the
    negative-exponent [RangeError] exactly when assetDecimals exceeds
    vaultDecimals, and otherwise is the truncated quotient.  It is evaluated
    only for a vault in which the user's share balance is positive: with the
    metadata served, [getPositions] fails when one of the vaults it visits has
    a positive balance and assetDecimals above vaultDecimals (that vault's own
    task throwing the [RangeError]), and a vault with no positive balance is
    skipped whatever its decimals. *)
Theorem vault_share_division_needs_vault_decimals_at_least_asset_decimals
    (provider : Provider) (this_buildMetadata : M Metadata)
    (userAddress : string) (blockNumber : option Z)
    (protocolTokenAddresses : option (list string)) (schedule : list nat)
    (metadata : Metadata) (pt : Erc20Metadata) (pool : PoolMetadata)
    (b vaultDecimals assetDecimals : Z) :
  (vaultDecimals < assetDecimals ->
   Vault.shareBalance b vaultDecimals assetDecimals
   = Throw (RangeError "Exponent must be non-negative")) /\
  (assetDecimals <= vaultDecimals ->
   Vault.shareBalance b vaultDecimals assetDecimals
   = Ok (Z.quot b (10 ^ (vaultDecimals - assetDecimals)))) /\
  ((forall s, this_buildMetadata s = (Ok metadata, s)) ->
   In pt (Vault.filterTokens protocolTokenAddresses
            (map pm_protocolToken (Object_values metadata))) ->
   obj_get metadata (address pt) = Some pool ->
   balanceOf provider (address pt) userAddress blockNumber = Ok b ->
   erc20_decimals provider (address pt) = Ok vaultDecimals ->
   erc20_decimals provider (address (underlyingToken pool))
   = Ok assetDecimals ->
   (0 < b ->
    vaultDecimals < assetDecimals ->
    forall s,
      Vault.positionTask provider this_buildMetadata userAddress blockNumber
        pt s
      = (Throw (RangeError "Exponent must be non-negative"), s) /\
      exists e s',
        Vault.getPositions provider this_buildMetadata userAddress blockNumber
          protocolTokenAddresses schedule s = (Throw e, s')) /\
   (b <= 0 ->
    forall s,
      Vault.positionTask provider this_buildMetadata userAddress blockNumber
        pt s = (Ok [], s))).
Proof.
  split; [apply shareBalance_negative |].
  split; [apply shareBalance_total |].
  intros Hb Hin Hg Hbal Hvd Had. split.
  - intros Hpos Hlt s.
    assert (forall s0,
              Vault.positionTask provider this_buildMetadata userAddress
                blockNumber pt s0
              = (Throw (RangeError "Exponent must be non-negative"), s0))
      as Htask
      by (eapply vault_positionTask_negative_exponent; eassumption).
    split; [apply Htask |].
    unfold Vault.getPositions, Vault.getProtocolTokens.
    unfold bind at 1. unfold bind at 1. rewrite Hb. unfold ret at 1.
    cbv zeta.
    destruct (promiseAll_rejects
                (map (Vault.positionTask provider this_buildMetadata
                        userAddress blockNumber)
                     (complete schedule
                        (Vault.filterTokens protocolTokenAddresses
                           (map pm_protocolToken (Object_values metadata)))))
                (Vault.positionTask provider this_buildMetadata
                   userAddress blockNumber pt)) with (s := s)
      as (e & s' & Hall).
    + apply in_map. apply complete_In. exact Hin.
    + intros s0. eexists. eexists. apply Htask.
    + exists e, s'. apply bind_Throw. exact Hall.
  - intros Hle. eapply vault_positionTask_skips; eassumption.
Qed.

Lemma vault_share_division_needs_vault_decimals_at_least_asset_decimals_witness :
  Vault.shareBalance (5 * 10 ^ 18) 6 18
  = Throw (RangeError "Exponent must be non-negative") /\
  Vault.shareBalance (5 * 10 ^ 18) 18 6 = Ok (Z.quot (5 * 10 ^ 18) (10 ^ 12)) /\
  exists e s',
    Vault.getPositions Sample.provider_few_decimals
      (ret Sample.vaultMetadata) Sample.user (Some 100) None [] fresh
    = (Throw e, s').
Proof.
  pose proof (vault_share_division_needs_vault_decimals_at_least_asset_decimals
                Sample.provider_few_decimals (ret Sample.vaultMetadata)
                Sample.user (Some 100) None []
                Sample.vaultMetadata (Sample.metadataOf Sample.marketA)
                {| pm_protocolToken := Sample.metadataOf Sample.marketA;
                   underlyingToken := Sample.metadataOf Sample.assetA |}
                (5 * 10 ^ 18) 6 18) as (Hneg & _ & Hfail).
  pose proof (vault_share_division_needs_vault_decimals_at_least_asset_decimals
                Sample.provider (ret Sample.vaultMetadata)
                Sample.user (Some 100) None []
                Sample.vaultMetadata (Sample.metadataOf Sample.marketA)
                {| pm_protocolToken := Sample.metadataOf Sample.marketA;
                   underlyingToken := Sample.metadataOf Sample.assetA |}
                (5 * 10 ^ 18) 18 6) as (_ & Htotal & _).
  split; [apply Hneg; lia |].
  split; [apply Htotal; lia |].
  destruct Hfail as [Hfail _].
  - intros s. reflexivity.
  - simpl. left. reflexivity.
  - reflexivity.
  - reflexivity.
  - reflexivity.
  - reflexivity.
  - destruct (Hfail ltac:(lia) ltac:(lia) fresh) as [_ H]. exact H.
Defined.

(** ** Entries of a built mapping *)

Lemma Forall2_In_l A B (R : A -> B -> Prop) xs ys x :
  Forall2 R xs ys -> In x xs -> exists y, In y ys /\ R x y.
Proof.
  induction 1 as [| x0 y0 xs ys Hxy _ IH]; intros Hin; [contradiction |].
  destruct Hin as [-> | Hin].
  - exists y0. split; [left; reflexivity | exact Hxy].
  - destruct (IH Hin) as (y & Hy & Hr). exists y. split; [right |]; assumption.
Qed.

Lemma Forall2_In_r A B (R : A -> B -> Prop) xs ys y :
  Forall2 R xs ys -> In y ys -> exists x, In x xs /\ R x y.
Proof.
  induction 1 as [| x0 y0 xs ys Hxy _ IH]; intros Hin; [contradiction |].
  destruct Hin as [-> | Hin].
  - exists x0. split; [left; reflexivity | exact Hxy].
  - destruct (IH Hin) as (x & Hx & Hr). exists x. split; [right |]; assumption.
Qed.

Lemma obj_get_Some_In V (o : JsObject V) k v :
  obj_get o k = Some v -> In (k, v) o.
Proof.
  induction o as [| [k0 v0] o IH]; simpl; [discriminate |].
  destruct (String.eqb k0 k) eqn:E.
  - apply String.eqb_eq in E. intros H. inversion H; subst. left. reflexivity.
  - intros H. right. apply IH. exact H.
Qed.

Lemma obj_get_key V (o : JsObject V) k :
  In k (Object_keys o) -> exists v, obj_get o k = Some v.
Proof.
  unfold Object_keys. induction o as [| [k0 v0] o IH]; simpl; [contradiction |].
  intros [-> | Hin].
  - rewrite String.eqb_refl. eexists. reflexivity.
  - destruct (String.eqb k0 k); [eexists; reflexivity | apply IH; exact Hin].
Qed.

Lemma assign_all_keys V (entries : list (string * V)) k :
  In k (Object_keys (assign_all entries)) <-> In k (map fst entries).
Proof.
  unfold assign_all.
  assert (forall o : JsObject V,
            In k (Object_keys
                    (fold_left (fun o e => obj_set o (fst e) (snd e))
                               entries o))
            <-> In k (Object_keys o) \/ In k (map fst entries)) as G.
  { induction entries as [| e es IH]; simpl; intros o.
    - tauto.
    - rewrite IH, obj_set_keys.
      destruct (existsb (String.eqb (fst e)) (Object_keys o)) eqn:E.
      + apply existsb_exists in E. destruct E as (x & Hx & Ex).
        apply String.eqb_eq in Ex. subst x.
        split; [tauto |]. intros [H | [<- | H]]; tauto.
      + rewrite in_app_iff. simpl. tauto. }
  rewrite G. simpl. tauto.
Qed.

Lemma compound_marketTask_Ok provider market s e s' :
  Compound.marketTask provider market s = (Ok e, s') ->
  getTokenMetadata provider market = Ok (pm_protocolToken (snd e)) /\
  fst e = address (pm_protocolToken (snd e)) /\
  getTokenMetadata provider (address_or_zero (underlying provider market))
  = Ok (underlyingToken (snd e)).
Proof.
  unfold Compound.marketTask, bind, catch, call, ret, throw, promiseAll2.
  destruct (underlying provider market) as [u | err]; [| destruct err];
    simpl;
    destruct (getTokenMetadata provider market) as [pt | e1];
    match goal with
    | |- context [getTokenMetadata provider ?a] =>
        destruct (getTokenMetadata provider a) as [ut | e2]
    end;
    intros H; inversion H; subst; simpl; repeat split; reflexivity.
Qed.

Lemma aave_marketTask_Ok provider market s e s' :
  Aave.marketTask provider market s = (Ok e, s') ->
  getTokenMetadata provider market = Ok (pm_protocolToken (snd e)) /\
  fst e = address (pm_protocolToken (snd e)) /\
  getTokenMetadata provider
    (address_or_zero (UNDERLYING_ASSET_ADDRESS provider market))
  = Ok (underlyingToken (snd e)).
Proof.
  unfold Aave.marketTask, bind, catch, call, ret, throw, promiseAll2.
  destruct (UNDERLYING_ASSET_ADDRESS provider market) as [u | err];
    [| destruct err];
    simpl;
    destruct (getTokenMetadata provider market) as [pt | e1];
    match goal with
    | |- context [getTokenMetadata provider ?a] =>
        destruct (getTokenMetadata provider a) as [ut | e2]
    end;
    intros H; inversion H; subst; simpl; repeat split; reflexivity.
Qed.

Lemma vault_vaultTask_Ok provider v s e s' :
  Vault.vaultTask provider v s = (Ok e, s') ->
  fst e = fst v /\
  getTokenMetadata provider (fst v) = Ok (pm_protocolToken (snd e)) /\
  getTokenMetadata provider (snd v) = Ok (underlyingToken (snd e)).
Proof.
  destruct v as [vault asset].
  unfold Vault.vaultTask, bind, call, ret, promiseAll2. simpl.
  destruct (getTokenMetadata provider vault) as [pt | e1];
    destruct (getTokenMetadata provider asset) as [ut | e2];
    intros H; inversion H; subst; simpl; repeat split; reflexivity.
Qed.




(** ** A market whose underlying-asset call fails *)



(** * Further properties of the adapters *)

(** ** A build that fails *)

(** X1.  On the Compound base a [buildMetadata] call that throws leaves
    [_metadataCache] unset (no partial mapping is kept), so the next call
    enumerates the registry again. *)
Theorem compound_failed_build_is_not_cached
    (provider provider' : Provider) (schedule schedule' : list nat)
    (s : AdapterState) (e : JsError) (s' : AdapterState) :
  Compound.buildMetadata provider schedule s = (Throw e, s') ->
  _metadataCache s' = None /\
  cacheWrites s' = cacheWrites s /\
  registryReads (snd (Compound.buildMetadata provider' schedule' s'))
  = S (registryReads s').
Proof.
  intros H.
  destruct (_metadataCache s) as [cached |] eqn:Ec.
  - rewrite (compound_buildMetadata_cached provider schedule _ Ec) in H.
    discriminate H.
  - destruct (compound_buildMetadata_uncached provider schedule) as [o Ho].
    rewrite (Ho s Ec) in H. destruct o as [entries | e0]; inversion H; subst.
    assert (_metadataCache (registry_read s) = None) as Ec' by exact Ec.
    split; [exact Ec' |]. split; [reflexivity |].
    destruct (compound_buildMetadata_uncached provider' schedule') as [o' Ho'].
    rewrite (Ho' _ Ec'). destruct o'; reflexivity.
Qed.

Lemma compound_failed_build_is_not_cached_witness :
  exists e s',
    Compound.buildMetadata
      (Sample2.variant (fun _ => Throw (ProviderError "timeout"))
         (getCurrentSupplyBalanceInOf Sample.provider)
         (getCurrentBorrowBalanceInOf Sample.provider) [] [] [])
      [] fresh = (Throw e, s') /\
    _metadataCache s' = None /\
    fst (Compound.buildMetadata Sample.provider [] s')
    = Ok Sample2.poolMetadata /\
    registryReads (snd (Compound.buildMetadata Sample.provider [] s'))
    = S (registryReads s').
Proof.
  eexists. eexists. split; [lazy; reflexivity |].
  edestruct (@compound_failed_build_is_not_cached
               (Sample2.variant (fun _ => Throw (ProviderError "timeout"))
                  (getCurrentSupplyBalanceInOf Sample.provider)
                  (getCurrentBorrowBalanceInOf Sample.provider) [] [] [])
               Sample.provider [] [] fresh) as (Hc & _ & Hr).
  - lazy. reflexivity.
  - split; [exact Hc |]. split; [vm_compute; reflexivity | exact Hr].
Defined.

(** ** What a built mapping holds *)

(** X2.  A mapping built by an optimizer base holds the registry's markets
    and nothing else: every entry is the token metadata of an enumerated
    market, stored under that metadata's address, with the metadata of the
    market's underlying asset (of the zero address when the underlying call
    failed); and every enumerated market can be looked up by the address of
    its token metadata, whatever the order in which the tasks completed. *)
Theorem optimizer_metadata_holds_the_registry
    (provider : Provider) (schedule : list nat)
    (s : AdapterState) (metadata : Metadata) (s' : AdapterState) :
  (_metadataCache s = None /\
   Compound.buildMetadata provider schedule s = (Ok metadata, s') ->
   exists markets,
     getAllMarkets provider Compound.LQGCompoundV2ContractAddress = Ok markets /\
     (forall k pool,
        obj_get metadata k = Some pool ->
        exists market,
          In market markets /\
          getTokenMetadata provider market = Ok (pm_protocolToken pool) /\
          address (pm_protocolToken pool) = k /\
          getTokenMetadata provider
            (address_or_zero (underlying provider market))
          = Ok (underlyingToken pool)) /\
     (forall market,
        In market markets ->
        exists token pool,
          getTokenMetadata provider market = Ok token /\
          obj_get metadata (address token) = Some pool)) /\
  (Aave.buildMetadata provider schedule s = (Ok metadata, s') ->
   exists markets,
     getMarketsCreated provider Aave.LQGAaveV2ContractAddress = Ok markets /\
     (forall k pool,
        obj_get metadata k = Some pool ->
        exists market,
          In market markets /\
          getTokenMetadata provider market = Ok (pm_protocolToken pool) /\
          address (pm_protocolToken pool) = k /\
          getTokenMetadata provider
            (address_or_zero (UNDERLYING_ASSET_ADDRESS provider market))
          = Ok (underlyingToken pool)) /\
     (forall market,
        In market markets ->
        exists token pool,
          getTokenMetadata provider market = Ok token /\
          obj_get metadata (address token) = Some pool)).
Proof.
  split.
  - intros [Hc H]. unfold Compound.buildMetadata in H. rewrite Hc in H.
    await H as markets s1 Hm. await H as entries s2 He.
    cbv zeta in H. await H as u s3 Hset. returned H.
    unfold enumerate in Hm. inversion Hm; subst.
    exists markets. split; [assumption |].
    apply promiseAll_map_Ok in He.
    split.
    + intros k pool Hg.
      apply (assign_all_get (fun k v => In (k, v) entries)) in Hg;
        [| apply Forall_forall; intros [k0 v0] Hin; exact Hin].
      destruct (Forall2_In_r _ He Hg) as (market & Hin & t1 & t2 & Ht).
      apply compound_marketTask_Ok in Ht. simpl in Ht.
      destruct Ht as (Hp & Hk & Hu).
      exists market. repeat split; try assumption; [| symmetry; exact Hk].
      eapply Permutation_in; [apply complete_Permutation | exact Hin].
    + intros market Hin.
      apply (complete_In schedule) in Hin.
      destruct (Forall2_In_l _ He Hin) as ([k pool] & Hine & t1 & t2 & Ht).
      apply compound_marketTask_Ok in Ht. simpl in Ht.
      destruct Ht as (Hp & Hk & _).
      destruct (@obj_get_key _ (assign_all entries) k) as [pool' Hpool'].
      { apply assign_all_keys. apply (in_map fst) in Hine. exact Hine. }
      exists (pm_protocolToken pool), pool'. rewrite <- Hk.
      split; assumption.
  - intros H. unfold Aave.buildMetadata in H.
    await H as markets s1 Hm. await H as entries s2 He. returned H.
    unfold enumerate in Hm. inversion Hm; subst.
    exists markets. split; [assumption |].
    apply promiseAll_map_Ok in He.
    split.
    + intros k pool Hg.
      apply (assign_all_get (fun k v => In (k, v) entries)) in Hg;
        [| apply Forall_forall; intros [k0 v0] Hin; exact Hin].
      destruct (Forall2_In_r _ He Hg) as (market & Hin & t1 & t2 & Ht).
      apply aave_marketTask_Ok in Ht. simpl in Ht.
      destruct Ht as (Hp & Hk & Hu).
      exists market. repeat split; try assumption; [| symmetry; exact Hk].
      eapply Permutation_in; [apply complete_Permutation | exact Hin].
    + intros market Hin.
      apply (complete_In schedule) in Hin.
      destruct (Forall2_In_l _ He Hin) as ([k pool] & Hine & t1 & t2 & Ht).
      apply aave_marketTask_Ok in Ht. simpl in Ht.
      destruct Ht as (Hp & Hk & _).
      destruct (@obj_get_key _ (assign_all entries) k) as [pool' Hpool'].
      { apply assign_all_keys. apply (in_map fst) in Hine. exact Hine. }
      exists (pm_protocolToken pool), pool'. rewrite <- Hk.
      split; assumption.
Qed.

Lemma optimizer_metadata_holds_the_registry_witness :
  exists metadata s',
    Compound.buildMetadata Sample.provider [1%nat] fresh = (Ok metadata, s') /\
    Object_keys metadata = [Sample.marketB; Sample.marketA] /\
    exists markets,
      getAllMarkets Sample.provider Compound.LQGCompoundV2ContractAddress
      = Ok markets /\
      (forall k pool,
         obj_get metadata k = Some pool ->
         exists market,
           In market markets /\
           getTokenMetadata Sample.provider market
           = Ok (pm_protocolToken pool) /\
           address (pm_protocolToken pool) = k /\
           getTokenMetadata Sample.provider
             (address_or_zero (underlying Sample.provider market))
           = Ok (underlyingToken pool)) /\
      (forall market,
         In market markets ->
         exists token pool,
           getTokenMetadata Sample.provider market = Ok token /\
           obj_get metadata (address token) = Some pool).
Proof.
  eexists. eexists. split; [lazy; reflexivity |]. split; [reflexivity |].
  edestruct (optimizer_metadata_holds_the_registry
               Sample.provider [1%nat] fresh) as [Hc _].
  apply Hc. split.
  - reflexivity.
  - vm_compute. reflexivity.
Defined.

(** X3.  The mapping the vault adapter builds holds the factory's vaults and
    nothing else: every entry is stored under the vault address of a
    [CreateMetaLQG] log, with the token metadata of that vault and of that
    log's asset; and every created vault is a key of the mapping. *)
Theorem vault_metadata_holds_the_created_vaults
    (provider : Provider) (schedule : list nat)
    (s : AdapterState) (metadata : Metadata) (s' : AdapterState) :
  Vault.buildMetadata provider schedule s = (Ok metadata, s') ->
  exists events,
    createMetaLQGLogs provider Vault.metaLQGFactoryContractAddress
    = Ok events /\
    (forall k pool,
       obj_get metadata k = Some pool ->
       exists event,
         In event events /\
         args0 event = k /\
         getTokenMetadata provider (args0 event)
         = Ok (pm_protocolToken pool) /\
         getTokenMetadata provider (args4 event) = Ok (underlyingToken pool)) /\
    (forall event,
       In event events ->
       exists pool, obj_get metadata (args0 event) = Some pool).
Proof.
  intros H. unfold Vault.buildMetadata in H.
  await H as events s1 Hm. cbv zeta in H.
  await H as entries s2 He. returned H.
  unfold enumerate in Hm. inversion Hm; subst.
  exists events. split; [assumption |].
  apply promiseAll_map_Ok in He.
  split.
  - intros k pool Hg.
    apply (assign_all_get (fun k v => In (k, v) entries)) in Hg;
      [| apply Forall_forall; intros [k0 v0] Hin; exact Hin].
    destruct (Forall2_In_r _ He Hg) as (v & Hin & t1 & t2 & Ht).
    apply vault_vaultTask_Ok in Ht. simpl in Ht.
    destruct Ht as (Hk & Hp & Hu).
    assert (In v (map (fun event => (args0 event, args4 event)) events))
      as Hv
      by (eapply Permutation_in; [apply complete_Permutation | exact Hin]).
    apply in_map_iff in Hv. destruct Hv as (event & <- & Hev).
    exists event. simpl in *. repeat split; try assumption.
    symmetry. exact Hk.
  - intros event Hin.
    apply (in_map (fun event => (args0 event, args4 event))) in Hin.
    apply (complete_In schedule) in Hin.
    destruct (Forall2_In_l _ He Hin) as ([k pool] & Hine & t1 & t2 & Ht).
    apply vault_vaultTask_Ok in Ht. simpl in Ht. destruct Ht as (Hk & _).
    subst k. apply obj_get_key. apply assign_all_keys.
    apply (in_map fst) in Hine. exact Hine.
Qed.

Lemma vault_metadata_holds_the_created_vaults_witness :
  exists metadata s',
    Vault.buildMetadata Sample2.provider_respelled [] fresh
    = (Ok metadata, s') /\
    metadata = Sample2.respelledMetadata /\
    exists events,
      createMetaLQGLogs Sample2.provider_respelled
        Vault.metaLQGFactoryContractAddress = Ok events /\
      (forall k pool,
         obj_get metadata k = Some pool ->
         exists event,
           In event events /\
           args0 event = k /\
           getTokenMetadata Sample2.provider_respelled (args0 event)
           = Ok (pm_protocolToken pool) /\
           getTokenMetadata Sample2.provider_respelled (args4 event)
           = Ok (underlyingToken pool)) /\
      (forall event,
         In event events ->
         exists pool, obj_get metadata (args0 event) = Some pool).
Proof.
  eexists. eexists. split; [lazy; reflexivity |]. split; [reflexivity |].
  eapply (vault_metadata_holds_the_created_vaults
            Sample2.provider_respelled [] fresh).
  vm_compute. reflexivity.
Defined.

(** ** Calls that leave the instance as it is *)

Lemma keeps_ret A (a : A) s : keeps s (ret a).
Proof. reflexivity. Qed.

Lemma keeps_throw A e s : keeps s (@throw A e).
Proof. reflexivity. Qed.

Lemma keeps_call A (o : Outcome A) s : keeps s (call o).
Proof. reflexivity. Qed.

Lemma keeps_bind A B (m : M A) (k : A -> M B) s :
  keeps s m -> (forall a, keeps s (k a)) -> keeps s (bind m k).
Proof.
  unfold keeps, bind. intros Hm Hk.
  destruct (m s) as [[a | e] s1]; simpl in Hm; subst s1; [apply Hk | reflexivity].
Qed.

Lemma keeps_promiseAll2 A B (a : M A) (b : M B) s :
  keeps s a -> keeps s b -> keeps s (promiseAll2 a b).
Proof.
  unfold keeps, promiseAll2. intros Ha Hb.
  destruct (a s) as [ra s1]; simpl in Ha; subst s1.
  destruct (b s) as [rb s2]; simpl in Hb; subst s2. reflexivity.
Qed.

Lemma keeps_promiseAll A (tasks : list (M A)) s :
  (forall t, In t tasks -> keeps s t) -> keeps s (promiseAll tasks).
Proof.
  unfold keeps. induction tasks as [| t ts IH]; intros H; simpl; [reflexivity |].
  pose proof (H t (or_introl eq_refl)) as Ht.
  destruct (t s) as [r s1]; simpl in Ht; subst s1.
  assert (snd (promiseAll ts s) = s) as Hts
    by (apply IH; intros t' Hin; apply H; right; exact Hin).
  destruct (promiseAll ts s) as [rs s2]; simpl in Hts; subst s2. reflexivity.
Qed.

Lemma keeps_promiseAll_map X A (f : X -> M A) (xs : list X) s :
  (forall x, keeps s (f x)) -> keeps s (promiseAll (map f xs)).
Proof.
  intros H. apply keeps_promiseAll. intros t Hin.
  apply in_map_iff in Hin. destruct Hin as (x & <- & _). apply H.
Qed.

(** Tasks that all resolve, leaving the instance as it is. *)
Lemma promiseAll_map_fixed X A (f : X -> M A) (g : X -> A) (xs : list X) s :
  (forall x, In x xs -> f x s = (Ok (g x), s)) ->
  promiseAll (map f xs) s = (Ok (map g xs), s).
Proof.
  induction xs as [| x xs IH]; intros H; simpl; [reflexivity |].
  rewrite (H x (or_introl eq_refl)).
  rewrite IH by (intros x' Hin; apply H; right; exact Hin). reflexivity.
Qed.

Ltac keeps_step :=
  match goal with
  | H : keeps ?s ?m |- keeps ?s ?m => exact H
  | |- keeps _ (bind _ _) => apply keeps_bind; [| intros ?]
  | |- keeps _ (ret _) => apply keeps_ret
  | |- keeps _ (throw _) => apply keeps_throw
  | |- keeps _ (call _) => apply keeps_call
  | |- keeps _ (promiseAll (map _ _)) => apply keeps_promiseAll_map; intros ?
  | |- keeps _ (promiseAll2 _ _) => apply keeps_promiseAll2
  | |- keeps _ (match ?x with _ => _ end) => destruct x
  end.

Section CompoundInstance.

Variable provider : Provider.
Variable positionType : PositionType.
Variable this_buildMetadata : M Metadata.
Variable wadDiv : Z -> Z -> Outcome Z.

Lemma compound_fetchPoolMetadata_keeps s a :
  keeps s this_buildMetadata ->
  keeps s (Compound._fetchPoolMetadata this_buildMetadata a).
Proof. intros H. unfold Compound._fetchPoolMetadata. repeat keeps_step. Qed.

Lemma compound_positions_keep userAddress blockNumber tokens s :
  keeps s this_buildMetadata ->
  keeps s
    (protocolTokensBalances <-
       promiseAll
         (map (fun market =>
                 amount <-
                   Compound.getBalance provider positionType market
                     userAddress blockNumber ;;
                 ret (address market, amount))
              tokens) ;;
     promiseAll
       (map (Compound.positionTask this_buildMetadata userAddress blockNumber)
            (filter (fun protocolTokenBalance =>
                       negb (snd protocolTokenBalance =? 0))
                    protocolTokensBalances))).
Proof.
  intros H.
  pose proof (fun a => compound_fetchPoolMetadata_keeps a H) as Hf.
  unfold Compound.getBalance, Compound.positionTask,
    Compound.fetchProtocolTokenMetadata, Compound.getUnderlyingTokenBalances.
  repeat keeps_step; apply Hf.
Qed.

Lemma compound_tvl_keeps blockNumber tokens s :
  keeps s
    (promiseAll
       (map (Compound.tvlTask provider positionType wadDiv blockNumber)
            tokens)).
Proof. unfold Compound.tvlTask. repeat keeps_step. Qed.

Lemma compound_movements_keep userAddress a fromBlock toBlock eventType
    protocolToken s :
  keeps s this_buildMetadata ->
  keeps s
    (underlyingTokens <-
       Compound.fetchUnderlyingTokensMetadata this_buildMetadata a ;;
     match underlyingTokens with
     | underlyingToken :: _ =>
         let (event, filter) :=
           Compound.movementFilter eventType userAddress a in
         eventResults <-
           call (pool_queryFilter provider
                   Compound.LQGCompoundV2ContractAddress
                   event filter fromBlock toBlock) ;;
         promiseAll (map (Compound.movementTask protocolToken underlyingToken)
                         eventResults)
     | [] => throw (TypeError "underlyingToken is undefined")
     end).
Proof.
  intros H.
  pose proof (fun a => compound_fetchPoolMetadata_keeps a H) as Hf.
  unfold Compound.fetchUnderlyingTokensMetadata, Compound.movementTask.
  repeat keeps_step; apply Hf.
Qed.

End CompoundInstance.

(** X6.  On a Compound base instance that runs its own [buildMetadata], a
    whole [getPositions], [getTotalValueLocked] or movement query leaves the
    instance exactly as a single [buildMetadata] call would: the registry is
    enumerated at most once, however many lookups the operation makes. *)
Theorem compound_operations_enumerate_at_most_once
    (provider : Provider) (positionType : PositionType)
    (wadDiv : Z -> Z -> Outcome Z) (schedule : list nat)
    (userAddress a : string) (blockNumber : option Z) (fromBlock toBlock : Z)
    (eventType : EventType) (s : AdapterState) :
  snd (Compound.getPositions provider positionType
         (Compound.buildMetadata provider schedule)
         userAddress blockNumber s)
  = snd (Compound.buildMetadata provider schedule s) /\
  snd (Compound.getTotalValueLocked provider positionType
         (Compound.buildMetadata provider schedule) wadDiv blockNumber s)
  = snd (Compound.buildMetadata provider schedule s) /\
  snd (Compound._getMovements provider
         (Compound.buildMetadata provider schedule)
         userAddress a fromBlock toBlock eventType s)
  = snd (Compound.buildMetadata provider schedule s) /\
  (registryReads (snd (Compound.buildMetadata provider schedule s))
   <= S (registryReads s))%nat.
Proof.
  destruct (Compound.buildMetadata provider schedule s) as [[metadata | e] s1]
    eqn:Eb; simpl.
  - assert (keeps s1 (Compound.buildMetadata provider schedule)) as Hk.
    { unfold keeps.
      rewrite (compound_buildMetadata_cached provider schedule _
                 (compound_buildMetadata_sets_cache _ _ _ Eb)).
      reflexivity. }
    assert (Compound.getProtocolTokens
              (Compound.buildMetadata provider schedule) s
            = (Ok (map pm_protocolToken (Object_values metadata)), s1)) as Ht.
    { unfold Compound.getProtocolTokens, bind. rewrite Eb. reflexivity. }
    split; [| split; [| split]].
    + unfold Compound.getPositions. erewrite bind_step; [| exact Ht].
      apply compound_positions_keep. exact Hk.
    + unfold Compound.getTotalValueLocked. erewrite bind_step; [| exact Ht].
      apply compound_tvl_keeps.
    + unfold Compound._getMovements, Compound.fetchProtocolTokenMetadata,
        Compound._fetchPoolMetadata.
      unfold bind at 1. unfold bind at 1. unfold bind at 1. rewrite Eb.
      destruct (obj_get metadata a) as [pool |]; [| reflexivity].
      unfold ret at 1. unfold ret at 1.
      apply compound_movements_keep. exact Hk.
    + destruct (_metadataCache s) as [cached |] eqn:Ec.
      * rewrite (compound_buildMetadata_cached provider schedule _ Ec) in Eb.
        inversion Eb; subst. lia.
      * destruct (compound_buildMetadata_uncached provider schedule) as [o Ho].
        rewrite (Ho s Ec) in Eb.
        destruct o; inversion Eb; subst; simpl; lia.
  - assert (_metadataCache s = None) as Ec.
    { destruct (_metadataCache s) as [cached |] eqn:Ec; [| reflexivity].
      rewrite (compound_buildMetadata_cached provider schedule _ Ec) in Eb.
      discriminate Eb. }
    assert (Compound.getProtocolTokens
              (Compound.buildMetadata provider schedule) s
            = (Throw e, s1)) as Ht.
    { unfold Compound.getProtocolTokens, bind. rewrite Eb. reflexivity. }
    split; [| split; [| split]].
    + unfold Compound.getPositions. erewrite bind_Throw; [| exact Ht].
      reflexivity.
    + unfold Compound.getTotalValueLocked. erewrite bind_Throw; [| exact Ht].
      reflexivity.
    + unfold Compound._getMovements, Compound.fetchProtocolTokenMetadata,
        Compound._fetchPoolMetadata.
      unfold bind at 1. unfold bind at 1. unfold bind at 1. rewrite Eb.
      reflexivity.
    + destruct (compound_buildMetadata_uncached provider schedule) as [o Ho].
      rewrite (Ho s Ec) in Eb.
      destruct o; inversion Eb; subst; simpl; lia.
Qed.

(** ** Positions of the pool adapters, from the metadata and the lens *)

Lemma metadata_token_lookup (metadata : Metadata) token :
  (forall k pool, In (k, pool) metadata -> address (pm_protocolToken pool) = k) ->
  In token (map pm_protocolToken (Object_values metadata)) ->
  exists pool, obj_get metadata (address token) = Some pool.
Proof.
  intros Hkeys Hin. unfold Object_values in Hin. rewrite map_map in Hin.
  apply in_map_iff in Hin. destruct Hin as ([k pool] & <- & Hin). simpl.
  rewrite (Hkeys k pool Hin). apply obj_get_key.
  unfold Object_keys. apply (in_map fst) in Hin. exact Hin.
Qed.

Lemma Forall2_map_eq A B (h : B -> A) (xs : list A) (l : list B) :
  Forall2 (fun x b => h b = x) xs l -> map h l = xs.
Proof.
  induction 1 as [| x b xs l Hx _ IH]; simpl; [reflexivity |].
  rewrite Hx, IH. reflexivity.
Qed.

Section PoolPositionsResolve.

Variable provider : Provider.
Variable positionType : PositionType.
Variable this_buildMetadata : M Metadata.
Variable userAddress : string.
Variable blockNumber : option Z.
Variable s : AdapterState.
Variable metadata : Metadata.
Variable read : string -> Z.

Hypothesis served : this_buildMetadata s = (Ok metadata, s).
Hypothesis keyed :
  forall k pool, In (k, pool) metadata -> address (pm_protocolToken pool) = k.

Lemma compound_positionTask_served a b pool :
  obj_get metadata a = Some pool ->
  Compound.positionTask this_buildMetadata userAddress blockNumber (a, b) s
  = (Ok {| tokenId := None;
           pos_token := {| address := a;
                           name := name (pm_protocolToken pool);
                           symbol := symbol (pm_protocolToken pool);
                           decimals := decimals (pm_protocolToken pool) |};
           balance := Some b;
           pos_balanceRaw := b;
           pos_type := Protocol;
           tokens := [ {| token := underlyingToken pool;
                          balanceRaw := b;
                          type := Underlying |} ] |}, s).
Proof.
  intros Hg.
  unfold Compound.positionTask, Compound.fetchProtocolTokenMetadata,
    Compound.getUnderlyingTokenBalances, Compound._fetchPoolMetadata,
    bind, ret.
  simpl. rewrite served, Hg, served, Hg. reflexivity.
Qed.

Lemma aave_positionTask_served a b pool :
  obj_get metadata a = Some pool ->
  Aave.positionTask this_buildMetadata userAddress blockNumber (a, b) s
  = (Ok {| tokenId := None;
           pos_token := {| address := a;
                           name := name (pm_protocolToken pool);
                           symbol := symbol (pm_protocolToken pool);
                           decimals := decimals (pm_protocolToken pool) |};
           balance := Some b;
           pos_balanceRaw := b;
           pos_type := Protocol;
           tokens := [ {| token := underlyingToken pool;
                          balanceRaw := b;
                          type := Underlying |} ] |}, s).
Proof.
  intros Hg.
  unfold Aave.positionTask, Aave.fetchProtocolTokenMetadata,
    Aave.getUnderlyingTokenBalances, Aave.fetchPoolMetadata, bind, ret.
  simpl. rewrite served, Hg, served, Hg. reflexivity.
Qed.

Lemma compound_getPositions_served :
  (forall market,
     In market (map pm_protocolToken (Object_values metadata)) ->
     exists x y,
       userBalance provider positionType Compound.lensAddress
         (address market) userAddress blockNumber
       = Ok (x, y, read (address market))) ->
  exists l,
    Compound.getPositions provider positionType this_buildMetadata
      userAddress blockNumber s = (Ok l, s) /\
    map (fun p => (address (pos_token p), pos_balanceRaw p)) l
    = filter (fun ab => negb (snd ab =? 0))
             (map (fun market => (address market, read (address market)))
                  (map pm_protocolToken (Object_values metadata))).
Proof.
  intros Hlens.
  set (markets := map pm_protocolToken (Object_values metadata)) in *.
  set (balances := map (fun market => (address market, read (address market)))
                       markets).
  destruct (@promiseAll_map_resolves _ _
              (Compound.positionTask this_buildMetadata userAddress
                 blockNumber)
              (fun ab p => (address (pos_token p), pos_balanceRaw p) = ab)
              (filter (fun ab => negb (snd ab =? 0)) balances) s)
    as (l & Hl & Hrel).
  { intros [a b] Hin.
    apply filter_In in Hin. destruct Hin as [Hin _].
    apply in_map_iff in Hin. destruct Hin as (market & Heq & Hin).
    inversion Heq; subst.
    destruct (@metadata_token_lookup metadata market keyed Hin)
      as [pool Hpool].
    eexists. split; [apply compound_positionTask_served; exact Hpool |].
    reflexivity. }
  exists l. split; [| apply Forall2_map_eq; exact Hrel].
  unfold Compound.getPositions.
  erewrite bind_step;
    [| unfold Compound.getProtocolTokens, bind; rewrite served; reflexivity].
  fold markets.
  erewrite bind_step; [exact Hl |].
  apply (promiseAll_map_fixed
           _ (fun market => (address market, read (address market)))).
  intros market Hin. destruct (Hlens market Hin) as (x & y & Hb).
  unfold Compound.getBalance, userBalance, bind, call, ret in *.
  destruct positionType; rewrite Hb; reflexivity.
Qed.

Lemma aave_getPositions_served :
  (forall market,
     In market (map pm_protocolToken (Object_values metadata)) ->
     exists x y,
       userBalance provider positionType Aave.lensAddress
         (address market) userAddress blockNumber
       = Ok (x, y, read (address market))) ->
  exists l,
    Aave.getPositions provider positionType this_buildMetadata
      userAddress blockNumber s = (Ok l, s) /\
    map (fun p => (address (pos_token p), pos_balanceRaw p)) l
    = filter (fun ab => negb (snd ab =? 0))
             (map (fun market => (address market, read (address market)))
                  (map pm_protocolToken (Object_values metadata))).
Proof.
  intros Hlens.
  set (markets := map pm_protocolToken (Object_values metadata)) in *.
  set (balances := map (fun market => (address market, read (address market)))
                       markets).
  destruct (@promiseAll_map_resolves _ _
              (Aave.positionTask this_buildMetadata userAddress blockNumber)
              (fun ab p => (address (pos_token p), pos_balanceRaw p) = ab)
              (filter (fun ab => negb (snd ab =? 0)) balances) s)
    as (l & Hl & Hrel).
  { intros [a b] Hin.
    apply filter_In in Hin. destruct Hin as [Hin _].
    apply in_map_iff in Hin. destruct Hin as (market & Heq & Hin).
    inversion Heq; subst.
    destruct (@metadata_token_lookup metadata market keyed Hin)
      as [pool Hpool].
    eexists. split; [apply aave_positionTask_served; exact Hpool |].
    reflexivity. }
  exists l. split; [| apply Forall2_map_eq; exact Hrel].
  unfold Aave.getPositions.
  erewrite bind_step;
    [| unfold Aave.getProtocolTokens, bind; rewrite served; reflexivity].
  fold markets.
  erewrite bind_step; [exact Hl |].
  apply (promiseAll_map_fixed
           _ (fun market => (address market, read (address market)))).
  intros market Hin. destruct (Hlens market Hin) as (x & y & Hb).
  unfold Aave.getBalance, userBalance, bind, call, ret in *.
  destruct positionType; rewrite Hb; reflexivity.
Qed.

End PoolPositionsResolve.

(** X4.  With the metadata served (as from a cache that is set) and keyed by
    the protocol tokens' addresses, [getPositions] of either optimizer base
    resolves whenever the lens answers for every market: no lookup fails, and
    the positions are exactly the markets of the metadata whose balance is
    not zero, in the order of the metadata, each with the balance read. *)
Theorem pool_getPositions_resolves_from_served_metadata
    (provider : Provider) (positionType : PositionType)
    (this_buildMetadata : M Metadata)
    (userAddress : string) (blockNumber : option Z)
    (s : AdapterState) (metadata : Metadata) (read : string -> Z) :
  this_buildMetadata s = (Ok metadata, s) ->
  (forall k pool,
     In (k, pool) metadata -> address (pm_protocolToken pool) = k) ->
  ((forall market,
      In market (map pm_protocolToken (Object_values metadata)) ->
      exists x y,
        userBalance provider positionType Compound.lensAddress
          (address market) userAddress blockNumber
        = Ok (x, y, read (address market))) ->
   exists l,
     Compound.getPositions provider positionType this_buildMetadata
       userAddress blockNumber s = (Ok l, s) /\
     map (fun p => (address (pos_token p), pos_balanceRaw p)) l
     = filter (fun ab => negb (snd ab =? 0))
              (map (fun market => (address market, read (address market)))
                   (map pm_protocolToken (Object_values metadata)))) /\
  ((forall market,
      In market (map pm_protocolToken (Object_values metadata)) ->
      exists x y,
        userBalance provider positionType Aave.lensAddress
          (address market) userAddress blockNumber
        = Ok (x, y, read (address market))) ->
   exists l,
     Aave.getPositions provider positionType this_buildMetadata
       userAddress blockNumber s = (Ok l, s) /\
     map (fun p => (address (pos_token p), pos_balanceRaw p)) l
     = filter (fun ab => negb (snd ab =? 0))
              (map (fun market => (address market, read (address market)))
                   (map pm_protocolToken (Object_values metadata)))).
Proof.
  intros served keyed. split; intros Hlens.
  - eapply compound_getPositions_served; eassumption.
  - eapply aave_getPositions_served; eassumption.
Qed.

Lemma pool_getPositions_resolves_from_served_metadata_witness :
  exists l,
    Compound.getPositions Sample.provider Supply
      (Compound.buildMetadata Sample.provider [])
      Sample.user (Some 100)
      (snd (Compound.buildMetadata Sample.provider [] fresh))
    = (Ok l, snd (Compound.buildMetadata Sample.provider [] fresh)) /\
    map (fun p => (address (pos_token p), pos_balanceRaw p)) l
    = [(Sample.marketA, 5)].
Proof.
  edestruct (@pool_getPositions_resolves_from_served_metadata
               Sample.provider Supply
               (Compound.buildMetadata Sample.provider [])
               Sample.user (Some 100)
               (snd (Compound.buildMetadata Sample.provider [] fresh))
               Sample2.poolMetadata
               (fun a => if String.eqb a Sample.marketA then 5 else 0))
    as [Hc _].
  - vm_compute. reflexivity.
  - intros k pool [H | [H | []]]; inversion H; reflexivity.
  - destruct Hc as (l & Hl & Hmap).
    + intros market [<- | [<- | []]].
      * exists 2, 3. reflexivity.
      * exists 0, 0. reflexivity.
    + exists l. split; [exact Hl | exact Hmap].
Defined.

(** ** One failing read fails the whole operation *)

Lemma promiseAll_map_rejects X A (f : X -> M A) (xs : list X) x :
  In x xs ->
  (forall s, exists e s', f x s = (Throw e, s')) ->
  forall s, exists e s', promiseAll (map f xs) s = (Throw e, s').
Proof.
  intros Hin Hx. apply (promiseAll_rejects (map f xs) (f x)).
  - apply in_map. exact Hin.
  - exact Hx.
Qed.

(** X5.  There is no partial result: when the lens read of one market of the
    metadata fails, [getPositions] of either optimizer base throws, and so
    does [getTotalValueLocked] when the totals read of one market fails (on
    the Compound base also when its [exchangeRateStored] read fails). *)
Theorem pool_operations_fail_as_a_whole
    (provider : Provider) (positionType : PositionType)
    (this_buildMetadata : M Metadata) (wadDiv : Z -> Z -> Outcome Z)
    (userAddress : string) (blockNumber : option Z)
    (s : AdapterState) (metadata : Metadata) (s1 : AdapterState)
    (market : Erc20Metadata) (e : JsError) :
  this_buildMetadata s = (Ok metadata, s1) ->
  In market (map pm_protocolToken (Object_values metadata)) ->
  (userBalance provider positionType Compound.lensAddress (address market)
     userAddress blockNumber = Throw e ->
   exists e' s',
     Compound.getPositions provider positionType this_buildMetadata
       userAddress blockNumber s = (Throw e', s')) /\
  (userBalance provider positionType Aave.lensAddress (address market)
     userAddress blockNumber = Throw e ->
   exists e' s',
     Aave.getPositions provider positionType this_buildMetadata
       userAddress blockNumber s = (Throw e', s')) /\
  (marketTotals provider positionType Compound.lensAddress (address market)
     blockNumber = Throw e \/
   exchangeRateStored provider (address market) blockNumber = Throw e ->
   exists e' s',
     Compound.getTotalValueLocked provider positionType this_buildMetadata
       wadDiv blockNumber s = (Throw e', s')) /\
  (marketTotals provider positionType Aave.lensAddress (address market)
     blockNumber = Throw e ->
   exists e' s',
     Aave.getTotalValueLocked provider positionType this_buildMetadata
       blockNumber s = (Throw e', s')).
Proof.
  intros Hb Hin.
  assert (Compound.getProtocolTokens this_buildMetadata s
          = (Ok (map pm_protocolToken (Object_values metadata)), s1)) as Hc
    by (unfold Compound.getProtocolTokens, bind; rewrite Hb; reflexivity).
  assert (Aave.getProtocolTokens this_buildMetadata s
          = (Ok (map pm_protocolToken (Object_values metadata)), s1)) as Ha
    by (unfold Aave.getProtocolTokens, bind; rewrite Hb; reflexivity).
  split; [| split; [| split]].
  - intros Hl. unfold Compound.getPositions.
    erewrite bind_step; [| exact Hc].
    edestruct (@promiseAll_map_rejects _ _
                 (fun market =>
                    amount <-
                      Compound.getBalance provider positionType market
                        userAddress blockNumber ;;
                    ret (address market, amount))
                 (map pm_protocolToken (Object_values metadata)) market Hin)
      with (s := s1) as (e' & s' & Hall).
    { intros s0. exists e, s0.
      unfold Compound.getBalance, userBalance, bind, call in *.
      destruct positionType; rewrite Hl; reflexivity. }
    exists e', s'. apply bind_Throw. exact Hall.
  - intros Hl. unfold Aave.getPositions.
    erewrite bind_step; [| exact Ha].
    edestruct (@promiseAll_map_rejects _ _
                 (fun market =>
                    amount <-
                      Aave.getBalance provider positionType market
                        userAddress blockNumber ;;
                    ret (address market, amount))
                 (map pm_protocolToken (Object_values metadata)) market Hin)
      with (s := s1) as (e' & s' & Hall).
    { intros s0. exists e, s0.
      unfold Aave.getBalance, userBalance, bind, call in *.
      destruct positionType; rewrite Hl; reflexivity. }
    exists e', s'. apply bind_Throw. exact Hall.
  - intros Hl. unfold Compound.getTotalValueLocked.
    erewrite bind_step; [| exact Hc].
    apply (promiseAll_map_rejects _ _ market Hin).
    intros s0.
    unfold Compound.tvlTask, marketTotals, bind, call, ret in *.
    destruct Hl as [Hl | Hl].
    + exists e, s0. destruct positionType; rewrite Hl; reflexivity.
    + destruct positionType;
        match goal with
        | |- context [getTotalMarketSupply ?p ?l ?m ?b] =>
            destruct (getTotalMarketSupply p l m b) as [[x y] | e0]
        | |- context [getTotalMarketBorrow ?p ?l ?m ?b] =>
            destruct (getTotalMarketBorrow p l m b) as [[x y] | e0]
        end;
        try rewrite Hl; eexists; eexists; reflexivity.
  - intros Hl. unfold Aave.getTotalValueLocked.
    erewrite bind_step; [| exact Ha].
    apply (promiseAll_map_rejects _ _ market Hin).
    intros s0. exists e, s0.
    unfold Aave.tvlTask, marketTotals, bind, call in *.
    destruct positionType; rewrite Hl; reflexivity.
Qed.

Lemma pool_operations_fail_as_a_whole_witness :
  exists e' s',
    Compound.getPositions Sample2.provider_lens_down Supply
      (Compound.buildMetadata Sample2.provider_lens_down [])
      Sample.user (Some 100) fresh = (Throw e', s').
Proof.
  edestruct (@pool_operations_fail_as_a_whole
               Sample2.provider_lens_down Supply
               (Compound.buildMetadata Sample2.provider_lens_down [])
               Sample.wadDiv Sample.user (Some 100) fresh
               Sample2.poolMetadata
               (snd (Compound.buildMetadata Sample2.provider_lens_down []
                       fresh))
               (Sample.metadataOf Sample.marketB)
               (ProviderError "timeout")) as [Hc _].
  - vm_compute. reflexivity.
  - simpl. right. left. reflexivity.
  - apply Hc. reflexivity.
Defined.

(** ** The vaults [getPositions] visits *)

Lemma filterTokens_In requested tokens token :
  In token (Vault.filterTokens (Some requested) tokens) <->
  In token tokens /\
  exists a, In a requested /\ same_address (address token) a = true.
Proof.
  unfold Vault.filterTokens, same_address. rewrite filter_In.
  split; intros [Hin H]; (split; [exact Hin |]).
  - apply existsb_exists in H. destruct H as (x & Hx & Heq).
    apply in_map_iff in Hx. destruct Hx as (a & <- & Ha).
    exists a. split; assumption.
  - destruct H as (a & Ha & Heq). apply existsb_exists.
    exists (toLowerCase a). split; [apply in_map; exact Ha | exact Heq].
Qed.

Lemma filterTokens_incl addresses tokens token :
  In token (Vault.filterTokens addresses tokens) -> In token tokens.
Proof.
  destruct addresses as [requested |]; [| exact (fun H => H)].
  intros H. apply filterTokens_In in H. apply H.
Qed.

Section VaultVisits.

Variable provider : Provider.
Variable this_buildMetadata : M Metadata.

Lemma vault_positionTask_shape userAddress blockNumber pt s1 ps s2 :
  Vault.positionTask provider this_buildMetadata userAddress blockNumber pt s1
  = (Ok ps, s2) ->
  (List.length ps <= 1)%nat /\
  Forall (fun p => pos_token p = pt /\ tokenId p = Some (address pt)) ps.
Proof.
  unfold Vault.positionTask. intros H.
  await H. await H. destruct v0 as [b [vd ad]].
  destruct (0 <? b).
  - await H. await H. returned H. simpl.
    split; [lia |]. constructor; [split; reflexivity | constructor].
  - returned H. simpl. split; [lia | constructor].
Qed.

Lemma concat_short A (ls : list (list A)) :
  Forall (fun l => (List.length l <= 1)%nat) ls ->
  (List.length (List.concat ls) <= List.length ls)%nat.
Proof.
  induction 1 as [| l ls Hl _ IH]; simpl; [lia |].
  rewrite length_app. lia.
Qed.

End VaultVisits.

(** X7.  The vault adapter's [getPositions] returns positions of requested
    vaults only: every position is that of a protocol token of the metadata,
    carries that token's address as its [tokenId], and, when addresses were
    given, matches one of them up to the case of the hex digits; there is at
    most one position per vault visited; and an empty list of addresses
    (unlike no list) yields no position at all. *)
Theorem vault_getPositions_visits_requested_vaults_only
    (provider : Provider) (this_buildMetadata : M Metadata)
    (userAddress : string) (blockNumber : option Z)
    (protocolTokenAddresses : option (list string)) (schedule : list nat)
    (s : AdapterState) (l : list ProtocolPosition) (s' : AdapterState) :
  Vault.getPositions provider this_buildMetadata userAddress blockNumber
    protocolTokenAddresses schedule s = (Ok l, s') ->
  exists metadata s1,
    this_buildMetadata s = (Ok metadata, s1) /\
    Forall (fun p =>
              In (pos_token p)
                 (map pm_protocolToken (Object_values metadata)) /\
              tokenId p = Some (address (pos_token p)) /\
              forall requested,
                protocolTokenAddresses = Some requested ->
                exists a,
                  In a requested /\
                  same_address (address (pos_token p)) a = true) l /\
    (List.length l
     <= List.length
          (Vault.filterTokens protocolTokenAddresses
             (map pm_protocolToken (Object_values metadata))))%nat /\
    (protocolTokenAddresses = Some [] -> l = []).
Proof.
  unfold Vault.getPositions, Vault.getProtocolTokens. intros H.
  await H as tokens s1 Ht. await Ht as metadata s0 Hb. returned Ht.
  cbv zeta in H. await H as pushed s2 Hp. returned H.
  exists metadata, s0. split; [exact Hb |].
  apply promiseAll_map_Ok in Hp.
  assert (Forall (fun ps =>
                    (List.length ps <= 1)%nat /\
                    Forall (fun p =>
                              In (pos_token p)
                                 (Vault.filterTokens protocolTokenAddresses
                                    (map pm_protocolToken
                                       (Object_values metadata))) /\
                              tokenId p = Some (address (pos_token p))) ps)
                 pushed) as Hall.
  { eapply (Forall2_transfer
              (P := fun pt =>
                      In pt (Vault.filterTokens protocolTokenAddresses
                               (map pm_protocolToken
                                  (Object_values metadata)))));
      [| | exact Hp].
    - intros pt ps Hin (t1 & t2 & Hps).
      apply vault_positionTask_shape in Hps. destruct Hps as [Hlen Hps].
      split; [exact Hlen |].
      eapply Forall_impl; [| exact Hps].
      intros p [-> ->]. split; [exact Hin | reflexivity].
    - apply Forall_forall. intros pt Hin.
      eapply Permutation_in; [apply complete_Permutation | exact Hin]. }
  split; [| split].
  - apply Forall_concat.
    eapply Forall_impl; [| exact Hall].
    intros ps [_ Hps]. eapply Forall_impl; [| exact Hps].
    intros p [Hin Hid].
    split; [eapply filterTokens_incl; exact Hin |].
    split; [exact Hid |].
    intros requested ->. apply filterTokens_In in Hin. apply Hin.
  - apply Forall2_length in Hp.
    rewrite (Permutation_length (complete_Permutation schedule _)) in Hp.
    rewrite Hp. apply concat_short.
    eapply Forall_impl; [| exact Hall]. intros ps [Hlen _]. exact Hlen.
  - intros ->.
    assert (Forall (fun p =>
                      In (pos_token p)
                         (Vault.filterTokens (Some [])
                            (map pm_protocolToken (Object_values metadata))))
                   (List.concat pushed)) as Hnone.
    { apply Forall_concat. eapply Forall_impl; [| exact Hall].
      intros ps [_ Hps]. eapply Forall_impl; [| exact Hps].
      intros p [Hin _]. exact Hin. }
    destruct (List.concat pushed) as [| p rest]; [reflexivity |].
    inversion Hnone as [| p' rest' Hin _]; subst.
    apply filterTokens_In in Hin. destruct Hin as (_ & a & [] & _).
Qed.

Lemma vault_getPositions_visits_requested_vaults_only_witness :
  (exists l s',
     Vault.getPositions Sample.provider
       (Vault.buildMetadata Sample.provider [])
       Sample.user (Some 100) (Some [Sample.marketA_upper]) [] fresh
     = (Ok l, s') /\
     map tokenId l = [Some Sample.marketA] /\
     exists metadata s1,
       Vault.buildMetadata Sample.provider [] fresh = (Ok metadata, s1) /\
       Forall (fun p =>
                 In (pos_token p)
                    (map pm_protocolToken (Object_values metadata)) /\
                 tokenId p = Some (address (pos_token p)) /\
                 forall requested,
                   Some [Sample.marketA_upper] = Some requested ->
                   exists a,
                     In a requested /\
                     same_address (address (pos_token p)) a = true) l /\
       (List.length l
        <= List.length
             (Vault.filterTokens (Some [Sample.marketA_upper])
                (map pm_protocolToken (Object_values metadata))))%nat /\
       (Some [Sample.marketA_upper] = Some [] -> l = [])) /\
  fst (Vault.getPositions Sample.provider
         (Vault.buildMetadata Sample.provider [])
         Sample.user (Some 100) (Some []) [] fresh) = Ok [].
Proof.
  split.
  - eexists. eexists. split; [lazy; reflexivity |]. split; [reflexivity |].
    eapply (vault_getPositions_visits_requested_vaults_only
              Sample.provider (Vault.buildMetadata Sample.provider [])
              Sample.user (Some 100) (Some [Sample.marketA_upper]) [] fresh).
    vm_compute. reflexivity.
  - reflexivity.
Defined.

Lemma vault_positionTask_answers provider this_buildMetadata metadata
    userAddress blockNumber pt pool b vaultDecimals assetDecimals :
  (forall s, this_buildMetadata s = (Ok metadata, s)) ->
  obj_get metadata (address pt) = Some pool ->
  balanceOf provider (address pt) userAddress blockNumber = Ok b ->
  erc20_decimals provider (address pt) = Ok vaultDecimals ->
  erc20_decimals provider (address (underlyingToken pool)) = Ok assetDecimals ->
  (0 < b -> assetDecimals <= vaultDecimals) ->
  forall s,
    exists ps,
      Vault.positionTask provider this_buildMetadata userAddress blockNumber
        pt s = (Ok ps, s).
Proof.
  intros Hb Hg Hbal Hvd Had Hdec s.
  destruct (Z.ltb_spec 0 b) as [Hpos | Hle].
  - unfold Vault.positionTask.
    erewrite bind_step;
      [| eapply vault_getUnderlyingToken_served; eassumption].
    unfold bind at 1. unfold promiseAll2, call. rewrite Hbal, Hvd, Had.
    destruct (Z.ltb_spec 0 b) as [_ | C]; [| lia].
    erewrite bind_step;
      [| eapply vault_getUnderlyingToken_served; eassumption].
    unfold bind. rewrite (shareBalance_total _ (Hdec Hpos)).
    eexists. reflexivity.
  - exists []. eapply vault_positionTask_skips; eassumption.
Qed.

(** X8.  The vault adapter stores an entry under the vault address of the
    factory's log but [getPositions] looks a vault up by the address of its
    token metadata: with the metadata served, a visited vault whose token
    metadata carries an address that is not a key of the mapping makes its
    task throw [Error('Protocol token pool not found')] before any balance
    is read, and with it [getPositions] throw.  The error [getPositions]
    throws is that one when the task of no other visited vault can fail:
    the contract reads of every visited vault that is a key answer, and a
    vault in which the user has shares has no fewer decimals than its
    asset. *)
Theorem vault_getPositions_looks_up_by_token_address
    (provider : Provider) (this_buildMetadata : M Metadata)
    (userAddress : string) (blockNumber : option Z)
    (protocolTokenAddresses : option (list string)) (schedule : list nat)
    (metadata : Metadata) (pt : Erc20Metadata) :
  (forall s, this_buildMetadata s = (Ok metadata, s)) ->
  In pt (Vault.filterTokens protocolTokenAddresses
           (map pm_protocolToken (Object_values metadata))) ->
  obj_get metadata (address pt) = None ->
  forall s,
    Vault.positionTask provider this_buildMetadata userAddress blockNumber
      pt s = (Throw pool_not_found, s) /\
    (exists e s',
       Vault.getPositions provider this_buildMetadata userAddress blockNumber
         protocolTokenAddresses schedule s = (Throw e, s')) /\
    ((forall pt' pool,
        In pt' (Vault.filterTokens protocolTokenAddresses
                  (map pm_protocolToken (Object_values metadata))) ->
        obj_get metadata (address pt') = Some pool ->
        exists b vaultDecimals assetDecimals,
          balanceOf provider (address pt') userAddress blockNumber = Ok b /\
          erc20_decimals provider (address pt') = Ok vaultDecimals /\
          erc20_decimals provider (address (underlyingToken pool))
          = Ok assetDecimals /\
          (0 < b -> assetDecimals <= vaultDecimals)) ->
     exists s',
       Vault.getPositions provider this_buildMetadata userAddress blockNumber
         protocolTokenAddresses schedule s = (Throw pool_not_found, s')).
Proof.
  intros Hb Hin Hg.
  assert (forall s0,
            Vault.positionTask provider this_buildMetadata userAddress
              blockNumber pt s0 = (Throw pool_not_found, s0)) as Htask.
  { intros s0. unfold Vault.positionTask. apply bind_Throw.
    unfold Vault.getUnderlyingToken. apply bind_Throw.
    eapply vault_fetchPoolMetadata_absent; [apply Hb | exact Hg]. }
  intros s. split; [apply Htask |].
  split.
  - unfold Vault.getPositions, Vault.getProtocolTokens.
    unfold bind at 1. unfold bind at 1. rewrite Hb. unfold ret at 1.
    cbv zeta.
    destruct (@promiseAll_map_rejects _ _
                (Vault.positionTask provider this_buildMetadata userAddress
                   blockNumber)
                (complete schedule
                   (Vault.filterTokens protocolTokenAddresses
                      (map pm_protocolToken (Object_values metadata))))
                pt) with (s := s) as (e & s' & Hall).
    + apply complete_In. exact Hin.
    + intros s0. eexists. eexists. apply Htask.
    + exists e, s'. apply bind_Throw. exact Hall.
  - intros Hreads.
    unfold Vault.getPositions, Vault.getProtocolTokens.
    unfold bind at 1. unfold bind at 1. rewrite Hb. unfold ret at 1.
    cbv zeta.
    destruct (@promiseAll_map_rejects_with _ _
                (Vault.positionTask provider this_buildMetadata userAddress
                   blockNumber)
                (complete schedule
                   (Vault.filterTokens protocolTokenAddresses
                      (map pm_protocolToken (Object_values metadata))))
                pt pool_not_found) with (s := s) as (s' & Hall).
    + apply complete_In. exact Hin.
    + intros s0. eexists. apply Htask.
    + intros pt' s0 e' s1 Hin' Ht.
      eapply Permutation_in in Hin'; [| apply complete_Permutation].
      destruct (obj_get metadata (address pt')) as [pool |] eqn:Hg'.
      * destruct (Hreads pt' pool Hin' Hg')
          as (b & vd & ad & Hbal & Hvd & Had & Hdec).
        destruct (@vault_positionTask_answers provider this_buildMetadata
                    metadata userAddress blockNumber pt' pool b vd ad
                    Hb Hg' Hbal Hvd Had Hdec s0) as [ps Hps].
        rewrite Hps in Ht. discriminate Ht.
      * assert (Vault.positionTask provider this_buildMetadata userAddress
                  blockNumber pt' s0 = (Throw pool_not_found, s0)) as Ht'.
        { unfold Vault.positionTask. apply bind_Throw.
          unfold Vault.getUnderlyingToken. apply bind_Throw.
          eapply vault_fetchPoolMetadata_absent; [apply Hb | exact Hg']. }
        rewrite Ht' in Ht. inversion Ht. reflexivity.
    + exists s'. apply bind_Throw. exact Hall.
Qed.

Lemma vault_getPositions_looks_up_by_token_address_witness :
  fst (Vault.buildMetadata Sample2.provider_respelled [] fresh)
  = Ok Sample2.respelledMetadata /\
  Vault.positionTask Sample2.provider_respelled
    (ret Sample2.twoVaultsMetadata) Sample.user (Some 100)
    (Sample.metadataOf Sample.marketA) fresh
  = (Throw pool_not_found, fresh) /\
  (exists ps,
     Vault.positionTask Sample2.provider_respelled
       (ret Sample2.twoVaultsMetadata) Sample.user (Some 100)
       (Sample.metadataOf Sample.marketB) fresh
     = (Ok ps, fresh)) /\
  (exists e s',
     Vault.getPositions Sample2.provider_respelled
       (ret Sample2.twoVaultsMetadata) Sample.user (Some 100) None [1%nat]
       fresh
     = (Throw e, s')) /\
  exists s',
    Vault.getPositions Sample2.provider_respelled
      (ret Sample2.twoVaultsMetadata) Sample.user (Some 100) None [1%nat]
      fresh
    = (Throw pool_not_found, s').
Proof.
  split; [reflexivity |].
  destruct (@vault_getPositions_looks_up_by_token_address
              Sample2.provider_respelled (ret Sample2.twoVaultsMetadata)
              Sample.user (Some 100) None [1%nat] Sample2.twoVaultsMetadata
              (Sample.metadataOf Sample.marketA)) with (s := fresh)
    as (Ht & He & Hp).
  - intros s. reflexivity.
  - simpl. left. reflexivity.
  - reflexivity.
  - split; [exact Ht |].
    split; [eexists; vm_compute; reflexivity |].
    split; [exact He |].
    apply Hp. intros pt' pool [<- | [<- | []]] Hg.
    + discriminate Hg.
    + inversion Hg; subst.
      exists (5 * 10 ^ 18), 18, 6.
      repeat split; try reflexivity. intros _. lia.
Defined.

(** ** The vault adapter's total value locked *)

Section VaultTotalValueLocked.

Variable this_buildMetadata : M Metadata.
Variable totalAssets : string -> option Z -> Outcome Z.

Lemma excluded_false requested token :
  VaultTvl.excluded (Some requested) token = false <->
  In (address token) requested.
Proof.
  unfold VaultTvl.excluded. rewrite negb_false_iff, existsb_exists.
  split.
  - intros (x & Hx & Heq). apply String.eqb_eq in Heq. subst x. exact Hx.
  - intros H. exists (address token). split; [exact H | apply String.eqb_refl].
Qed.

End VaultTotalValueLocked.

(** X9.  The vault adapter filters by address in two ways.  [getPositions]
    keeps a protocol token when one of the requested addresses equals its
    address up to the case of the hex digits; the callback of
    [getTotalValueLocked] keeps it only when the requested addresses include
    its address letter for letter, and otherwise returns [undefined] without
    a lookup or a contract read.  A token requested in another spelling is
    thus visited by [getPositions] and dropped by [getTotalValueLocked]. *)
Theorem vault_address_filters_differ
    (this_buildMetadata : M Metadata)
    (totalAssets : string -> option Z -> Outcome Z)
    (requested : list string) (blockNumber : option Z)
    (tokens : list Erc20Metadata) (token : Erc20Metadata) (s : AdapterState) :
  (In token (Vault.filterTokens (Some requested) tokens) <->
   In token tokens /\
   exists a, In a requested /\ same_address (address token) a = true) /\
  (~ In (address token) requested ->
   VaultTvl.tvlTask this_buildMetadata totalAssets (Some requested)
     blockNumber token s = (Ok None, s)) /\
  (In (address token) requested ->
   VaultTvl.tvlTask this_buildMetadata totalAssets (Some requested)
     blockNumber token s
   = VaultTvl.tvlTask this_buildMetadata totalAssets None
       blockNumber token s).
Proof.
  split; [apply filterTokens_In |]. split.
  - intros Hn. unfold VaultTvl.tvlTask.
    destruct (VaultTvl.excluded (Some requested) token) eqn:E;
      [reflexivity |].
    apply excluded_false in E. contradiction.
  - intros Hin. unfold VaultTvl.tvlTask.
    rewrite (proj2 (excluded_false requested token) Hin). reflexivity.
Qed.

Lemma vault_address_filters_differ_witness :
  In (Sample.metadataOf Sample.marketA)
     (Vault.filterTokens (Some [Sample.marketA_upper])
        [Sample.metadataOf Sample.marketA]) /\
  VaultTvl.tvlTask (ret Sample.vaultMetadata) Sample2.totalAssets
    (Some [Sample.marketA_upper]) (Some 100)
    (Sample.metadataOf Sample.marketA) fresh = (Ok None, fresh) /\
  fst (VaultTvl.tvlTask (ret Sample.vaultMetadata) Sample2.totalAssets
         (Some [Sample.marketA]) (Some 100)
         (Sample.metadataOf Sample.marketA) fresh)
  = Ok (Some {| tvl_token := {| address := Sample.marketA;
                                name := "Token";
                                symbol := "TKN";
                                decimals := 6 |};
                tvl_type := Protocol;
                totalSupplyRaw := 7 * 10 ^ 6 |}).
Proof.
  pose proof (vault_address_filters_differ
                (ret Sample.vaultMetadata) Sample2.totalAssets
                [Sample.marketA_upper] (Some 100)
                [Sample.metadataOf Sample.marketA]
                (Sample.metadataOf Sample.marketA) fresh) as (Hf & Hd & _).
  pose proof (vault_address_filters_differ
                (ret Sample.vaultMetadata) Sample2.totalAssets
                [Sample.marketA] (Some 100)
                [Sample.metadataOf Sample.marketA]
                (Sample.metadataOf Sample.marketA) fresh) as (_ & _ & Hk).
  split; [| split].
  - apply Hf. split; [left; reflexivity |].
    exists Sample.marketA_upper. split; [left; reflexivity | reflexivity].
  - apply Hd. intros [H | []]. discriminate H.
  - rewrite Hk; [reflexivity | left; reflexivity].
Defined.

(** X10.  A figure the vault adapter's TVL callback returns is made of both
    tokens of the vault's entry: the address and name are the protocol
    token's, the symbol and decimals are the underlying token's, and
    [totalSupplyRaw] is what [totalAssets()] of the vault answers (an amount
    of the underlying asset). *)
Theorem vault_tvl_figure
    (this_buildMetadata : M Metadata)
    (totalAssets : string -> option Z -> Outcome Z)
    (protocolTokenAddresses : option (list string)) (blockNumber : option Z)
    (token : Erc20Metadata) (s : AdapterState)
    (tvl : ProtocolTokenTvl) (s' : AdapterState) :
  VaultTvl.tvlTask this_buildMetadata totalAssets protocolTokenAddresses
    blockNumber token s = (Ok (Some tvl), s') ->
  exists metadata pool,
    this_buildMetadata s = (Ok metadata, s') /\
    obj_get metadata (address token) = Some pool /\
    address (tvl_token tvl) = address token /\
    name (tvl_token tvl) = name token /\
    symbol (tvl_token tvl) = symbol (underlyingToken pool) /\
    decimals (tvl_token tvl) = decimals (underlyingToken pool) /\
    totalAssets (address token) blockNumber = Ok (totalSupplyRaw tvl).
Proof.
  unfold VaultTvl.tvlTask. intros H.
  destruct (VaultTvl.excluded protocolTokenAddresses token);
    [returned H; discriminate |].
  await H as underlying s1 Hu. await H as total s2 Ht. returned H.
  apply call_Ok in Ht. destruct Ht as [Ht ->].
  unfold Vault.getUnderlyingToken in Hu.
  await Hu as pool s3 Hpool. returned Hu.
  apply vault_fetchPoolMetadata_Ok in Hpool.
  destruct Hpool as (metadata & Hb & Hg).
  inversion H; subst. simpl.
  exists metadata, pool. repeat split; assumption.
Qed.

Lemma vault_tvl_figure_witness :
  exists tvl s',
    VaultTvl.tvlTask (Vault.buildMetadata Sample.provider [])
      Sample2.totalAssets None (Some 100)
      (Sample.metadataOf Sample.marketA) fresh = (Ok (Some tvl), s') /\
    decimals (tvl_token tvl) = 6 /\
    exists metadata pool,
      Vault.buildMetadata Sample.provider [] fresh = (Ok metadata, s') /\
      obj_get metadata Sample.marketA = Some pool /\
      address (tvl_token tvl) = Sample.marketA /\
      name (tvl_token tvl) = "Token" /\
      symbol (tvl_token tvl) = symbol (underlyingToken pool) /\
      decimals (tvl_token tvl) = decimals (underlyingToken pool) /\
      Sample2.totalAssets Sample.marketA (Some 100)
      = Ok (totalSupplyRaw tvl).
Proof.
  eexists. eexists. split; [lazy; reflexivity |]. split; [reflexivity |].
  eapply (vault_tvl_figure
            (Vault.buildMetadata Sample.provider []) Sample2.totalAssets
            None (Some 100) (Sample.metadataOf Sample.marketA) fresh).
  vm_compute. reflexivity.
Defined.

(** ** The logs behind the movements *)

Lemma Forall2_impl_In A B (R R' : A -> B -> Prop) xs ys :
  (forall x y, In x xs -> R x y -> R' x y) ->
  Forall2 R xs ys -> Forall2 R' xs ys.
Proof.
  intros H HR. induction HR as [| x y xs ys Hxy _ IH]; constructor.
  - apply H; [left; reflexivity | exact Hxy].
  - apply IH. intros x' y' Hin. apply H. right. exact Hin.
Qed.

Lemma vault_queryFilter_sound provider contract ev f fromBlock toBlock logs l :
  vault_queryFilter provider contract ev f fromBlock toBlock = Ok logs ->
  In l logs ->
  vl_event l = ev /\ topics_match f (vault_topics l) = true /\
  fromBlock <= vl_blockNumber l <= toBlock.
Proof.
  unfold vault_queryFilter.
  destruct (vaultLogs provider contract) as [all | e]; [| discriminate].
  intros H Hin. inversion H; subst. apply filter_In in Hin.
  destruct Hin as [_ Hf].
  apply andb_prop in Hf. destruct Hf as [He Hf].
  apply andb_prop in Hf. destruct Hf as [Ht Hr].
  unfold in_range in Hr. apply andb_prop in Hr. destruct Hr as [H1 H2].
  split; [| split; [exact Ht | lia]].
  destruct (vl_event l), ev; try discriminate He; reflexivity.
Qed.

Lemma pool_queryFilter_incl provider contract ev f fromBlock toBlock logs :
  pool_queryFilter provider contract ev f fromBlock toBlock = Ok logs ->
  exists all, poolLogs provider contract = Ok all /\ incl logs all.
Proof.
  unfold pool_queryFilter.
  destruct (poolLogs provider contract) as [all | e]; [| discriminate].
  intros H. inversion H; subst. exists all. split; [reflexivity |].
  intros x Hx. apply filter_In in Hx. tauto.
Qed.

Lemma vault_queryFilter_incl provider contract ev f fromBlock toBlock logs :
  vault_queryFilter provider contract ev f fromBlock toBlock = Ok logs ->
  exists all, vaultLogs provider contract = Ok all /\ incl logs all.
Proof.
  unfold vault_queryFilter.
  destruct (vaultLogs provider contract) as [all | e]; [| discriminate].
  intros H. inversion H; subst. exists all. split; [reflexivity |].
  intros x Hx. apply filter_In in Hx. tauto.
Qed.

Lemma compound_filter_user eventType userAddress a l :
  pl_event l = fst (Compound.movementFilter eventType userAddress a) ->
  topics_match (snd (Compound.movementFilter eventType userAddress a))
    (pool_topics l) = true ->
  pl_event l = queried_event eventType /\
  exists party,
    compound_user eventType l = Some party /\
    same_address userAddress party = true.
Proof.
  unfold pl_event, pool_topics, compound_user, first_party, second_party.
  destruct eventType, (pl_args l); simpl; intros He Hm;
    try discriminate He;
    (split; [reflexivity |]);
    eexists; (split; [reflexivity |]);
    repeat (apply andb_prop in Hm; destruct Hm as [? Hm]); assumption.
Qed.

Lemma aave_filter_user eventType userAddress a l :
  pl_event l = fst (Aave.movementFilter eventType userAddress a) ->
  topics_match (snd (Aave.movementFilter eventType userAddress a))
    (pool_topics l) = true ->
  pl_event l = queried_event eventType /\
  exists party,
    aave_user eventType l = Some party /\
    same_address userAddress party = true.
Proof.
  unfold pl_event, pool_topics, aave_user, first_party, second_party.
  destruct eventType, (pl_args l); simpl; intros He Hm;
    try discriminate He;
    (split; [reflexivity |]);
    eexists; (split; [reflexivity |]);
    repeat (apply andb_prop in Hm; destruct Hm as [? Hm]); assumption.
Qed.

(** X11.  A movement of either optimizer base stems from a log of the
    optimizer contract, of the event queried, within the block range
    queried, whose block number and transaction hash it carries, and in
    which the user is the
    indexed address the adapter's filter names: on the Compound base the
    first one for withdrawals and borrows (who withdrew, who borrowed) and
    the second for deposits and repayments (on whose behalf); on the Aave
    base the first one for borrows only, and the second also for
    withdrawals (who received). *)
Theorem pool_movements_stem_from_logs_of_the_user
    (provider : Provider) (this_buildMetadata : M Metadata)
    (userAddress a : string) (fromBlock toBlock : Z) (eventType : EventType)
    (s : AdapterState) (l : list MovementsByBlock) (s' : AdapterState) :
  (Compound._getMovements provider this_buildMetadata userAddress a
     fromBlock toBlock eventType s = (Ok l, s') ->
   exists all logs,
     poolLogs provider Compound.LQGCompoundV2ContractAddress = Ok all /\
     incl logs all /\
     Forall2 (fun log m =>
                blockNumber m = pl_blockNumber log /\
                transactionHash m = pl_transactionHash log /\
                fromBlock <= blockNumber m <= toBlock /\
                pl_event log = queried_event eventType /\
                exists party,
                  compound_user eventType log = Some party /\
                  same_address userAddress party = true) logs l) /\
  (Aave.getMovements provider this_buildMetadata userAddress a
     fromBlock toBlock eventType s = (Ok l, s') ->
   exists all logs,
     poolLogs provider Aave.LQGAaveV2ContractAddress = Ok all /\
     incl logs all /\
     Forall2 (fun log m =>
                blockNumber m = pl_blockNumber log /\
                transactionHash m = pl_transactionHash log /\
                fromBlock <= blockNumber m <= toBlock /\
                pl_event log = queried_event eventType /\
                exists party,
                  aave_user eventType log = Some party /\
                  same_address userAddress party = true) logs l).
Proof.
  split; intros H.
  - apply compound_getMovements_Ok in H.
    destruct H as (metadata & s1 & pool & logs & _ & _ & Hq & Hl).
    destruct (pool_queryFilter_incl _ _ _ _ _ _ Hq) as (all & Hall & Hincl).
    exists all, logs. split; [exact Hall |]. split; [exact Hincl |].
    eapply Forall2_impl_In; [| exact Hl].
    intros log m Hin (_ & Hbn & Htx & _).
    eapply pool_queryFilter_sound in Hin; [| exact Hq].
    destruct Hin as (He & Ht & Hr).
    destruct (compound_filter_user _ _ _ _ He Ht) as [Hev Hu].
    rewrite Hbn. repeat split; try assumption; lia.
  - apply aave_getMovements_Ok in H.
    destruct H as (logs & Hq & Hl).
    destruct (pool_queryFilter_incl _ _ _ _ _ _ Hq) as (all & Hall & Hincl).
    exists all, (filter pl_decoded logs). split; [exact Hall |].
    split; [intros x Hx; apply filter_In in Hx; apply Hincl; tauto |].
    eapply Forall2_impl_In; [| exact Hl].
    intros log m Hin (_ & Hbn & Htx & _).
    apply filter_In in Hin. destruct Hin as [Hin _].
    eapply pool_queryFilter_sound in Hin; [| exact Hq].
    destruct Hin as (He & Ht & Hr).
    destruct (aave_filter_user _ _ _ _ He Ht) as [Hev Hu].
    rewrite Hbn. repeat split; try assumption; lia.
Qed.

Lemma pool_movements_stem_from_logs_of_the_user_witness :
  exists l s',
    Compound._getMovements Sample.provider
      (Compound.buildMetadata Sample.provider [])
      Sample.user Sample.marketA 0 100 supplied fresh = (Ok l, s') /\
    map (@blockNumber Z) l = [10] /\
    exists all logs,
      poolLogs Sample.provider Compound.LQGCompoundV2ContractAddress
      = Ok all /\
      incl logs all /\
      Forall2 (fun log m =>
                 blockNumber m = pl_blockNumber log /\
                 transactionHash m = pl_transactionHash log /\
                 0 <= blockNumber m <= 100 /\
                 pl_event log = queried_event supplied /\
                 exists party,
                   compound_user supplied log = Some party /\
                   same_address Sample.user party = true) logs l.
Proof.
  eexists. eexists. split; [lazy; reflexivity |]. split; [reflexivity |].
  edestruct (pool_movements_stem_from_logs_of_the_user
               Sample.provider (Compound.buildMetadata Sample.provider [])
               Sample.user Sample.marketA 0 100 supplied fresh) as [Hc _].
  apply Hc. vm_compute. reflexivity.
Defined.

(** X12.  A movement of the vault adapter stems from a log of the queried
    vault contract, of the event queried ([Deposit] or [Withdraw]), within the block
    range queried, whose block number and transaction hash it carries, and in
    which the user is the [owner]: deposits made to the user's account and
    withdrawals from it, whoever sent or received the assets. *)
Theorem vault_movements_stem_from_logs_of_the_owner
    (provider : Provider) (this_buildMetadata : M Metadata)
    (userAddress a : string) (fromBlock toBlock : Z) (eventType : VaultEvent)
    (s : AdapterState) (l : list MovementsByBlock) (s' : AdapterState) :
  Vault.getMovements provider this_buildMetadata userAddress
    fromBlock toBlock eventType a s = (Ok l, s') ->
  exists all logs,
    vaultLogs provider a = Ok all /\
    incl logs all /\
    Forall2 (fun log m =>
               blockNumber m = vl_blockNumber log /\
               transactionHash m = vl_transactionHash log /\
               fromBlock <= blockNumber m <= toBlock /\
               vl_event log = eventType /\
               same_address userAddress (vault_owner log) = true) logs l.
Proof.
  intros H. apply vault_getMovements_Ok in H.
  destruct H as (metadata & s1 & pool & logs & _ & _ & Hq & Hl).
  destruct (vault_queryFilter_incl _ _ _ _ _ _ Hq) as (all & Hall & Hincl).
  exists all, logs. split; [exact Hall |]. split; [exact Hincl |].
  eapply Forall2_impl_In; [| exact Hl].
  intros log m Hin (_ & Hbn & Htx & _).
  eapply vault_queryFilter_sound in Hin; [| exact Hq].
  destruct Hin as (He & Ht & Hr).
  rewrite Hbn. repeat split; try assumption; try lia.
  unfold vl_event, vault_topics, vault_owner in *.
  destruct eventType, (vl_args log); simpl in *; try discriminate He;
    repeat (apply andb_prop in Ht; destruct Ht as [? Ht]); assumption.
Qed.

Lemma vault_movements_stem_from_logs_of_the_owner_witness :
  exists l s',
    Vault.getMovements Sample2.provider_small_deposit
      (Vault.buildMetadata Sample2.provider_small_deposit [])
      Sample.user 0 100 Deposit Sample.marketA fresh = (Ok l, s') /\
    map (@blockNumber Z) l = [12] /\
    exists all logs,
      vaultLogs Sample2.provider_small_deposit Sample.marketA = Ok all /\
      incl logs all /\
      Forall2 (fun log m =>
                 blockNumber m = vl_blockNumber log /\
                 transactionHash m = vl_transactionHash log /\
                 0 <= blockNumber m <= 100 /\
                 vl_event log = Deposit /\
                 same_address Sample.user (vault_owner log) = true) logs l.
Proof.
  eexists. eexists. split; [lazy; reflexivity |]. split; [reflexivity |].
  eapply (vault_movements_stem_from_logs_of_the_owner
            Sample2.provider_small_deposit
            (Vault.buildMetadata Sample2.provider_small_deposit [])
            Sample.user Sample.marketA 0 100 Deposit fresh).
  vm_compute. reflexivity.
Defined.

(** ** Logs that came back without their arguments *)

Section UndecodedLogs.

Variable provider : Provider.
Variable this_buildMetadata : M Metadata.

Lemma compound_movementTasks protocolToken underlyingToken logs s :
  promiseAll (map (Compound.movementTask protocolToken underlyingToken) logs) s
  = (if forallb pl_decoded logs
     then Ok (map (fun event =>
                     {| protocolToken := protocolToken;
                        mv_tokens := [ {| token := underlyingToken;
                                          balanceRaw := _amount event;
                                          type := Underlying |} ];
                        blockNumber := pl_blockNumber event;
                        transactionHash := pl_transactionHash event |})
                  logs)
     else Throw (TypeError "Cannot read properties of undefined (reading '_amount')"),
     s).
Proof.
  induction logs as [| log logs IH]; simpl; [reflexivity |].
  unfold Compound.movementTask at 1.
  destruct (pl_decoded log); simpl; rewrite IH;
    destruct (forallb pl_decoded logs); reflexivity.
Qed.

End UndecodedLogs.

(** X13.  With the metadata served, the two optimizer bases treat a log that
    came back without its arguments differently.  The Compound base maps
    every log: its movement query returns one movement per log when all came
    with their arguments, and throws a [TypeError] as soon as one did not.
    The Aave base skips such a log: its query returns the movements of the
    other logs, one each, provided the pool token of each of these is a key
    of the metadata. *)
Theorem optimizer_movement_queries_on_logs_without_arguments
    (provider : Provider) (this_buildMetadata : M Metadata)
    (userAddress a : string) (fromBlock toBlock : Z) (eventType : EventType)
    (s : AdapterState) (metadata : Metadata) (logs : list PoolLog) :
  this_buildMetadata s = (Ok metadata, s) ->
  (forall pool,
     obj_get metadata a = Some pool ->
     pool_queryFilter provider Compound.LQGCompoundV2ContractAddress
       (fst (Compound.movementFilter eventType userAddress a))
       (snd (Compound.movementFilter eventType userAddress a))
       fromBlock toBlock = Ok logs ->
     Compound._getMovements provider this_buildMetadata userAddress a
       fromBlock toBlock eventType s
     = (if forallb pl_decoded logs
        then Ok (map (fun event =>
                        {| protocolToken := pm_protocolToken pool;
                           mv_tokens := [ {| token := underlyingToken pool;
                                             balanceRaw := _amount event;
                                             type := Underlying |} ];
                           blockNumber := pl_blockNumber event;
                           transactionHash := pl_transactionHash event |})
                     logs)
        else Throw (TypeError "Cannot read properties of undefined (reading '_amount')"),
        s)) /\
  (pool_queryFilter provider Aave.LQGAaveV2ContractAddress
     (fst (Aave.movementFilter eventType userAddress a))
     (snd (Aave.movementFilter eventType userAddress a))
     fromBlock toBlock = Ok logs ->
   (forall log,
      In log logs -> pl_decoded log = true ->
      exists pool, obj_get metadata (_poolToken log) = Some pool) ->
   exists l,
     Aave.getMovements provider this_buildMetadata userAddress a
       fromBlock toBlock eventType s = (Ok l, s) /\
     Forall2 (fun log m =>
                blockNumber m = pl_blockNumber log /\
                exists u, mv_tokens m = [u] /\ balanceRaw u = _amount log)
             (filter pl_decoded logs) l).
Proof.
  intros Hb. split.
  - intros pool Hg Hq.
    unfold Compound._getMovements, Compound.fetchProtocolTokenMetadata,
      Compound.fetchUnderlyingTokensMetadata, Compound._fetchPoolMetadata.
    destruct (Compound.movementFilter eventType userAddress a)
      as [event filter].
    simpl in Hq.
    unfold bind at 1. unfold bind at 1. unfold bind at 1.
    rewrite Hb, Hg. unfold ret at 1. unfold ret at 1.
    unfold bind at 1. unfold bind at 1. unfold bind at 1.
    rewrite Hb, Hg. unfold ret at 1. unfold ret at 1.
    unfold bind at 1. unfold call. rewrite Hq.
    apply compound_movementTasks.
  - intros Hq Hkeys.
    destruct (@promiseAll_map_resolves _ _
                (Aave.movementTask this_buildMetadata)
                (fun log o =>
                   match o with
                   | Some m =>
                       pl_decoded log = true /\
                       blockNumber m = pl_blockNumber log /\
                       exists u, mv_tokens m = [u] /\
                                 balanceRaw u = _amount log
                   | None => pl_decoded log = false
                   end)
                logs s) as (os & Hos & Hrel).
    { intros log Hin. unfold Aave.movementTask.
      destruct (pl_decoded log) eqn:Ed; simpl.
      - destruct (Hkeys log Hin Ed) as [pool Hpool].
        unfold Aave.fetchProtocolTokenMetadata,
          Aave.fetchUnderlyingTokensMetadata, Aave.fetchPoolMetadata,
          bind, ret.
        rewrite Hb, Hpool, Hb, Hpool. eexists. split; [reflexivity |].
        simpl. repeat split. eexists. split; reflexivity.
      - exists None. split; reflexivity. }
    exists (Aave.not_null os). split.
    + unfold Aave.getMovements.
      destruct (Aave.movementFilter eventType userAddress a)
        as [event filter].
      simpl in Hq. unfold bind at 1. unfold call. rewrite Hq.
      unfold bind, ret. rewrite Hos. reflexivity.
    + apply Forall2_not_null. exact Hrel.
Qed.

Lemma optimizer_movement_queries_on_logs_without_arguments_witness :
  fst (Compound._getMovements Sample2.provider_undecoded
         (ret Sample2.poolMetadata) Sample.user Sample.marketA 0 100
         supplied fresh)
  = Throw (TypeError "Cannot read properties of undefined (reading '_amount')")
  /\
  exists l,
    Aave.getMovements Sample2.provider_undecoded (ret Sample2.poolMetadata)
      Sample.user Sample.marketA 0 100 supplied fresh = (Ok l, fresh) /\
    Forall2 (fun log m =>
               blockNumber m = pl_blockNumber log /\
               exists u, mv_tokens m = [u] /\ balanceRaw u = _amount log)
            [Sample.supplied1] l.
Proof.
  destruct (@optimizer_movement_queries_on_logs_without_arguments
              Sample2.provider_undecoded (ret Sample2.poolMetadata)
              Sample.user Sample.marketA 0 100 supplied fresh
              Sample2.poolMetadata
              [Sample.supplied1; Sample2.supplied_undecoded]) as [Hc Ha].
  { reflexivity. }
  split.
  - erewrite Hc; [reflexivity | reflexivity | vm_compute; reflexivity].
  - apply Ha.
    + vm_compute. reflexivity.
    + intros log [<- | [<- | []]] Hd.
      * eexists. reflexivity.
      * discriminate Hd.
Defined.

(** ** How far [Number] moves an amount *)

Lemma round_to_double_error a :
  0 <= a ->
  Z.abs (round_to_double a - a) * 2 ^ 53 <= a /\
  round_to_double a <= 2 * a.
Proof.
  intros Ha. unfold round_to_double.
  destruct (Z.ltb_spec a (2 ^ 53)) as [Hsmall | Hbig].
  - rewrite Z.sub_diag. simpl Z.abs. lia.
  - assert (0 < a) as Hpos by (assert (0 < 2 ^ 53) by (vm_compute; reflexivity); lia).
    assert (53 <= Z.log2 a) as Hlog
      by (apply Z.log2_le_pow2; [exact Hpos | exact Hbig]).
    destruct (Z.log2_spec a Hpos) as [Hlo Hhi].
    set (e := Z.log2 a - 52) in *.
    assert (0 <= e - 1) as He by (unfold e; lia).
    rewrite Z.shiftr_div_pow2, Z.land_ones by lia.
    rewrite !Z.shiftl_mul_pow2 by lia.
    set (P := 2 ^ (e - 1)).
    assert (0 < P) as HP by (apply Z.pow_pos_nonneg; lia).
    assert (2 ^ e = 2 * P) as HeP.
    { unfold P. replace e with (Z.succ (e - 1)) at 1 by lia.
      apply Z.pow_succ_r. exact He. }
    assert (P * 2 ^ 53 = 2 ^ Z.log2 a) as HPa.
    { unfold P. rewrite <- Z.pow_add_r by lia. f_equal. unfold e. lia. }
    rewrite HeP.
    pose proof (Z.div_mod a (2 * P) ltac:(lia)) as Hdm.
    pose proof (Z.mod_pos_bound a (2 * P) ltac:(lia)) as Hr.
    set (q := a / (2 * P)) in *. set (r := a mod (2 * P)) in *.
    assert (0 <= q) as Hq by (apply Z.div_pos; lia).
    assert (Z.abs ((if (1 * P <? r) || (r =? 1 * P) && Z.odd q
                    then q + 1 else q) * (2 * P) - a) <= P) as Herr.
    { destruct (Z.ltb_spec (1 * P) r); cbn [orb andb].
      - nia.
      - destruct (Z.eqb_spec r (1 * P)); cbn [orb andb];
          [destruct (Z.odd q) |]; nia. }
    split.
    + eapply Z.le_trans; [apply Z.mul_le_mono_nonneg_r; [lia | exact Herr] |].
      rewrite HPa. exact Hlo.
    + assert (P <= a) by nia. lia.
Qed.

Lemma Number_error b v :
  Number b = NumInt v -> Z.abs (v - b) * 2 ^ 53 <= Z.abs b.
Proof.
  unfold Number.
  destruct (2 ^ 1024 <=? round_to_double (Z.abs b)); [discriminate |].
  intros H. inversion H; subst.
  destruct (@round_to_double_error (Z.abs b) (Z.abs_nonneg b)) as [Herr _].
  replace (Z.abs (Z.sgn b * round_to_double (Z.abs b) - b))
    with (Z.abs (round_to_double (Z.abs b) - Z.abs b)); [exact Herr |].
  destruct (Z.abs_spec b) as [[Hb ->] | [Hb ->]].
  - destruct (Z.eq_dec b 0) as [-> | Hnz]; [reflexivity |].
    rewrite Z.sgn_pos by lia. f_equal. lia.
  - rewrite Z.sgn_neg by lia.
    rewrite <- (Z.abs_opp (-1 * round_to_double (- b) - b)). f_equal. lia.
Qed.

Lemma Number_finite b :
  Z.abs b < 2 ^ 256 -> exists v, Number b = NumInt v.
Proof.
  intros Hb. unfold Number.
  destruct (@round_to_double_error (Z.abs b) (Z.abs_nonneg b)) as [_ Hle].
  destruct (Z.leb_spec (2 ^ 1024) (round_to_double (Z.abs b))) as [C | _].
  - assert (2 * 2 ^ 256 <= 2 ^ 1024) by (vm_compute; discriminate). lia.
  - eexists. reflexivity.
Qed.

(** X14.  What the vault adapter's [Number] / [BigInt] round trip does to an
    amount: for every value a uint256 can hold (indeed up to 2^256 in
    absolute value) it returns a bigint, never throwing, whose distance from
    the amount times 2^53 is at most the amount (so below 2^53 it is the
    amount itself); and every movement the vault adapter returns carries its
    log's [assets] with that precision. *)
Theorem vault_amounts_keep_53_bits
    (provider : Provider) (this_buildMetadata : M Metadata)
    (userAddress a : string) (fromBlock toBlock : Z) (eventType : VaultEvent)
    (s : AdapterState) (l : list MovementsByBlock) (s' : AdapterState)
    (b : Z) :
  (Z.abs b < 2 ^ 256 ->
   exists v,
     BigInt (Number b) = Ok v /\
     Z.abs (v - b) * 2 ^ 53 <= Z.abs b /\
     (Z.abs b < 2 ^ 53 -> v = b)) /\
  (Vault.getMovements provider this_buildMetadata userAddress
     fromBlock toBlock eventType a s = (Ok l, s') ->
   exists logs,
     vault_queryFilter provider a eventType
       (Vault.movementFilter eventType userAddress) fromBlock toBlock
     = Ok logs /\
     Forall2 (fun log m => exists u,
                mv_tokens m = [u] /\
                Z.abs (balanceRaw u - assets log) * 2 ^ 53
                <= Z.abs (assets log))
             logs l).
Proof.
  split.
  - intros Hb. destruct (Number_finite b Hb) as [v Hv].
    exists v. rewrite Hv. split; [reflexivity |].
    split; [apply Number_error; exact Hv |].
    intros Hsmall. rewrite (Number_exact _ Hsmall) in Hv.
    inversion Hv. reflexivity.
  - intros H. apply vault_getMovements_Ok in H.
    destruct H as (metadata & s1 & pool & logs & _ & _ & Hq & Hl).
    exists logs. split; [exact Hq |].
    eapply Forall2_impl; [| exact Hl].
    intros log m (_ & _ & _ & u & Hu & Hb). exists u. split; [exact Hu |].
    destruct (Number (assets log)) as [v | neg] eqn:En; [| discriminate Hb].
    simpl in Hb. inversion Hb; subst. apply Number_error. exact En.
Qed.

Lemma vault_amounts_keep_53_bits_witness :
  (exists v,
     BigInt (Number (2 ^ 255 + 1)) = Ok v /\
     Z.abs (v - (2 ^ 255 + 1)) * 2 ^ 53 <= Z.abs (2 ^ 255 + 1) /\
     (Z.abs (2 ^ 255 + 1) < 2 ^ 53 -> v = 2 ^ 255 + 1)) /\
  exists l s',
    Vault.getMovements Sample.provider
      (Vault.buildMetadata Sample.provider [])
      Sample.user 0 100 Deposit Sample.marketA fresh = (Ok l, s') /\
    exists logs,
      vault_queryFilter Sample.provider Sample.marketA Deposit
        (Vault.movementFilter Deposit Sample.user) 0 100 = Ok logs /\
      Forall2 (fun log m => exists u,
                 mv_tokens m = [u] /\
                 Z.abs (balanceRaw u - assets log) * 2 ^ 53
                 <= Z.abs (assets log))
              logs l.
Proof.
  split.
  - edestruct (vault_amounts_keep_53_bits
                 Sample.provider (Vault.buildMetadata Sample.provider [])
                 Sample.user Sample.marketA 0 100 Deposit fresh [] fresh
                 (2 ^ 255 + 1)) as [Hn _].
    apply Hn. vm_compute. reflexivity.
  - eexists. eexists. split; [lazy; reflexivity |].
    edestruct (vault_amounts_keep_53_bits
                 Sample.provider (Vault.buildMetadata Sample.provider [])
                 Sample.user Sample.marketA 0 100 Deposit fresh) as [_ Hm].
    apply Hm. vm_compute. reflexivity.
    Unshelve. exact 0.
Defined.

(** ** Amounts of the optimizer bases *)

Lemma pool_movements_carry_log_amounts_witness :
  exists l s',
    Compound._getMovements Sample.provider
      (Compound.buildMetadata Sample.provider [])
      Sample.user Sample.marketA 0 100 supplied fresh = (Ok l, s') /\
    exists logs,
      pool_queryFilter Sample.provider Compound.LQGCompoundV2ContractAddress
        (fst (Compound.movementFilter supplied Sample.user Sample.marketA))
        (snd (Compound.movementFilter supplied Sample.user Sample.marketA))
        0 100 = Ok logs /\
      Forall2 (fun log m => exists u,
                 mv_tokens m = [u] /\ balanceRaw u = _amount log) logs l.
Proof.
  eexists. eexists. split; [lazy; reflexivity |].
  edestruct (pool_movements_carry_log_amounts
               Sample.provider (Compound.buildMetadata Sample.provider [])
               Sample.user Sample.marketA 0 100 supplied fresh) as [Hc _].
  apply Hc. vm_compute. reflexivity.
Defined.
